(** * floatCSEP: the task scheduler, the run-directory registry and the
      forecast cache, embedded from the Python sources.

    The repository holds three generations of the same experiment driver:
    - [gefe/models.py]        (module [Gefe]):  [Experiment.get_run_struct],
      [Experiment.get_forecast], [Model.create_forecast],
      [Experiment.prepare_all_tests];
    - [fecsep/experiment.py]  (module [Fecsep]): [Experiment.prepare_paths],
      [Experiment.prepare_tasks], [Experiment.get_model];
    - [floatcsep/registry.py] (module [Floatcsep]): [BaseFileRegistry._parse_arg],
      [ExperimentRegistry.get] and friends, [ExperimentRegistry.build_tree].

    Python dictionaries are finite maps ([gmap]) with string keys, exceptions
    are values of [exn] carried by [result], and the mutable experiment
    object and the file system are threaded explicitly. *)

From stdpp Require Import gmap strings list fin_maps pretty.
From Stdlib Require Import ZArith Lia Ascii.

Open Scope string_scope.
Open Scope list_scope.

(** ** Exceptions and the error monad *)

Inductive exn : Type :=
| KeyError (key : string)
| IndexError
| TypeError
| AttributeError (attr : string)
| RuntimeError (msg : string)
| Exception (msg : string)
| FileExistsError (p : string)
| FileNotFoundError (p : string).

Inductive result (A : Type) : Type :=
| Ok (a : A)
| Raise (e : exn).
Arguments Ok {A} a.
Arguments Raise {A} e.

Definition rbind {A B} (r : result A) (k : A -> result B) : result B :=
  match r with
  | Ok a => k a
  | Raise e => Raise e
  end.

Declare Scope result_scope.
Delimit Scope result_scope with result.
Notation "'let*' x ':=' c 'in' k" := (rbind c (fun x => k))
  (at level 10, x name, c at level 100, k at level 200) : result_scope.
Notation "'let*' ' p ':=' c 'in' k" := (rbind c (fun p => k))
  (at level 10, p pattern, c at level 100, k at level 200) : result_scope.
Open Scope result_scope.

Definition is_ok {A} (r : result A) : bool :=
  match r with Ok _ => true | Raise _ => false end.

(** [d[k]] on a dictionary. *)
Definition getitem {V} (d : gmap string V) (k : string) : result V :=
  match d !! k with
  | Some v => Ok v
  | None => Raise (KeyError k)
  end.

(** [l[-1]] on a list. *)
Definition last_item {A} (l : list A) : result A :=
  match last l with
  | Some x => Ok x
  | None => Raise IndexError
  end.

(** A [for] loop whose body may raise, threading the loop-carried value
    (the [tasks] list being appended to, or the world being mutated). *)
Fixpoint for_ {A S} (l : list A) (body : A -> S -> result S) (s : S)
  : result S :=
  match l with
  | [] => Ok s
  | x :: l' => let* s' := body x s in for_ l' body s'
  end.

(** A list comprehension whose element expression may raise. *)
Fixpoint list_comp {A B} (f : A -> result B) (l : list A)
  : result (list B) :=
  match l with
  | [] => Ok []
  | x :: l' => let* y := f x in let* ys := list_comp f l' in Ok (y :: ys)
  end.

(** A dictionary comprehension [{key x: val x for x in l}]: a later element
    overwrites an earlier one with the same key. *)
Definition dict_comp {A V} (key : A -> string) (val : A -> V) (l : list A)
  : gmap string V :=
  fold_left (fun d x => <[key x := val x]> d) l ∅.

(** [{**d, **{key x: val x for x in l}}] *)
Definition dict_extend {A V} (d : gmap string V) (key : A -> string)
    (val : A -> V) (l : list A) : gmap string V :=
  fold_left (fun d x => <[key x := val x]> d) l d.

(** [needle in haystack] on strings. *)
Fixpoint str_in (needle haystack : string) : bool :=
  String.prefix needle haystack ||
  match haystack with
  | EmptyString => false
  | String _ rest => str_in needle rest
  end.

(** ** The file system, as far as the run directory needs it

    [listing] maps every existing directory to the names it contains;
    [regular] holds the paths that exist as something other than a
    directory. *)
Record FS : Type := mkFS {
  listing : gmap string (list string);
  regular : gset string
}.

(** [os.makedirs(p, exist_ok=True)]: nothing to do for an existing
    directory, an error when the path is taken by a file, and a new empty
    directory otherwise.  The intermediate directories it also creates are
    not listed by the code and are left out. *)
Definition makedirs (p : string) (fs : FS) : result FS :=
  if decide (p ∈ regular fs) then Raise (FileExistsError p)
  else match listing fs !! p with
       | Some _ => Ok fs
       | None => Ok (mkFS (<[p := []]> (listing fs)) (regular fs))
       end.

(** [os.listdir(p)]. *)
Definition listdir (p : string) (fs : FS) : result (list string) :=
  match listing fs !! p with
  | Some names => Ok names
  | None => Raise (FileNotFoundError p)
  end.

(** [any(file for file in files)]: some name is a non-empty string. *)
Definition any_truthy (files : list string) : bool :=
  existsb (fun f => negb (String.eqb f "")) files.

(** A dictionary that is iterated ([.items()], as the directory tree
    [dirtree] is) keeps its insertion order: an association list in
    which assigning to a key that is present keeps the key's place. *)
Definition odict (V : Type) : Type := list (string * V).

Fixpoint oset {V} (k : string) (v : V) (d : odict V) : odict V :=
  match d with
  | [] => [(k, v)]
  | (k', v') :: d' =>
      if String.eqb k k' then (k, v) :: d' else (k', v') :: oset k v d'
  end.

Fixpoint oget {V} (d : odict V) (k : string) : result V :=
  match d with
  | [] => Raise (KeyError k)
  | (k', v) :: d' => if String.eqb k k' then Ok v else oget d' k
  end.

Definition odict_comp {A V} (key : A -> string) (val : A -> V) (l : list A)
  : odict V :=
  fold_left (fun d x => oset (key x) (val x) d) l [].

(** A dictionary comprehension whose value expression may raise. *)
Definition dict_comp_r {A V} (key : A -> string) (val : A -> result V)
    (l : list A) : result (gmap string V) :=
  for_ l (fun x d => let* v := val x in Ok (<[key x := v]> d)) ∅.

(** The loop both [prepare_paths] and [build_tree] run over the directory
    tree:
    [for tw, tw_folder in dirtree.items():
         for _, folder_ in tw_folder.items():
             os.makedirs(folder_, exist_ok=True)] *)
Definition make_tree (dirtree : odict (odict string)) (fs : FS)
  : result FS :=
  for_ dirtree
    (fun '(tw, tw_folder) fs =>
       for_ tw_folder (fun '(_, folder_) fs => makedirs folder_ fs) fs)
    fs.


(** ** Ordered dictionaries and the directory tree *)

Lemma oget_oset {V} (k k' : string) (v : V) (d : odict V) :
  oget (oset k v d) k' = if String.eqb k' k then Ok v else oget d k'.
Proof.
  induction d as [|[k0 v0] d IH]; simpl; [done|].
  destruct (String.eqb k k0) eqn:Hk; simpl.
  - apply String.eqb_eq in Hk as ->. by destruct (String.eqb k' k0).
  - destruct (String.eqb k' k0) eqn:Hk'; [|done].
    apply String.eqb_eq in Hk' as ->.
    by rewrite String.eqb_sym, Hk.
Qed.

Lemma odict_comp_snoc {A V} (key : A -> string) (val : A -> V)
    (l : list A) (x : A) :
  odict_comp key val (l ++ [x]) = oset (key x) (val x) (odict_comp key val l).
Proof. unfold odict_comp. by rewrite fold_left_app. Qed.

Lemma oget_odict_comp {V} (val : string -> V) (l : list string) (k : string) :
  In k l -> oget (odict_comp (fun x => x) val l) k = Ok (val k).
Proof.
  induction l as [|x l IH] using rev_ind; [done|].
  intros Hin. rewrite odict_comp_snoc, oget_oset.
  destruct (String.eqb k x) eqn:Hk.
  - by apply String.eqb_eq in Hk as ->.
  - apply IH. apply in_app_or in Hin as [Hin|[->|[]]]; [done|].
    by rewrite String.eqb_refl in Hk.
Qed.

(** A path that exists as a directory. *)
Definition created (fs : FS) (p : string) : Prop :=
  (p ∉ regular fs) /\ is_Some (listing fs !! p).

Lemma makedirs_created (p : string) (fs fs' : FS) :
  makedirs p fs = Ok fs' ->
  created fs' p /\ (forall q, created fs q -> created fs' q).
Proof.
  unfold makedirs, created. destruct (decide (p ∈ regular fs)); [done|].
  destruct (listing fs !! p) eqn:Hp; intros [= <-]; simpl.
  - by rewrite Hp.
  - split.
    + split; [done|]. rewrite lookup_insert_eq. by eexists.
    + intros q [Hq1 Hq2]. split; [done|].
      destruct (decide (p = q)) as [->|Hne].
      * rewrite lookup_insert_eq. by eexists.
      * by rewrite lookup_insert_ne.
Qed.

Lemma makedirs_exist_ok (p : string) (fs : FS) :
  created fs p -> makedirs p fs = Ok fs.
Proof.
  intros [Hreg [names Hdir]]. unfold makedirs.
  rewrite decide_False by done. by rewrite Hdir.
Qed.

Lemma make_folders_created (d : odict string) (fs fs' : FS) :
  for_ d (fun '(_, folder_) fs => makedirs folder_ fs) fs = Ok fs' ->
  (forall n p, In (n, p) d -> created fs' p)
  /\ (forall q, created fs q -> created fs' q).
Proof.
  revert fs. induction d as [|[n0 p0] d IH]; intros fs Hfor; simpl in *.
  - injection Hfor as <-. split; [tauto|done].
  - destruct (makedirs p0 fs) as [fs1|] eqn:Hmk; [simpl in Hfor|discriminate].
    destruct (makedirs_created _ _ _ Hmk) as [Hc Hkeep].
    destruct (IH _ Hfor) as [Hall Hkeep'].
    split; [|by auto].
    intros n p [[= <- <-]|Hin]; [by auto|by eauto].
Qed.

Lemma make_tree_created (dirtree : odict (odict string)) (fs fs' : FS) :
  make_tree dirtree fs = Ok fs' ->
  (forall tw d n p, In (tw, d) dirtree -> In (n, p) d -> created fs' p)
  /\ (forall q, created fs q -> created fs' q).
Proof.
  unfold make_tree. revert fs.
  induction dirtree as [|[tw0 d0] dt IH]; intros fs Hfor; simpl in *.
  - injection Hfor as <-. split; [tauto|done].
  - destruct (for_ d0 _ fs) as [fs1|] eqn:Hin; [simpl in Hfor|discriminate].
    destruct (make_folders_created _ _ _ Hin) as [Hall Hkeep].
    destruct (IH _ Hfor) as [Hall' Hkeep'].
    split; [|by auto].
    intros tw d n p [[= <- <-]|Hd] Hp; [by eauto|by eauto].
Qed.

Lemma make_folders_exist_ok (d : odict string) (fs : FS) :
  (forall n p, In (n, p) d -> created fs p) ->
  for_ d (fun '(_, folder_) fs => makedirs folder_ fs) fs = Ok fs.
Proof.
  induction d as [|[n0 p0] d IH]; intros Hall; simpl; [done|].
  rewrite makedirs_exist_ok by (apply (Hall n0); by left). simpl.
  apply IH. intros n p Hin. apply (Hall n). by right.
Qed.

Lemma make_tree_exist_ok (dirtree : odict (odict string)) (fs : FS) :
  (forall tw d n p, In (tw, d) dirtree -> In (n, p) d -> created fs p) ->
  make_tree dirtree fs = Ok fs.
Proof.
  unfold make_tree.
  induction dirtree as [|[tw0 d0] dt IH]; intros Hall; simpl; [done|].
  rewrite make_folders_exist_ok
    by (intros n p Hin; apply (Hall tw0 d0 n p); [by left|done]).
  simpl. apply IH. intros tw d n p Hd Hp. apply (Hall tw d n p); [by right|done].
Qed.

(** Running the directory loop again changes nothing. *)
Lemma make_tree_idempotent (dirtree : odict (odict string)) (fs fs' : FS) :
  make_tree dirtree fs = Ok fs' -> make_tree dirtree fs' = Ok fs'.
Proof.
  intros Hmk. apply make_tree_exist_ok.
  by destruct (make_tree_created _ _ _ Hmk).
Qed.

(** Inversion of a successful sequence of [let*] steps. *)
Ltac bind_inv H :=
  repeat match type of H with
    | rbind ?c _ = Ok _ =>
        let E := fresh "E" in
        destruct c eqn:E; [cbn [rbind] in H | discriminate H]
    end.

(** ** Loops that append *)

Lemma rbind_ok {A B} (a : A) (k : A -> result B) : rbind (Ok a) k = k a.
Proof. reflexivity. Qed.

(** A loop whose body appends [emit x] to the list it carries yields the
    concatenation of the emitted pieces, in the order of the iteration. *)
Lemma for_emit {A T} (l : list A) (body : A -> list T -> result (list T))
    (emit : A -> list T) :
  (forall x acc, In x l -> body x acc = Ok (acc ++ emit x)) ->
  forall acc, for_ l body acc = Ok (acc ++ flat_map emit l).
Proof.
  induction l as [|x l IH]; intros Hbody acc; simpl.
  - by rewrite app_nil_r.
  - rewrite Hbody by (by left). simpl.
    rewrite IH by (intros; apply Hbody; by right).
    by rewrite app_assoc.
Qed.

Lemma list_comp_ok {A B} (f : A -> result B) (g : A -> B) (l : list A) :
  (forall x, In x l -> f x = Ok (g x)) -> list_comp f l = Ok (map g l).
Proof.
  induction l as [|x l IH]; intros Hf; simpl; [done|].
  rewrite Hf by (by left). simpl.
  rewrite IH by (intros; apply Hf; by right). done.
Qed.

Lemma flat_map_filter_map {A B} (P : A -> bool) (f : A -> B) (l : list A) :
  flat_map (fun x => if P x then [f x] else []) l
  = map f (filter (fun x => P x = true) l).
Proof.
  induction l as [|x l IH]; simpl; [done|].
  rewrite filter_cons.
  destruct (decide (P x = true)) as [HP|HP];
    [|apply not_true_is_false in HP]; rewrite HP; simpl; by rewrite ?IH.
Qed.

Lemma flat_map_filter {A B} (P : A -> bool) (f : A -> list B) (l : list A) :
  flat_map (fun x => if P x then f x else []) l
  = flat_map f (filter (fun x => P x = true) l).
Proof.
  induction l as [|x l IH]; simpl; [done|].
  rewrite filter_cons.
  destruct (decide (P x = true)) as [HP|HP];
    [|apply not_true_is_false in HP]; rewrite HP; simpl; by rewrite ?IH.
Qed.

Lemma flat_map_singleton {A B} (f : A -> B) (l : list A) :
  flat_map (fun x => [f x]) l = map f l.
Proof. induction l; simpl; congruence. Qed.

(** Counting the elements of a list that satisfy a test. *)
Definition count {A} (P : A -> bool) (l : list A) : nat :=
  length (List.filter P l).

Lemma count_app {A} (P : A -> bool) (l1 l2 : list A) :
  count P (l1 ++ l2) = count P l1 + count P l2.
Proof. unfold count. by rewrite List.filter_app, length_app. Qed.

Lemma count_flat_map_const {A B} (P : B -> bool) (f : A -> list B)
    (l : list A) (c : nat) :
  (forall x, In x l -> count P (f x) = c) ->
  count P (flat_map f l) = length l * c.
Proof.
  induction l as [|x l IH]; intros Hc; simpl; [done|].
  rewrite count_app, Hc by (by left).
  rewrite IH by (intros; apply Hc; by right). done.
Qed.

Lemma count_all {A} (P : A -> bool) (l : list A) :
  (forall x, In x l -> P x = true) -> count P l = length l.
Proof.
  unfold count. induction l as [|x l IH]; intros H; simpl; [done|].
  rewrite H by (by left). simpl. rewrite IH; [done|].
  intros; apply H; by right.
Qed.

Lemma count_none {A} (P : A -> bool) (l : list A) :
  (forall x, In x l -> P x = false) -> count P l = 0.
Proof.
  unfold count. induction l as [|x l IH]; intros H; simpl; [done|].
  rewrite H by (by left). apply IH. intros; apply H; by right.
Qed.

(** ** Dictionary comprehensions keyed by the element itself *)

Lemma for_insert_lookup {V} (val : string -> result V) (l : list string)
    (d0 d : gmap string V) :
  for_ l (fun x d => let* v := val x in Ok (<[x := v]> d)) d0 = Ok d ->
  forall k,
    (In k l -> exists v, val k = Ok v /\ d !! k = Some v)
    /\ (~ In k l -> d !! k = d0 !! k).
Proof.
  revert d0. induction l as [|x l IH]; intros d0 Hfor k; simpl in *.
  - injection Hfor as <-. split; [tauto|done].
  - destruct (val x) as [v|e] eqn:Hval; [simpl in Hfor|discriminate].
    destruct (IH _ Hfor k) as [Hin Hout].
    destruct (in_dec String.string_dec k l) as [Hk|Hk].
    + split; [intros _; by apply Hin|]. intros Hn. exfalso. apply Hn. by right.
    + split.
      * intros [->|Hk']; [|done]. exists v. split; [done|].
        rewrite Hout by done. apply lookup_insert_eq.
      * intros Hn. rewrite Hout by done.
        apply lookup_insert_ne. intros ->. apply Hn. by left.
Qed.

Lemma dict_comp_r_lookup {V} (val : string -> result V) (l : list string)
    (d : gmap string V) (k : string) :
  for_ l (fun x d => let* v := val x in Ok (<[x := v]> d)) ∅ = Ok d ->
  In k l -> exists v, val k = Ok v /\ d !! k = Some v.
Proof. intros Hfor. by apply (for_insert_lookup val l ∅ d Hfor k). Qed.

(** ** Pure dictionary comprehensions *)

Lemma dict_extend_snoc {A V} (d : gmap string V) (key : A -> string)
    (val : A -> V) (l : list A) (x : A) :
  dict_extend d key val (l ++ [x])
  = <[key x := val x]> (dict_extend d key val l).
Proof. unfold dict_extend. by rewrite fold_left_app. Qed.

Lemma lookup_dict_extend {V} (d : gmap string V) (val : string -> V)
    (l : list string) (k : string) :
  In k l -> dict_extend d (fun x => x) val l !! k = Some (val k).
Proof.
  induction l as [|x l IH] using rev_ind; [done|].
  intros Hin. rewrite dict_extend_snoc.
  destruct (decide (x = k)) as [->|Hne].
  - apply lookup_insert_eq.
  - rewrite lookup_insert_ne by done. apply IH.
    apply in_app_or in Hin as [Hin|[->|[]]]; done.
Qed.

Lemma lookup_dict_comp {V} (val : string -> V) (l : list string)
    (k : string) :
  In k l -> dict_comp (fun x => x) val l !! k = Some (val k).
Proof. apply (lookup_dict_extend ∅). Qed.

(** ** Where the entries of a comprehension come from *)

Lemma for_insert_sound {A V} (key : A -> string) (val : A -> result V)
    (l : list A) (d0 d : gmap string V) :
  for_ l (fun x d => let* v := val x in Ok (<[key x := v]> d)) d0 = Ok d ->
  forall k v,
    d !! k = Some v ->
    d0 !! k = Some v \/ exists x, In x l /\ key x = k /\ val x = Ok v.
Proof.
  revert d0. induction l as [|x l IH]; intros d0 Hfor k v Hk; simpl in *.
  - injection Hfor as <-. by left.
  - destruct (val x) as [vx|e] eqn:Hval; [simpl in Hfor|discriminate].
    destruct (IH _ Hfor k v Hk) as [Hin|(y & Hy & Hky & Hvy)].
    + destruct (decide (key x = k)) as [<-|Hne].
      * rewrite lookup_insert_eq in Hin. injection Hin as <-.
        right. exists x. split; [by left|done].
      * rewrite lookup_insert_ne in Hin by done. by left.
    + right. exists y. split; [by right|done].
Qed.

Lemma In_oset {V} (k k0 : string) (v v0 : V) (d : odict V) :
  In (k, v) (oset k0 v0 d) -> (k = k0 /\ v = v0) \/ In (k, v) d.
Proof.
  induction d as [|[k1 v1] d IH]; simpl.
  - intros [[= <- <-]|[]]. by left.
  - destruct (String.eqb k0 k1) eqn:Heq; simpl.
    + intros [[= <- <-]|Hin]; [by left|right; by right].
    + intros [Hin|Hin]; [right; by left|].
      destruct (IH Hin) as [?|?]; [by left|right; by right].
Qed.

Lemma In_odict_comp {V} (val : string -> V) (l : list string) (k : string)
    (v : V) :
  In (k, v) (odict_comp (fun x => x) val l) -> In k l /\ v = val k.
Proof.
  induction l as [|x l IH] using rev_ind; [done|].
  rewrite odict_comp_snoc. intros Hin.
  apply In_oset in Hin as [[-> ->]|Hin].
  - split; [|done]. apply in_or_app. right. by left.
  - destruct (IH Hin) as [Hk ->]. split; [|done]. apply in_or_app. by left.
Qed.

(** ** Directories that did not exist are created empty *)

(** Every directory is listed as before, or is new and empty. *)
Definition grown (fs fs' : FS) : Prop :=
  forall p,
    listing fs' !! p = listing fs !! p
    \/ (listing fs !! p = None /\ listing fs' !! p = Some []).

Lemma grown_refl (fs : FS) : grown fs fs.
Proof. intros p. by left. Qed.

Lemma grown_trans (fs1 fs2 fs3 : FS) :
  grown fs1 fs2 -> grown fs2 fs3 -> grown fs1 fs3.
Proof.
  intros H12 H23 p. destruct (H12 p) as [E12|[N1 E2]], (H23 p) as [E23|[N2 E3]].
  - left. by rewrite E23.
  - right. split; [by rewrite <- E12|done].
  - right. split; [done|by rewrite E23].
  - rewrite E2 in N2. discriminate.
Qed.

Lemma makedirs_grown (p : string) (fs fs' : FS) :
  makedirs p fs = Ok fs' -> grown fs fs'.
Proof.
  unfold makedirs. destruct (decide (p ∈ regular fs)); [done|].
  destruct (listing fs !! p) eqn:Hp; intros [= <-]; [apply grown_refl|].
  intros q. simpl. destruct (decide (p = q)) as [<-|Hne].
  - right. split; [done|apply lookup_insert_eq].
  - left. by apply lookup_insert_ne.
Qed.

Lemma make_tree_grown (dirtree : odict (odict string)) (fs fs' : FS) :
  make_tree dirtree fs = Ok fs' -> grown fs fs'.
Proof.
  unfold make_tree. revert fs.
  induction dirtree as [|[tw0 d0] dt IH]; intros fs Hfor; simpl in *.
  - injection Hfor as <-. apply grown_refl.
  - destruct (for_ d0 _ fs) as [fs1|] eqn:Hin; [simpl in Hfor|discriminate].
    apply (grown_trans fs fs1 fs'); [|by apply IH].
    clear -Hin. revert fs Hin.
    induction d0 as [|[n0 p0] d IHd]; intros fs Hin; simpl in *.
    + injection Hin as <-. apply grown_refl.
    + destruct (makedirs p0 fs) as [fs2|] eqn:Hmk; [simpl in Hin|discriminate].
      apply (grown_trans fs fs2 fs1); [by eapply makedirs_grown|by apply IHd].
Qed.

(** A directory of the tree that did not exist before is listed empty
    afterwards. *)
Lemma make_tree_fresh (dirtree : odict (odict string)) (fs fs' : FS)
    (tw : string) (d : odict string) (n p : string) :
  make_tree dirtree fs = Ok fs' ->
  In (tw, d) dirtree -> In (n, p) d ->
  listing fs !! p = None ->
  listing fs' !! p = Some [].
Proof.
  intros Hmk Htw Hp Hnone.
  destruct (make_tree_created _ _ _ Hmk) as [Hall _].
  destruct (Hall tw d n p Htw Hp) as [_ [names Hnames]].
  destruct (make_tree_grown _ _ _ Hmk p) as [Heq|[_ Hempty]]; [|done].
  rewrite Heq, Hnone in Hnames. discriminate.
Qed.


(** ** fecsep/experiment.py *)
Module Fecsep.

(** A time window is a pair of timestamps. *)
Definition datetime : Type := Z.
Definition timewindow : Type := (datetime * datetime)%type.

(** Modelled from the spec: the class [fecsep.model.Model] is not among
    the sources.  A model's identity is its name; it holds the path of its
    forecast data.  Nothing else of it is read by the scheduler. *)
Record Model : Type := mkModel {
  model_name : string;
  model_path : string
}.

(** Modelled from the spec: the class [fecsep.evaluation.Evaluation] is not
    among the sources.  An evaluation has a name, a [type] tag that the
    scheduler only queries with [in] ("matching evaluation type by substring
    tags on a string"), and a reference-model name, populated only for the
    Comparative and Batch variants. *)
Record Evaluation : Type := mkEvaluation {
  test_name : string;
  test_type : string;
  test_ref_model : option string
}.

#[global] Instance Model_eq_dec : EqDecision Model.
Proof. solve_decision. Defined.
#[global] Instance Evaluation_eq_dec : EqDecision Evaluation.
Proof. solve_decision. Defined.

(** The values bound to the keyword arguments of a task. *)
Inductive value : Type :=
| VStr (s : string)
| VStrs (l : list string)
| VModel (m : Model)
| VModels (l : list Model)
| VNone.

#[global] Instance value_eq_dec : EqDecision value.
Proof. solve_decision. Defined.

(** The object whose method a task calls. *)
Inductive target : Type :=
| OnExperiment
| OnModel (m : Model)
| OnEvaluation (e : Evaluation).

#[global] Instance target_eq_dec : EqDecision target.
Proof. solve_decision. Defined.

(** Modelled from the spec: the class [fecsep.utils.Task] is not among the
    sources.  A task binds a target instance, a method name and a bundle of
    keyword arguments, as [Task(instance=..., method=..., **kwargs)] is
    called; the keywords are kept in the order they are written. *)
Record Task : Type := mkTask {
  instance : target;
  method : string;
  kwargs : list (string * value)
}.

#[global] Instance Task_eq_dec : EqDecision Task.
Proof. solve_decision. Defined.

(** [task.kwargs.get(k)] on the keyword bundle. *)
Fixpoint kwarg (k : string) (kw : list (string * value)) : option value :=
  match kw with
  | [] => None
  | (k', v) :: kw' => if String.eqb k k' then Some v else kwarg k kw'
  end.

(** One entry of [self._paths], the paths of one time window. *)
Record WindowPaths : Type := mkWindowPaths {
  models_forecasts : gmap string string;
  models_figures : gmap string string;
  catalog : string;
  evaluations : gmap string (gmap string string);
  figures : gmap string string
}.

(** One entry of [self._exists]. *)
Record WindowExists : Type := mkWindowExists {
  forecasts_exist : bool;
  catalog_exists : bool;
  evaluations_exist : gmap string (gmap string bool)
}.

(** The attributes of [Experiment] that path and task preparation touch. *)
Record Experiment : Type := mkExperiment {
  path : string;
  timewindows : list timewindow;
  models : list Model;
  tests : list Evaluation;
  tasks : list Task;
  run_folder : string;
  _paths : gmap string WindowPaths;
  _exists : gmap string WindowExists
}.

Definition set_tasks (exp : Experiment) (ts : list Task) : Experiment :=
  mkExperiment (path exp) (timewindows exp) (models exp) (tests exp) ts
    (run_folder exp) (_paths exp) (_exists exp).

Definition set_paths (exp : Experiment) (rf : string)
    (tp : gmap string WindowPaths) (ex : gmap string WindowExists)
  : Experiment :=
  mkExperiment (path exp) (timewindows exp) (models exp) (tests exp)
    (tasks exp) rf tp ex.

Definition subfolders : list string :=
  ["catalog"; "evaluations"; "figures"; "forecasts"].

(** [f'{test}_{model}.json'] *)
Definition result_file (test model : string) : string :=
  test +:+ "_" +:+ model +:+ ".json".

(** ['Tag' in test_k.type] *)
Definition has_tag (tag : string) (test_k : Evaluation) : bool :=
  str_in tag (test_type test_k).

(** [self.get_model(name)]: the first model of that name; falling off the
    end of the loop returns [None]. *)
Fixpoint get_model_in (ms : list Model) (name : option string)
  : option Model :=
  match ms with
  | [] => None
  | model :: ms' =>
      if bool_decide (Some (model_name model) = name) then Some model
      else get_model_in ms' name
  end.

Definition get_model (exp : Experiment) (name : option string)
  : option Model :=
  get_model_in (models exp) name.

(** A model or [None] as a keyword value. *)
Definition value_of_model (o : option Model) : value :=
  match o with
  | Some m => VModel m
  | None => VNone
  end.

Section Scheduler.

(** [fecsep.utils.timewindow2str] is not among the sources: the canonical
    string of one window is a parameter, and the call on a list of windows
    is its pointwise image. *)
Variable timewindow2str : timewindow -> string.

(** [os.path.join], [os.path.abspath], [os.path.normpath],
    [os.path.dirname]. *)
Variable join : list string -> string.
Variable abspath normpath dirname : string -> string.

Definition _abspath (exp : Experiment) (paths : list string)
  : string * string :=
  let _path := normpath (abspath (join (path exp :: paths))) in
  let _dir := dirname _path in
  (_dir, _path).

(** [results_path or 'results'] *)
Definition or_default (o : option string) (d : string) : string :=
  match o with
  | Some s => if String.eqb s "" then d else s
  | None => d
  end.

(** The body of [prepare_paths] once the run folder is known and the
    directories exist: it reads the file system and computes the
    existence flags and the target paths. *)
Definition read_tree (dirtree : odict (odict string))
    (windows models_ tests_ : list string) (fs : FS)
  : result (gmap string WindowExists * gmap string WindowPaths) :=
  (* files = {win: {name: list(os.listdir(path)) ...} ...} *)
  let* files :=
    dict_comp_r fst
      (fun '(win, windir) =>
         dict_comp_r fst (fun '(name, path_) => listdir path_ fs) windir)
      dirtree in
  let* exists_ :=
    dict_comp_r (fun win => win)
      (fun win =>
         let* cat_files :=
           (let* f := getitem files win in getitem f "catalog") in
         let* evals :=
           dict_comp_r (fun test => test)
             (fun test =>
                dict_comp_r (fun model => model)
                  (fun model =>
                     let* eval_files :=
                       (let* f := getitem files win in
                        getitem f "evaluations") in
                     Ok (existsb (str_in (result_file test model))
                           eval_files))
                  models_)
             tests_ in
         Ok (mkWindowExists false (any_truthy cat_files) evals))
      windows in
  let* target_paths :=
    dict_comp_r (fun win => win)
      (fun win =>
         let forecasts_ := dict_comp (fun m => m) (fun m => m) models_ in
         let* figs_m :=
           dict_comp_r (fun model => model)
             (fun model =>
                let* d := oget dirtree win in
                let* figdir := oget d "figures" in
                Ok (join [figdir; model]))
             models_ in
         let* cat :=
           (let* d := oget dirtree win in
            let* catdir := oget d "catalog" in
            Ok (join [catdir; "catalog.json"])) in
         let* evals :=
           dict_comp_r (fun test => test)
             (fun test =>
                dict_comp_r (fun model => model)
                  (fun model =>
                     let* d := oget dirtree win in
                     let* evaldir := oget d "evaluations" in
                     Ok (join [evaldir; result_file test model]))
                  models_)
             tests_ in
         let* figs :=
           dict_comp_r (fun test => test)
             (fun test =>
                let* d := oget dirtree win in
                let* figdir := oget d "figures" in
                Ok (join [figdir; test]))
             tests_ in
         Ok (mkWindowPaths forecasts_ figs_m cat evals figs))
      windows in
  Ok (exists_, target_paths).

(** [Experiment.prepare_paths(results_path, run_name)], on the experiment
    and the file system.  The attributes are assigned at the end, as
    [set_paths]; what an exception leaves half-assigned is not kept. *)
Definition prepare_paths (results_path run_name : option string)
    (w : Experiment * FS) : result (Experiment * FS) :=
  let '(exp, fs) := w in
  let windows := map timewindow2str (timewindows exp) in
  let models_ := map model_name (models exp) in
  let tests_ := map test_name (tests exp) in
  let run_name := match run_name with None => "run" | Some n => n end in
  let run_folder_ :=
    snd (_abspath exp [or_default results_path "results"; run_name]) in
  let dirtree :=
    odict_comp (fun win => win)
      (fun win =>
         odict_comp (fun folder => folder)
           (fun folder => snd (_abspath exp [run_folder_; win; folder]))
           subfolders)
      windows in
  (* create directories if they don't exist *)
  let* fs := make_tree dirtree fs in
  let* '(exists_, target_paths) :=
    read_tree dirtree windows models_ tests_ fs in
  Ok (set_paths exp run_folder_ target_paths exists_, fs).

(** [self._paths[time_str]['catalog']] *)
Definition catalog_path (exp : Experiment) (time_str : string)
  : result string :=
  let* w := getitem (_paths exp) time_str in
  Ok (catalog w).

(** [self._paths[time_str]['evaluations'][test][model]] *)
Definition evaluation_path (exp : Experiment) (time_str test model : string)
  : result string :=
  let* w := getitem (_paths exp) time_str in
  let* by_model := getitem (evaluations w) test in
  getitem by_model model.

(** [Experiment.prepare_tasks]: the loops of the source, with [tasks] the
    list being appended to. *)
Definition prepare_tasks (exp : Experiment) : result Experiment :=
  let tasks := [] in
  let* tasks :=
    for_ (timewindows exp)
      (fun time_i tasks =>
         let time_str := timewindow2str time_i in
         let task_i :=
           mkTask OnExperiment "prepare_subcatalog"
             [("tstring", VStr time_str)] in
         let tasks := tasks ++ [task_i] in
         (* Consistency Tests *)
         let* tasks :=
           for_ (models exp)
             (fun model_j tasks =>
                let task_ij :=
                  mkTask (OnModel model_j) "create_forecast"
                    [("tstring", VStr time_str)] in
                let tasks := tasks ++ [task_ij] in
                for_ (tests exp)
                  (fun test_k tasks =>
                     if has_tag "Discrete" test_k
                        && has_tag "Absolute" test_k
                     then
                       let* catalog_ := catalog_path exp time_str in
                       let* path_ :=
                         evaluation_path exp time_str (test_name test_k)
                           (model_name model_j) in
                       let task_ijk :=
                         mkTask (OnEvaluation test_k) "compute"
                           [("timewindow", VStr time_str);
                            ("catalog", VStr catalog_);
                            ("model", VModel model_j);
                            ("path", VStr path_)] in
                       Ok (tasks ++ [task_ijk])
                     else Ok tasks)
                  tasks)
             tasks in
         (* Comparative Tests *)
         for_ (tests exp)
           (fun test_k tasks =>
              if has_tag "Discrete" test_k && has_tag "Comparative" test_k
              then
                for_ (models exp)
                  (fun model_j tasks =>
                     let* catalog_ := catalog_path exp time_str in
                     let ref_model_ :=
                       get_model exp (test_ref_model test_k) in
                     let* path_ :=
                       evaluation_path exp time_str (test_name test_k)
                         (model_name model_j) in
                     let task_ik :=
                       mkTask (OnEvaluation test_k) "compute"
                         [("timewindow", VStr time_str);
                          ("catalog", VStr catalog_);
                          ("model", VModel model_j);
                          ("ref_model", value_of_model ref_model_);
                          ("path", VStr path_)] in
                     Ok (tasks ++ [task_ik]))
                  tasks
              else Ok tasks)
           tasks)
      tasks in
  let* tasks :=
    for_ (tests exp)
      (fun test_k tasks =>
         if has_tag "Sequential" test_k then
           if has_tag "Absolute" test_k then
             let timestrs := map timewindow2str (timewindows exp) in
             for_ (models exp)
               (fun model_j tasks =>
                  let* catalogs := list_comp (catalog_path exp) timestrs in
                  let* last_ := last_item timestrs in
                  let* path_ :=
                    evaluation_path exp last_ (test_name test_k)
                      (model_name model_j) in
                  let task_k :=
                    mkTask (OnEvaluation test_k) "compute"
                      [("timewindow", VStrs timestrs);
                       ("catalog", VStrs catalogs);
                       ("model", VModel model_j);
                       ("path", VStr path_)] in
                  Ok (tasks ++ [task_k]))
               tasks
           else if has_tag "Comparative" test_k then
             let timestrs := map timewindow2str (timewindows exp) in
             for_ (models exp)
               (fun model_j tasks =>
                  let* catalogs := list_comp (catalog_path exp) timestrs in
                  let ref_model_ := get_model exp (test_ref_model test_k) in
                  let* last_ := last_item timestrs in
                  let* path_ :=
                    evaluation_path exp last_ (test_name test_k)
                      (model_name model_j) in
                  let task_k :=
                    mkTask (OnEvaluation test_k) "compute"
                      [("timewindow", VStrs timestrs);
                       ("catalog", VStrs catalogs);
                       ("model", VModel model_j);
                       ("ref_model", value_of_model ref_model_);
                       ("path", VStr path_)] in
                  Ok (tasks ++ [task_k]))
               tasks
           else Ok tasks
         else if has_tag "Discrete" test_k && has_tag "Batch" test_k then
           let* last_window := last_item (timewindows exp) in
           let timestr := timewindow2str last_window in
           for_ (models exp)
             (fun model_j tasks =>
                let* catalog_ := catalog_path exp timestr in
                let* path_ :=
                  evaluation_path exp timestr (test_name test_k)
                    (model_name model_j) in
                let task_k :=
                  mkTask (OnEvaluation test_k) "compute"
                    [("timewindow", VStr timestr);
                     ("catalog", VStr catalog_);
                     ("ref_model", VModels (models exp));
                     ("model", VModel model_j);
                     ("path", VStr path_)] in
                Ok (tasks ++ [task_k]))
             tasks
         else Ok tasks)
      tasks in
  Ok (set_tasks exp tasks).

(** *** The schedule in closed form

    The task list as the specification describes it: one block per time
    window, then one block per evaluation.  The paths are read from
    [self._paths] with a default where the key is missing. *)

Definition catalog_of (exp : Experiment) (time_str : string) : string :=
  match catalog_path exp time_str with
  | Ok p => p
  | Raise _ => ""
  end.

Definition evaluation_of (exp : Experiment) (time_str test model : string)
  : string :=
  match evaluation_path exp time_str test model with
  | Ok p => p
  | Raise _ => ""
  end.

Definition is_discrete_absolute (t : Evaluation) : bool :=
  has_tag "Discrete" t && has_tag "Absolute" t.

Definition is_discrete_comparative (t : Evaluation) : bool :=
  has_tag "Discrete" t && has_tag "Comparative" t.

Definition subcatalog_task (time_str : string) : Task :=
  mkTask OnExperiment "prepare_subcatalog" [("tstring", VStr time_str)].

Definition forecast_task (time_str : string) (m : Model) : Task :=
  mkTask (OnModel m) "create_forecast" [("tstring", VStr time_str)].

Definition absolute_task (exp : Experiment) (time_str : string) (m : Model)
    (t : Evaluation) : Task :=
  mkTask (OnEvaluation t) "compute"
    [("timewindow", VStr time_str);
     ("catalog", VStr (catalog_of exp time_str));
     ("model", VModel m);
     ("path", VStr (evaluation_of exp time_str (test_name t) (model_name m)))].

Definition comparative_task (exp : Experiment) (time_str : string)
    (t : Evaluation) (m : Model) : Task :=
  mkTask (OnEvaluation t) "compute"
    [("timewindow", VStr time_str);
     ("catalog", VStr (catalog_of exp time_str));
     ("model", VModel m);
     ("ref_model", value_of_model (get_model exp (test_ref_model t)));
     ("path", VStr (evaluation_of exp time_str (test_name t) (model_name m)))].

Definition sequential_absolute_task (exp : Experiment) (t : Evaluation)
    (m : Model) : Task :=
  let timestrs := map timewindow2str (timewindows exp) in
  mkTask (OnEvaluation t) "compute"
    [("timewindow", VStrs timestrs);
     ("catalog", VStrs (map (catalog_of exp) timestrs));
     ("model", VModel m);
     ("path", VStr (evaluation_of exp (default "" (last timestrs))
                      (test_name t) (model_name m)))].

Definition sequential_comparative_task (exp : Experiment) (t : Evaluation)
    (m : Model) : Task :=
  let timestrs := map timewindow2str (timewindows exp) in
  mkTask (OnEvaluation t) "compute"
    [("timewindow", VStrs timestrs);
     ("catalog", VStrs (map (catalog_of exp) timestrs));
     ("model", VModel m);
     ("ref_model", value_of_model (get_model exp (test_ref_model t)));
     ("path", VStr (evaluation_of exp (default "" (last timestrs))
                      (test_name t) (model_name m)))].

Definition batch_task (exp : Experiment) (t : Evaluation) (m : Model)
  : Task :=
  let timestr :=
    default "" (last (map timewindow2str (timewindows exp))) in
  mkTask (OnEvaluation t) "compute"
    [("timewindow", VStr timestr);
     ("catalog", VStr (catalog_of exp timestr));
     ("ref_model", VModels (models exp));
     ("model", VModel m);
     ("path", VStr (evaluation_of exp timestr (test_name t) (model_name m)))].

(** The forecast of one (window, model) pair, then its Discrete-Absolute
    evaluations. *)
Definition model_block (exp : Experiment) (time_str : string) (m : Model)
  : list Task :=
  forecast_task time_str m
  :: map (absolute_task exp time_str m)
       (filter (fun t => is_discrete_absolute t = true) (tests exp)).

(** The Discrete-Comparative evaluations of one window. *)
Definition comparative_block (exp : Experiment) (time_str : string)
  : list Task :=
  flat_map (fun t => map (comparative_task exp time_str t) (models exp))
    (filter (fun t => is_discrete_comparative t = true) (tests exp)).

Definition window_block (exp : Experiment) (w : timewindow) : list Task :=
  let time_str := timewindow2str w in
  subcatalog_task time_str
  :: flat_map (model_block exp time_str) (models exp)
  ++ comparative_block exp time_str.

(** The tasks one evaluation contributes after the windows. *)
Definition closing_block (exp : Experiment) (t : Evaluation) : list Task :=
  if has_tag "Sequential" t then
    if has_tag "Absolute" t then
      map (sequential_absolute_task exp t) (models exp)
    else if has_tag "Comparative" t then
      map (sequential_comparative_task exp t) (models exp)
    else []
  else if has_tag "Discrete" t && has_tag "Batch" t then
    map (batch_task exp t) (models exp)
  else [].

Definition schedule (exp : Experiment) : list Task :=
  flat_map (window_block exp) (timewindows exp)
  ++ flat_map (closing_block exp) (tests exp).

(** Every path that [prepare_tasks] reads is present in [self._paths]. *)
Definition paths_ready (exp : Experiment) : bool :=
  forallb
    (fun w =>
       match _paths exp !! timewindow2str w with
       | Some wp =>
           forallb
             (fun t =>
                match evaluations wp !! test_name t with
                | Some by_model =>
                    forallb
                      (fun m =>
                         bool_decide (is_Some (by_model !! model_name m)))
                      (models exp)
                | None => false
                end)
             (tests exp)
       | None => false
       end)
    (timewindows exp).

(** The type tag is drawn from {Discrete, Sequential} x {Absolute,
    Comparative, Batch}: exactly one tag of each family occurs in it. *)
Definition well_tagged (t : Evaluation) : bool :=
  xorb (has_tag "Discrete" t) (has_tag "Sequential" t)
  && (let a := has_tag "Absolute" t in
      let c := has_tag "Comparative" t in
      let b := has_tag "Batch" t in
      (a && negb c && negb b) || (negb a && c && negb b)
      || (negb a && negb c && b)).

(** A task that computes a Discrete-Absolute evaluation. *)
Definition discrete_absolute_compute (task : Task) : bool :=
  String.eqb (method task) "compute"
  && match instance task with
     | OnEvaluation t => has_tag "Discrete" t && has_tag "Absolute" t
     | _ => false
     end.

(** *** The loops compute the closed form *)

Lemma catalog_path_ready (exp : Experiment) (w : timewindow) :
  paths_ready exp = true -> In w (timewindows exp) ->
  catalog_path exp (timewindow2str w)
  = Ok (catalog_of exp (timewindow2str w)).
Proof.
  intros Hready Hw. unfold paths_ready in Hready.
  rewrite forallb_forall in Hready. specialize (Hready w Hw).
  unfold catalog_of, catalog_path, getitem.
  destruct (_paths exp !! timewindow2str w); [done|discriminate].
Qed.

Lemma evaluation_path_ready (exp : Experiment) (w : timewindow)
    (t : Evaluation) (m : Model) :
  paths_ready exp = true ->
  In w (timewindows exp) -> In t (tests exp) -> In m (models exp) ->
  evaluation_path exp (timewindow2str w) (test_name t) (model_name m)
  = Ok (evaluation_of exp (timewindow2str w) (test_name t) (model_name m)).
Proof.
  intros Hready Hw Ht Hm. unfold paths_ready in Hready.
  rewrite forallb_forall in Hready. specialize (Hready w Hw).
  unfold evaluation_of, evaluation_path, getitem.
  destruct (_paths exp !! timewindow2str w) as [wp|]; [simpl|discriminate].
  rewrite forallb_forall in Hready. specialize (Hready t Ht).
  destruct (evaluations wp !! test_name t) as [bm|]; [simpl|discriminate].
  rewrite forallb_forall in Hready. specialize (Hready m Hm).
  apply bool_decide_eq_true in Hready. destruct Hready as [p Hp].
  by rewrite Hp.
Qed.

Lemma last_In {A} (l : list A) (x : A) : last l = Some x -> In x l.
Proof.
  induction l as [|y l IH]; [discriminate|].
  destruct l as [|z l]; simpl in *.
  - intros [= ->]. by left.
  - intros H. right. by apply IH.
Qed.

Lemma last_map {A B} (f : A -> B) (l : list A) :
  last (map f l) = f <$> last l.
Proof.
  induction l as [|y l IH]; [done|].
  destruct l as [|z l]; [done|]. exact IH.
Qed.

Lemma last_nonempty {A} (l : list A) : l <> [] -> exists x, last l = Some x.
Proof.
  induction l as [|y l IH]; [done|]. intros _.
  destruct l as [|z l]; [by exists y|]. apply IH. discriminate.
Qed.

(** With the paths prepared and at least one time window, the loops of
    [prepare_tasks] raise nothing and store the closed-form schedule. *)
Lemma prepare_tasks_schedule (exp : Experiment) :
  paths_ready exp = true -> timewindows exp <> [] ->
  prepare_tasks exp = Ok (set_tasks exp (schedule exp)).
Proof.
  intros Hready Hne. unfold prepare_tasks.
  rewrite (for_emit _ _ (window_block exp)).
  2:{ intros w acc Hw.
      rewrite (for_emit _ _ (model_block exp (timewindow2str w))).
      2:{ intros m acc' Hm.
          rewrite (for_emit _ _
                     (fun t => if is_discrete_absolute t
                               then [absolute_task exp (timewindow2str w) m t]
                               else [])).
          - unfold model_block.
            rewrite flat_map_filter_map, <- app_assoc. done.
          - intros t acc'' Ht. unfold is_discrete_absolute.
            destruct (has_tag "Discrete" t && has_tag "Absolute" t).
            + rewrite catalog_path_ready, (evaluation_path_ready exp w t m)
                by done. done.
            + by rewrite app_nil_r. }
      simpl.
      rewrite (for_emit _ _
                 (fun t => if is_discrete_comparative t
                           then map (comparative_task exp (timewindow2str w) t)
                                  (models exp)
                           else [])).
      - unfold window_block, comparative_block.
        rewrite flat_map_filter. simpl.
        rewrite <- !app_assoc. done.
      - intros t acc' Ht. unfold is_discrete_comparative.
        destruct (has_tag "Discrete" t && has_tag "Comparative" t).
        + rewrite (for_emit _ _
                     (fun m => [comparative_task exp (timewindow2str w) t m])).
          * by rewrite flat_map_singleton.
          * intros m acc'' Hm.
            rewrite catalog_path_ready, (evaluation_path_ready exp w t m)
              by done. done.
        + by rewrite app_nil_r. }
  simpl.
  destruct (last_nonempty _ Hne) as [wl Hwl].
  assert (Hin : In wl (timewindows exp)) by by apply last_In.
  assert (Hlast : last (map timewindow2str (timewindows exp))
                  = Some (timewindow2str wl)) by by rewrite last_map, Hwl.
  assert (Hcats : list_comp (catalog_path exp)
                    (map timewindow2str (timewindows exp))
                  = Ok (map (catalog_of exp)
                          (map timewindow2str (timewindows exp)))).
  { apply list_comp_ok. intros x Hx. apply in_map_iff in Hx.
    destruct Hx as (w & <- & Hw). by apply catalog_path_ready. }
  rewrite (for_emit _ _ (closing_block exp)); [done|].
  intros t acc Ht. unfold closing_block.
  destruct (has_tag "Sequential" t).
  - destruct (has_tag "Absolute" t); [|destruct (has_tag "Comparative" t)].
    + rewrite (for_emit _ _ (fun m => [sequential_absolute_task exp t m])).
      * by rewrite flat_map_singleton.
      * intros m acc' Hm. rewrite Hcats. simpl.
        unfold last_item. rewrite Hlast. simpl.
        rewrite (evaluation_path_ready exp wl t m) by done. simpl.
        unfold sequential_absolute_task. by rewrite Hlast.
    + rewrite (for_emit _ _ (fun m => [sequential_comparative_task exp t m])).
      * by rewrite flat_map_singleton.
      * intros m acc' Hm. rewrite Hcats. simpl.
        unfold last_item. rewrite Hlast. simpl.
        rewrite (evaluation_path_ready exp wl t m) by done. simpl.
        unfold sequential_comparative_task. by rewrite Hlast.
    + by rewrite app_nil_r.
  - destruct (has_tag "Discrete" t && has_tag "Batch" t).
    + unfold last_item. rewrite Hwl. simpl.
      rewrite (for_emit _ _ (fun m => [batch_task exp t m])).
      * by rewrite flat_map_singleton.
      * intros m acc' Hm.
        rewrite catalog_path_ready, (evaluation_path_ready exp wl t m)
          by done. simpl.
        unfold batch_task. by rewrite Hlast.
    + by rewrite app_nil_r.
Qed.

(** *** What [prepare_paths] stores *)

(** The directory of one kind of artifact of one window. *)
Definition window_dir (exp : Experiment) (run_folder_ win folder : string)
  : string :=
  snd (_abspath exp [run_folder_; win; folder]).

Definition the_dirtree (exp : Experiment) (run_folder_ : string)
  : odict (odict string) :=
  odict_comp (fun win => win)
    (fun win =>
       odict_comp (fun folder => folder)
         (fun folder => snd (_abspath exp [run_folder_; win; folder]))
         subfolders)
    (map timewindow2str (timewindows exp)).

Definition the_windir (exp : Experiment) (run_folder_ win : string)
  : odict string :=
  odict_comp (fun folder => folder)
    (fun folder => snd (_abspath exp [run_folder_; win; folder])) subfolders.

Lemma dirtree_window (exp : Experiment) (rf win : string) :
  In win (map timewindow2str (timewindows exp)) ->
  oget (the_dirtree exp rf) win = Ok (the_windir exp rf win).
Proof. intros Hwin. unfold the_dirtree. by rewrite oget_odict_comp. Qed.

Lemma windir_folder (exp : Experiment) (rf win folder : string) :
  In folder subfolders ->
  oget (the_windir exp rf win) folder = Ok (window_dir exp rf win folder).
Proof. intros Hf. unfold the_windir. by rewrite oget_odict_comp. Qed.

Lemma prepare_paths_inv (rp rn : option string) (exp exp' : Experiment)
    (fs fs' : FS) :
  prepare_paths rp rn (exp, fs) = Ok (exp', fs') ->
  exists ex tp,
    make_tree (the_dirtree exp (run_folder exp')) fs = Ok fs'
    /\ read_tree (the_dirtree exp (run_folder exp'))
         (map timewindow2str (timewindows exp))
         (map model_name (models exp)) (map test_name (tests exp)) fs'
       = Ok (ex, tp)
    /\ exp' = set_paths exp (run_folder exp') tp ex.
Proof.
  unfold prepare_paths. intros H. bind_inv H.
  destruct a0 as [ex tp]. injection H as <- <-.
  exists ex, tp. simpl. done.
Qed.

Lemma read_tree_paths (exp : Experiment) (rf : string) (fs : FS)
    (ex : gmap string WindowExists) (tp : gmap string WindowPaths)
    (w : timewindow) :
  read_tree (the_dirtree exp rf) (map timewindow2str (timewindows exp))
    (map model_name (models exp)) (map test_name (tests exp)) fs
  = Ok (ex, tp) ->
  In w (timewindows exp) ->
  exists wp,
    tp !! timewindow2str w = Some wp
    /\ catalog wp
       = join [window_dir exp rf (timewindow2str w) "catalog"; "catalog.json"]
    /\ forall t, In t (tests exp) ->
         exists by_model,
           evaluations wp !! test_name t = Some by_model
           /\ forall m, In m (models exp) ->
                by_model !! model_name m
                = Some (join [window_dir exp rf (timewindow2str w)
                                "evaluations";
                              result_file (test_name t) (model_name m)]).
Proof.
  intros Hread Hw. unfold read_tree in Hread. bind_inv Hread.
  injection Hread as _ <-.
  assert (Hwin : In (timewindow2str w) (map timewindow2str (timewindows exp)))
    by by apply in_map.
  unfold dict_comp_r in E1.
  destruct (dict_comp_r_lookup _ _ _ _ E1 Hwin) as (wp & Hval & Hlook).
  exists wp. split; [done|]. cbn beta in Hval.
  match type of Hval with
  | rbind ?c _ = Ok _ => destruct c as [figs_m|]; [|discriminate]
  end.
  cbn [rbind] in Hval.
  rewrite dirtree_window in Hval by done. cbn [rbind] in Hval.
  rewrite windir_folder in Hval by (cbn; tauto). cbn [rbind] in Hval.
  bind_inv Hval. injection Hval as <-. simpl.
  split; [done|]. intros t Ht.
  assert (Htn : In (test_name t) (map test_name (tests exp)))
    by by apply in_map.
  unfold dict_comp_r in E2.
  destruct (dict_comp_r_lookup _ _ _ _ E2 Htn) as (bm & Hbm & Hlt).
  exists bm. split; [done|]. cbn beta in Hbm. intros m Hm.
  assert (Hmn : In (model_name m) (map model_name (models exp)))
    by by apply in_map.
  destruct (dict_comp_r_lookup _ _ _ _ Hbm Hmn) as (p & Hp & Hlm).
  cbn beta in Hp.
  rewrite windir_folder in Hp by (cbn; tauto). cbn [rbind] in Hp.
  injection Hp as <-. done.
Qed.

Lemma prepare_paths_fields (rp rn : option string) (exp exp' : Experiment)
    (fs fs' : FS) :
  prepare_paths rp rn (exp, fs) = Ok (exp', fs') ->
  path exp' = path exp /\ timewindows exp' = timewindows exp
  /\ models exp' = models exp /\ tests exp' = tests exp
  /\ tasks exp' = tasks exp
  /\ run_folder exp'
     = snd (_abspath exp [or_default rp "results";
                          match rn with None => "run" | Some n => n end]).
Proof.
  unfold prepare_paths. intros H. bind_inv H.
  destruct a0 as [ex tp]. injection H as <- <-. done.
Qed.

Lemma prepare_paths_catalog (rp rn : option string) (exp exp' : Experiment)
    (fs fs' : FS) (w : timewindow) :
  prepare_paths rp rn (exp, fs) = Ok (exp', fs') ->
  In w (timewindows exp) ->
  catalog_path exp' (timewindow2str w)
  = Ok (join [window_dir exp (run_folder exp') (timewindow2str w) "catalog";
              "catalog.json"]).
Proof.
  intros Hprep Hw.
  destruct (prepare_paths_inv _ _ _ _ _ _ Hprep) as (ex & tp & _ & Hread & ->).
  destruct (read_tree_paths _ _ _ _ _ w Hread Hw) as (wp & Hwp & Hcat & _).
  unfold catalog_path, getitem. simpl. rewrite Hwp. simpl. by rewrite Hcat.
Qed.

Lemma prepare_paths_evaluation (rp rn : option string)
    (exp exp' : Experiment) (fs fs' : FS) (w : timewindow) (t : Evaluation)
    (m : Model) :
  prepare_paths rp rn (exp, fs) = Ok (exp', fs') ->
  In w (timewindows exp) -> In t (tests exp) -> In m (models exp) ->
  evaluation_path exp' (timewindow2str w) (test_name t) (model_name m)
  = Ok (join [window_dir exp (run_folder exp') (timewindow2str w)
                "evaluations";
              result_file (test_name t) (model_name m)]).
Proof.
  intros Hprep Hw Ht Hm.
  destruct (prepare_paths_inv _ _ _ _ _ _ Hprep) as (ex & tp & _ & Hread & ->).
  destruct (read_tree_paths _ _ _ _ _ w Hread Hw) as (wp & Hwp & _ & Hev).
  destruct (Hev t Ht) as (bm & Hbm & Hp).
  unfold evaluation_path, getitem. simpl. rewrite Hwp. simpl.
  rewrite Hbm. simpl. by rewrite (Hp m Hm).
Qed.

(** [prepare_paths] stores every path that [prepare_tasks] reads. *)
Lemma prepare_paths_ready (rp rn : option string) (exp exp' : Experiment)
    (fs fs' : FS) :
  prepare_paths rp rn (exp, fs) = Ok (exp', fs') -> paths_ready exp' = true.
Proof.
  intros Hprep.
  destruct (prepare_paths_fields _ _ _ _ _ _ Hprep)
    as (_ & Htw & Hms & Hts & _).
  unfold paths_ready. rewrite Htw, Hms, Hts.
  apply forallb_forall. intros w Hw.
  destruct (prepare_paths_inv _ _ _ _ _ _ Hprep) as (ex & tp & _ & Hread & ->).
  destruct (read_tree_paths _ _ _ _ _ w Hread Hw) as (wp & Hwp & _ & Hev).
  simpl. rewrite Hwp. apply forallb_forall. intros t Ht.
  destruct (Hev t Ht) as (bm & -> & Hp).
  apply forallb_forall. intros m Hm. apply bool_decide_eq_true.
  rewrite (Hp m Hm). by eexists.
Qed.

(** Calling [prepare_paths] again with the same arguments leaves the
    experiment and the file system as the first call left them. *)
Lemma prepare_paths_idempotent (rp rn : option string)
    (exp exp' : Experiment) (fs fs' : FS) :
  prepare_paths rp rn (exp, fs) = Ok (exp', fs') ->
  prepare_paths rp rn (exp', fs') = Ok (exp', fs').
Proof.
  intros Hprep.
  destruct (prepare_paths_fields _ _ _ _ _ _ Hprep)
    as (Hp & Htw & Hms & Hts & Hta & Hrf).
  destruct (prepare_paths_inv _ _ _ _ _ _ Hprep) as (ex & tp & Hmk & Hread & Heq).
  unfold prepare_paths.
  assert (Habs : _abspath exp' = _abspath exp)
    by (unfold _abspath; by rewrite Hp).
  rewrite Habs, Htw, Hms, Hts, <- Hrf.
  fold (the_dirtree exp (run_folder exp')).
  rewrite (make_tree_idempotent _ _ _ Hmk). cbn [rbind].
  rewrite Hread. cbn [rbind].
  clear -Heq. destruct exp'. unfold set_paths in *. simpl in *.
  injection Heq as _ _ _ _ _ -> ->. done.
Qed.


(** The experiment has been through [prepare_paths]. *)
Definition prepared (exp : Experiment) : Prop :=
  exists rp rn exp0 fs0 fs, prepare_paths rp rn (exp0, fs0) = Ok (exp, fs).

(** [<run folder>/<window>/catalog/catalog.json] *)
Definition catalog_file (exp : Experiment) (win : string) : string :=
  join [window_dir exp (run_folder exp) win "catalog"; "catalog.json"].

(** [<run folder>/<window>/evaluations/<test>_<model>.json] *)
Definition evaluation_file (exp : Experiment) (win test model : string)
  : string :=
  join [window_dir exp (run_folder exp) win "evaluations";
        result_file test model].

Lemma window_dir_ext (exp exp' : Experiment) :
  path exp' = path exp -> window_dir exp' = window_dir exp.
Proof. intros H. unfold window_dir, _abspath. by rewrite H. Qed.

Lemma prepared_ready (exp : Experiment) :
  prepared exp -> paths_ready exp = true.
Proof. intros (rp & rn & exp0 & fs0 & fs & H). by eapply prepare_paths_ready. Qed.

Lemma prepared_catalog_of (exp : Experiment) (w : timewindow) :
  prepared exp -> In w (timewindows exp) ->
  catalog_of exp (timewindow2str w) = catalog_file exp (timewindow2str w).
Proof.
  intros (rp & rn & exp0 & fs0 & fs & H) Hw.
  destruct (prepare_paths_fields _ _ _ _ _ _ H) as (Hp & Htw & _).
  rewrite Htw in Hw. unfold catalog_of, catalog_file.
  rewrite (prepare_paths_catalog _ _ _ _ _ _ w H Hw).
  by rewrite (window_dir_ext exp0 exp Hp).
Qed.

Lemma prepared_evaluation_of (exp : Experiment) (w : timewindow)
    (t : Evaluation) (m : Model) :
  prepared exp ->
  In w (timewindows exp) -> In t (tests exp) -> In m (models exp) ->
  evaluation_of exp (timewindow2str w) (test_name t) (model_name m)
  = evaluation_file exp (timewindow2str w) (test_name t) (model_name m).
Proof.
  intros (rp & rn & exp0 & fs0 & fs & H) Hw Ht Hm.
  destruct (prepare_paths_fields _ _ _ _ _ _ H) as (Hp & Htw & Hms & Hts & _).
  rewrite Htw in Hw. rewrite Hts in Ht. rewrite Hms in Hm.
  unfold evaluation_of, evaluation_file.
  rewrite (prepare_paths_evaluation _ _ _ _ _ _ w t m H Hw Ht Hm).
  by rewrite (window_dir_ext exp0 exp Hp).
Qed.

(** *** Counting the Discrete-Absolute tasks *)

Lemma well_tagged_comparative_not_absolute (t : Evaluation) :
  well_tagged t = true -> has_tag "Comparative" t = true ->
  has_tag "Absolute" t = false.
Proof.
  unfold well_tagged. intros H Hc. rewrite Hc in H.
  destruct (has_tag "Absolute" t); [|done].
  destruct (xorb _ _), (has_tag "Batch" t); discriminate.
Qed.

Lemma well_tagged_batch_not_absolute (t : Evaluation) :
  well_tagged t = true -> has_tag "Batch" t = true ->
  has_tag "Absolute" t = false.
Proof.
  unfold well_tagged. intros H Hb. rewrite Hb in H.
  destruct (has_tag "Absolute" t); [|done].
  destruct (xorb _ _), (has_tag "Comparative" t); discriminate.
Qed.

Lemma well_tagged_sequential_not_discrete (t : Evaluation) :
  well_tagged t = true -> has_tag "Sequential" t = true ->
  has_tag "Discrete" t = false.
Proof.
  unfold well_tagged. intros H Hs. rewrite Hs in H.
  destruct (has_tag "Discrete" t); [|done]. discriminate.
Qed.

Lemma well_tagged_discrete_not_sequential (t : Evaluation) :
  well_tagged t = true -> has_tag "Discrete" t = true ->
  has_tag "Sequential" t = false.
Proof.
  unfold well_tagged. intros H Hd. rewrite Hd in H.
  destruct (has_tag "Sequential" t); [|done]. discriminate.
Qed.

Lemma In_filter_bool {A} (P : A -> bool) (l : list A) (x : A) :
  In x (filter (fun y => P y = true) l) <-> In x l /\ P x = true.
Proof.
  rewrite <- !list_elem_of_In, list_elem_of_filter. tauto.
Qed.

Lemma length_filter_bool {A} (P : A -> bool) (l : list A) :
  length (filter (fun y => P y = true) l) = count P l.
Proof.
  unfold count. induction l as [|x l IH]; [done|].
  rewrite filter_cons. simpl.
  destruct (decide (P x = true)) as [H|H];
    [|apply not_true_is_false in H]; rewrite H; simpl; by rewrite IH.
Qed.

Lemma count_model_block (exp : Experiment) (time_str : string) (m : Model) :
  count discrete_absolute_compute (model_block exp time_str m)
  = count is_discrete_absolute (tests exp).
Proof.
  unfold model_block. change (?x :: ?l) with ([x] ++ l).
  rewrite count_app. rewrite (count_none _ [_]) by (by intros x [<-|[]]).
  rewrite count_all.
  - by rewrite length_map, length_filter_bool.
  - intros task Hin. apply in_map_iff in Hin as (t & <- & Ht).
    apply In_filter_bool in Ht as [_ Ht]. exact Ht.
Qed.

Lemma count_comparative_block (exp : Experiment) (time_str : string) :
  forallb well_tagged (tests exp) = true ->
  count discrete_absolute_compute (comparative_block exp time_str) = 0.
Proof.
  intros Hwt. rewrite forallb_forall in Hwt.
  apply count_none. intros task Hin. unfold comparative_block in Hin.
  apply in_flat_map in Hin as (t & Ht & Hin).
  apply In_filter_bool in Ht as [Ht Hdc].
  apply in_map_iff in Hin as (m & <- & _).
  unfold is_discrete_comparative in Hdc. apply andb_true_iff in Hdc as [_ Hc].
  unfold discrete_absolute_compute. simpl.
  by rewrite (well_tagged_comparative_not_absolute t (Hwt t Ht) Hc), andb_false_r.
Qed.

Lemma count_closing_block (exp : Experiment) (t : Evaluation) :
  well_tagged t = true ->
  count discrete_absolute_compute (closing_block exp t) = 0.
Proof.
  intros Hwt. apply count_none. intros task. unfold closing_block.
  destruct (has_tag "Sequential" t) eqn:Hs.
  - pose proof (well_tagged_sequential_not_discrete t Hwt Hs) as Hd.
    destruct (has_tag "Absolute" t); [|destruct (has_tag "Comparative" t)];
      [| |done]; intros Hin; apply in_map_iff in Hin as (m & <- & _);
      unfold discrete_absolute_compute; simpl; by rewrite Hd.
  - destruct (has_tag "Discrete" t && has_tag "Batch" t) eqn:Hdb; [|done].
    apply andb_true_iff in Hdb as [_ Hb].
    intros Hin. apply in_map_iff in Hin as (m & <- & _).
    unfold discrete_absolute_compute. simpl.
    by rewrite (well_tagged_batch_not_absolute t Hwt Hb), andb_false_r.
Qed.

Lemma count_schedule (exp : Experiment) :
  forallb well_tagged (tests exp) = true ->
  count discrete_absolute_compute (schedule exp)
  = length (timewindows exp) * length (models exp)
    * count is_discrete_absolute (tests exp).
Proof.
  intros Hwt. unfold schedule. rewrite count_app.
  rewrite (count_flat_map_const _ _ _
             (length (models exp) * count is_discrete_absolute (tests exp))).
  - rewrite (count_flat_map_const _ _ _ 0).
    + lia.
    + intros t Ht. apply count_closing_block.
      rewrite forallb_forall in Hwt. by apply Hwt.
  - intros w _. unfold window_block.
    change (?x :: ?l) with ([x] ++ l). rewrite !count_app.
    rewrite (count_none _ [_]) by (by intros x [<-|[]]).
    rewrite count_comparative_block by done.
    rewrite (count_flat_map_const _ _ _
               (count is_discrete_absolute (tests exp)))
      by (intros; apply count_model_block).
    lia.
Qed.

(** C4. For every configuration whose paths are prepared, with at least one
    time window and type tags drawn from {Discrete, Sequential} x {Absolute,
    Comparative, Batch}, [prepare_tasks] returns, and the task list holds
    exactly |timewindows| x |models| x |Discrete-Absolute tests| tasks whose
    method is 'compute' and whose evaluation type contains both 'Discrete'
    and 'Absolute'. *)
Theorem prepare_tasks_discrete_absolute_count (exp : Experiment) :
  paths_ready exp = true ->
  timewindows exp <> [] ->
  forallb well_tagged (tests exp) = true ->
  exists exp',
    prepare_tasks exp = Ok exp'
    /\ count discrete_absolute_compute (tasks exp')
       = length (timewindows exp) * length (models exp)
         * count is_discrete_absolute (tests exp).
Proof.
  intros Hready Hne Hwt. eexists. split.
  - by apply prepare_tasks_schedule.
  - simpl. by apply count_schedule.
Qed.

(** *** The order of the tasks *)

Lemma filter_bool_cons {A} (P : A -> bool) (x : A) (l : list A) :
  filter (fun y => P y = true) (x :: l)
  = if P x then x :: filter (fun y => P y = true) l
    else filter (fun y => P y = true) l.
Proof.
  rewrite filter_cons.
  destruct (decide (P x = true)) as [H|H];
    [|apply not_true_is_false in H]; by rewrite H.
Qed.

Lemma comparative_block_tasks (exp : Experiment) (time_str : string)
    (task : Task) :
  In task (comparative_block exp time_str) ->
  method task = "compute"
  /\ exists t, instance task = OnEvaluation t
              /\ is_discrete_comparative t = true.
Proof.
  unfold comparative_block. intros Hin.
  apply in_flat_map in Hin as (t & Ht & Hin).
  apply In_filter_bool in Ht as [_ Hdc].
  apply in_map_iff in Hin as (m & <- & _). split; [done|]. by exists t.
Qed.

(** C5. [prepare_tasks] walks the time windows in list order; each window
    contributes its catalog-preparation task, then for each model in list
    order the forecast-creation task immediately followed by that model's
    Discrete-Absolute evaluations, then the window's Discrete-Comparative
    evaluations; the per-evaluation closing tasks follow the last window.
    With two windows, one model and one Discrete-Absolute test the list is
    the six tasks of the two windows in window order. *)
Theorem prepare_tasks_order (exp : Experiment) :
  paths_ready exp = true ->
  timewindows exp <> [] ->
  exists exp',
    prepare_tasks exp = Ok exp'
    /\ tasks exp'
       = flat_map (window_block exp) (timewindows exp)
         ++ flat_map (closing_block exp) (tests exp)
    /\ (forall w,
          window_block exp w
          = subcatalog_task (timewindow2str w)
            :: flat_map
                 (fun m =>
                    forecast_task (timewindow2str w) m
                    :: map (absolute_task exp (timewindow2str w) m)
                         (filter (fun t => is_discrete_absolute t = true)
                            (tests exp)))
                 (models exp)
            ++ comparative_block exp (timewindow2str w))
    /\ (forall w task,
          In task (comparative_block exp (timewindow2str w)) ->
          method task = "compute"
          /\ exists t, instance task = OnEvaluation t
                      /\ is_discrete_comparative t = true)
    /\ (forall w1 w2 m t,
          timewindows exp = [w1; w2] -> models exp = [m] ->
          tests exp = [t] ->
          is_discrete_absolute t = true -> well_tagged t = true ->
          tasks exp'
          = [subcatalog_task (timewindow2str w1);
             forecast_task (timewindow2str w1) m;
             absolute_task exp (timewindow2str w1) m t;
             subcatalog_task (timewindow2str w2);
             forecast_task (timewindow2str w2) m;
             absolute_task exp (timewindow2str w2) m t]
          /\ length (tasks exp') = 6).
Proof.
  intros Hready Hne. eexists. split; [by apply prepare_tasks_schedule|].
  split; [done|]. split; [done|].
  split; [intros w task; apply comparative_block_tasks|].
  intros w1 w2 m t Htw Hms Hts Hda Hwt.
  assert (Hsched : schedule exp
                   = [subcatalog_task (timewindow2str w1);
                      forecast_task (timewindow2str w1) m;
                      absolute_task exp (timewindow2str w1) m t;
                      subcatalog_task (timewindow2str w2);
                      forecast_task (timewindow2str w2) m;
                      absolute_task exp (timewindow2str w2) m t]).
  { unfold schedule, window_block, model_block, comparative_block,
      closing_block.
    rewrite Htw, Hms, Hts. simpl. rewrite !filter_bool_cons, Hda.
    unfold is_discrete_absolute, is_discrete_comparative in *.
    apply andb_true_iff in Hda as [Hd Ha].
    rewrite (well_tagged_discrete_not_sequential t Hwt Hd).
    unfold well_tagged in Hwt. rewrite Hd, Ha in *.
    destruct (has_tag "Comparative" t), (has_tag "Batch" t),
      (has_tag "Sequential" t); try discriminate Hwt; done. }
  simpl. by rewrite Hsched.
Qed.

(** *** The tasks that follow the windows *)

(** Every task of a window's block is bound to that one window. *)
Lemma window_block_bound (exp : Experiment) (w : timewindow) (task : Task) :
  In task (window_block exp w) ->
  kwarg "tstring" (kwargs task) = Some (VStr (timewindow2str w))
  \/ kwarg "timewindow" (kwargs task) = Some (VStr (timewindow2str w)).
Proof.
  unfold window_block. intros [<-|Hin]; [by left|].
  apply in_app_or in Hin as [Hin|Hin].
  - apply in_flat_map in Hin as (m & _ & [<-|Hin]); [by left|].
    apply in_map_iff in Hin as (t & <- & _). by right.
  - apply in_flat_map in Hin as (t & _ & Hin).
    apply in_map_iff in Hin as (m & <- & _). by right.
Qed.

Lemma prepared_catalogs (exp : Experiment) :
  prepared exp ->
  map (catalog_of exp) (map timewindow2str (timewindows exp))
  = map (fun w => catalog_file exp (timewindow2str w)) (timewindows exp).
Proof.
  intros Hprep. rewrite map_map. apply map_ext_in.
  intros w Hw. by apply prepared_catalog_of.
Qed.

(** C6. For every Sequential (Absolute or Comparative) evaluation,
    [prepare_tasks] emits exactly one task per model, after all the
    per-window tasks, bound to the catalog paths of all the windows in
    order, and with its result path in the evaluations directory of the
    last window; with three windows, one model and one Sequential-Absolute
    test that is a single task, bound to the three catalogs and writing
    under the third window. *)
Theorem prepare_tasks_sequential (rp rn : option string)
    (exp0 exp : Experiment) (fs0 fs : FS) :
  prepare_paths rp rn (exp0, fs0) = Ok (exp, fs) ->
  timewindows exp <> [] ->
  exists exp' wl,
    prepare_tasks exp = Ok exp'
    /\ last (timewindows exp) = Some wl
    /\ tasks exp'
       = flat_map (window_block exp) (timewindows exp)
         ++ flat_map (closing_block exp) (tests exp)
    /\ (forall w task,
          In task (window_block exp w) ->
          kwarg "tstring" (kwargs task) = Some (VStr (timewindow2str w))
          \/ kwarg "timewindow" (kwargs task)
             = Some (VStr (timewindow2str w)))
    /\ (forall t,
          In t (tests exp) ->
          has_tag "Sequential" t = true ->
          has_tag "Absolute" t || has_tag "Comparative" t = true ->
          exists mk : Model -> Task,
            closing_block exp t = map mk (models exp)
            /\ forall m,
                 In m (models exp) ->
                 instance (mk m) = OnEvaluation t
                 /\ method (mk m) = "compute"
                 /\ kwarg "model" (kwargs (mk m)) = Some (VModel m)
                 /\ kwarg "timewindow" (kwargs (mk m))
                    = Some (VStrs (map timewindow2str (timewindows exp)))
                 /\ kwarg "catalog" (kwargs (mk m))
                    = Some (VStrs
                              (map (fun w =>
                                      catalog_file exp (timewindow2str w))
                                 (timewindows exp)))
                 /\ kwarg "path" (kwargs (mk m))
                    = Some (VStr (evaluation_file exp (timewindow2str wl)
                                    (test_name t) (model_name m))))
    /\ (forall w1 w2 w3 m t,
          timewindows exp = [w1; w2; w3] -> models exp = [m] ->
          tests exp = [t] ->
          has_tag "Sequential" t = true -> has_tag "Absolute" t = true ->
          exists task,
            flat_map (closing_block exp) (tests exp) = [task]
            /\ instance task = OnEvaluation t
            /\ kwarg "model" (kwargs task) = Some (VModel m)
            /\ kwarg "catalog" (kwargs task)
               = Some (VStrs [catalog_file exp (timewindow2str w1);
                              catalog_file exp (timewindow2str w2);
                              catalog_file exp (timewindow2str w3)])
            /\ kwarg "path" (kwargs task)
               = Some (VStr (evaluation_file exp (timewindow2str w3)
                               (test_name t) (model_name m)))).
Proof.
  intros Hpp Hne.
  assert (Hprep : prepared exp) by (by exists rp, rn, exp0, fs0, fs).
  destruct (last_nonempty _ Hne) as [wl Hwl].
  assert (Hwlin : In wl (timewindows exp)) by by apply last_In.
  assert (Hlast : last (map timewindow2str (timewindows exp))
                  = Some (timewindow2str wl)) by by rewrite last_map, Hwl.
  exists (set_tasks exp (schedule exp)), wl.
  split; [apply prepare_tasks_schedule; [by apply prepared_ready|done]|].
  split; [done|]. split; [done|].
  split; [intros w task; apply window_block_bound|].
  assert (Hseq : forall t, In t (tests exp) ->
            has_tag "Sequential" t = true ->
            has_tag "Absolute" t || has_tag "Comparative" t = true ->
            exists mk : Model -> Task,
              closing_block exp t = map mk (models exp)
              /\ forall m, In m (models exp) ->
                   instance (mk m) = OnEvaluation t
                   /\ method (mk m) = "compute"
                   /\ kwarg "model" (kwargs (mk m)) = Some (VModel m)
                   /\ kwarg "timewindow" (kwargs (mk m))
                      = Some (VStrs (map timewindow2str (timewindows exp)))
                   /\ kwarg "catalog" (kwargs (mk m))
                      = Some (VStrs
                                (map (fun w =>
                                        catalog_file exp (timewindow2str w))
                                   (timewindows exp)))
                   /\ kwarg "path" (kwargs (mk m))
                      = Some (VStr (evaluation_file exp (timewindow2str wl)
                                      (test_name t) (model_name m)))).
  { intros t Ht Hs Hac. unfold closing_block. rewrite Hs.
    destruct (has_tag "Absolute" t).
    - exists (sequential_absolute_task exp t). split; [done|].
      intros m Hm. unfold sequential_absolute_task. simpl.
      rewrite Hlast, prepared_catalogs by done. simpl.
      by rewrite prepared_evaluation_of.
    - simpl in Hac. rewrite Hac.
      exists (sequential_comparative_task exp t). split; [done|].
      intros m Hm. unfold sequential_comparative_task. simpl.
      rewrite Hlast, prepared_catalogs by done. simpl.
      by rewrite prepared_evaluation_of. }
  split; [exact Hseq|].
  intros w1 w2 w3 m t Htw Hms Hts Hs Ha.
  destruct (Hseq t) as (mk & Hblock & Hmk);
    [rewrite Hts; by left|done|by rewrite Ha|].
  exists (mk m). rewrite Hts. simpl. rewrite Hblock, Hms, app_nil_r.
  split; [done|].
  destruct (Hmk m) as (Hi & _ & Hmod & _ & Hcat & Hpath);
    [rewrite Hms; by left|].
  rewrite Htw in Hcat, Hwl. injection Hwl as <-. done.
Qed.

(** C7. For every Discrete-Batch evaluation, [prepare_tasks] emits exactly
    one task per model, after the per-window tasks, bound to the catalog
    path of the last time window only, with [ref_model] bound to the whole
    model list and the result path in the evaluations directory of the last
    window. *)
Theorem prepare_tasks_batch (rp rn : option string)
    (exp0 exp : Experiment) (fs0 fs : FS) :
  prepare_paths rp rn (exp0, fs0) = Ok (exp, fs) ->
  timewindows exp <> [] ->
  exists exp' wl,
    prepare_tasks exp = Ok exp'
    /\ last (timewindows exp) = Some wl
    /\ tasks exp'
       = flat_map (window_block exp) (timewindows exp)
         ++ flat_map (closing_block exp) (tests exp)
    /\ (forall t,
          In t (tests exp) ->
          well_tagged t = true ->
          has_tag "Discrete" t = true -> has_tag "Batch" t = true ->
          exists mk : Model -> Task,
            closing_block exp t = map mk (models exp)
            /\ forall m,
                 In m (models exp) ->
                 instance (mk m) = OnEvaluation t
                 /\ method (mk m) = "compute"
                 /\ kwarg "model" (kwargs (mk m)) = Some (VModel m)
                 /\ kwarg "ref_model" (kwargs (mk m))
                    = Some (VModels (models exp))
                 /\ kwarg "timewindow" (kwargs (mk m))
                    = Some (VStr (timewindow2str wl))
                 /\ kwarg "catalog" (kwargs (mk m))
                    = Some (VStr (catalog_file exp (timewindow2str wl)))
                 /\ kwarg "path" (kwargs (mk m))
                    = Some (VStr (evaluation_file exp (timewindow2str wl)
                                    (test_name t) (model_name m)))).
Proof.
  intros Hpp Hne.
  assert (Hprep : prepared exp) by (by exists rp, rn, exp0, fs0, fs).
  destruct (last_nonempty _ Hne) as [wl Hwl].
  assert (Hwlin : In wl (timewindows exp)) by by apply last_In.
  assert (Hlast : last (map timewindow2str (timewindows exp))
                  = Some (timewindow2str wl)) by by rewrite last_map, Hwl.
  exists (set_tasks exp (schedule exp)), wl.
  split; [apply prepare_tasks_schedule; [by apply prepared_ready|done]|].
  split; [done|]. split; [done|].
  intros t Ht Hwt Hd Hb. unfold closing_block.
  rewrite (well_tagged_discrete_not_sequential t Hwt Hd), Hd, Hb. simpl.
  exists (batch_task exp t). split; [done|].
  intros m Hm. unfold batch_task. simpl. rewrite Hlast. simpl.
  by rewrite prepared_catalog_of, prepared_evaluation_of.
Qed.

(** *** Reference models that do not resolve *)

Lemma get_model_in_None (ms : list Model) (name : option string) :
  (forall m, In m ms -> Some (model_name m) <> name) ->
  get_model_in ms name = None.
Proof.
  induction ms as [|m ms IH]; intros H; simpl; [done|].
  rewrite bool_decide_eq_false_2 by (apply H; by left).
  apply IH. intros m' Hm'. apply H. by right.
Qed.

Lemma get_model_in_Some (ms : list Model) (name : option string) (m : Model) :
  get_model_in ms name = Some m -> In m ms /\ Some (model_name m) = name.
Proof.
  induction ms as [|m0 ms IH]; simpl; [done|].
  destruct (bool_decide (Some (model_name m0) = name)) eqn:Hd.
  - intros [= <-]. apply bool_decide_eq_true in Hd. split; [by left|done].
  - intros H. destruct (IH H). split; [by right|done].
Qed.

(** The shapes a task of the schedule can have. *)
Lemma schedule_cases (exp : Experiment) (task : Task) :
  In task (schedule exp) ->
  (exists s, task = subcatalog_task s)
  \/ (exists s m, task = forecast_task s m)
  \/ (exists s m t, task = absolute_task exp s m t)
  \/ (exists s t m, task = comparative_task exp s t m)
  \/ (exists t m, task = sequential_absolute_task exp t m)
  \/ (exists t m, task = sequential_comparative_task exp t m)
  \/ (exists t m, task = batch_task exp t m).
Proof.
  unfold schedule. intros Hin. apply in_app_or in Hin as [Hin|Hin].
  - apply in_flat_map in Hin as (w & _ & Hin). unfold window_block in Hin.
    destruct Hin as [<-|Hin]; [left; by eexists|].
    apply in_app_or in Hin as [Hin|Hin].
    + apply in_flat_map in Hin as (m & _ & [<-|Hin]);
        [right; left; by do 2 eexists|].
      apply in_map_iff in Hin as (t & <- & _).
      right; right; left. by do 3 eexists.
    + apply in_flat_map in Hin as (t & _ & Hin).
      apply in_map_iff in Hin as (m & <- & _).
      right; right; right; left. by do 3 eexists.
  - apply in_flat_map in Hin as (t & _ & Hin). unfold closing_block in Hin.
    destruct (has_tag "Sequential" t).
    + destruct (has_tag "Absolute" t); [|destruct (has_tag "Comparative" t)];
        [| |done]; apply in_map_iff in Hin as (m & <- & _).
      * do 4 right; left. by do 2 eexists.
      * do 5 right; left. by do 2 eexists.
    + destruct (has_tag "Discrete" t && has_tag "Batch" t); [|done].
      apply in_map_iff in Hin as (m & <- & _).
      do 6 right. by do 2 eexists.
Qed.

(** The specification's rule that an unresolved reference model stops task
    preparation. *)
Definition fails_fast_on_unresolved_ref_model (exp : Experiment) : Prop :=
  (exists t, In t (tests exp)
             /\ has_tag "Comparative" t = true
             /\ get_model exp (test_ref_model t) = None) ->
  is_ok (prepare_tasks exp) = false.

(** C2, as the code has it.  When no model carries the name an evaluation
    gives as [ref_model], [get_model] returns [None]; [prepare_tasks]
    raises nothing on that account (with the paths prepared and a time
    window to work on it returns the task list), no task of that evaluation
    is bound to a reference model, and every Discrete-Comparative task of
    the evaluation is in the list with [ref_model] bound to [None]. *)
Theorem prepare_tasks_unresolved_ref_model (exp : Experiment)
    (t : Evaluation) :
  paths_ready exp = true ->
  timewindows exp <> [] ->
  In t (tests exp) ->
  (forall m, In m (models exp) -> Some (model_name m) <> test_ref_model t) ->
  get_model exp (test_ref_model t) = None
  /\ exists exp',
       prepare_tasks exp = Ok exp'
       /\ (forall task m,
             In task (tasks exp') -> instance task = OnEvaluation t ->
             kwarg "ref_model" (kwargs task) <> Some (VModel m))
       /\ (is_discrete_comparative t = true ->
           forall w m,
             In w (timewindows exp) -> In m (models exp) ->
             exists task,
               In task (tasks exp')
               /\ instance task = OnEvaluation t
               /\ kwarg "timewindow" (kwargs task)
                  = Some (VStr (timewindow2str w))
               /\ kwarg "model" (kwargs task) = Some (VModel m)
               /\ kwarg "ref_model" (kwargs task) = Some VNone).
Proof.
  intros Hready Hne Ht Hnone.
  assert (Hget : get_model exp (test_ref_model t) = None)
    by by apply get_model_in_None.
  split; [done|]. eexists. split; [by apply prepare_tasks_schedule|].
  simpl. split.
  - intros task m Hin Hinst.
    destruct (schedule_cases _ _ Hin)
      as [(s & ->)|[(s & m' & ->)|[(s & m' & t' & ->)|[(s & t' & m' & ->)|
          [(t' & m' & ->)|[(t' & m' & ->)|(t' & m' & ->)]]]]]];
      simpl in *; try done.
    + injection Hinst as ->. by rewrite Hget.
    + injection Hinst as ->. by rewrite Hget.
  - intros Hdc w m Hw Hm.
    exists (comparative_task exp (timewindow2str w) t m).
    split; [|simpl; by rewrite Hget].
    unfold schedule. apply in_or_app. left.
    apply in_flat_map. exists w. split; [done|].
    unfold window_block. right. apply in_or_app. right.
    unfold comparative_block. apply in_flat_map. exists t.
    split; [by apply In_filter_bool|]. by apply in_map.
Qed.

(** *** More about [get_model] and [prepare_tasks] *)

(** X1. [get_model] returns the first model, in list order, that carries
    the name asked for, and [None] exactly when no model carries it. *)
Theorem get_model_first_match (exp : Experiment) (name : option string) :
  (forall m,
     get_model exp name = Some m <->
     exists pre post,
       models exp = pre ++ m :: post
       /\ Some (model_name m) = name
       /\ forall m', In m' pre -> Some (model_name m') <> name)
  /\ (get_model exp name = None <->
      forall m, In m (models exp) -> Some (model_name m) <> name).
Proof.
  unfold get_model. induction (models exp) as [|m0 ms [IHsome IHnone]].
  - split.
    + intros m. split; [done|]. intros (pre & post & H & _).
      by destruct pre.
    + split; [by intros _ m []|done].
  - simpl. destruct (bool_decide (Some (model_name m0) = name)) eqn:Hd.
    + apply bool_decide_eq_true in Hd. split.
      * intros m. split.
        -- intros [= <-]. exists [], ms. by split; [|split; [|intros m' []]].
        -- intros (pre & post & Heq & Hname & Hpre).
           destruct pre as [|p pre]; simpl in Heq.
           ++ by injection Heq as ->.
           ++ injection Heq as <- _. exfalso. apply (Hpre m0); [by left|done].
      * split; [done|]. intros H. exfalso. apply (H m0); [by left|done].
    + apply bool_decide_eq_false in Hd. split.
      * intros m. rewrite IHsome. split.
        -- intros (pre & post & -> & Hname & Hpre).
           exists (m0 :: pre), post. split; [done|]. split; [done|].
           intros m' [<-|Hin]; [done|by apply Hpre].
        -- intros (pre & post & Heq & Hname & Hpre).
           destruct pre as [|p pre]; simpl in Heq.
           ++ injection Heq as -> _. done.
           ++ injection Heq as <- ->. exists pre, post.
              split; [done|]. split; [done|].
              intros m' Hin. apply Hpre. by right.
      * rewrite IHnone. split.
        -- intros H m [<-|Hin]; [done|by apply H].
        -- intros H m Hin. apply H. by right.
Qed.

Lemma length_flat_map_const {A B} (f : A -> list B) (l : list A) (c : nat) :
  (forall x, In x l -> length (f x) = c) ->
  length (flat_map f l) = length l * c.
Proof.
  induction l as [|x l IH]; intros Hc; simpl; [done|].
  rewrite length_app, Hc by (by left).
  rewrite IH by (intros; apply Hc; by right). done.
Qed.

Lemma length_flat_map_filter {A B} (P : A -> bool) (f : A -> list B)
    (l : list A) (c : nat) :
  (forall x, In x l -> P x = true -> length (f x) = c) ->
  (forall x, In x l -> P x = false -> f x = []) ->
  length (flat_map f l) = c * count P l.
Proof.
  unfold count.
  induction l as [|x l IH]; intros Hyes Hno; simpl; [lia|].
  rewrite length_app.
  rewrite IH;
    [|intros; apply Hyes; [by right|done]|intros; apply Hno; [by right|done]].
  destruct (P x) eqn:HP; simpl.
  - rewrite Hyes by (done || by left). lia.
  - rewrite Hno by (done || by left). simpl. lia.
Qed.

(** An evaluation that contributes tasks after the windows. *)
Definition emits_closing (t : Evaluation) : bool :=
  if has_tag "Sequential" t
  then has_tag "Absolute" t || has_tag "Comparative" t
  else has_tag "Discrete" t && has_tag "Batch" t.

Lemma length_closing_block (exp : Experiment) (t : Evaluation) :
  length (closing_block exp t)
  = if emits_closing t then length (models exp) else 0.
Proof.
  unfold closing_block, emits_closing.
  destruct (has_tag "Sequential" t).
  - destruct (has_tag "Absolute" t); [by rewrite length_map|].
    destruct (has_tag "Comparative" t); [by rewrite length_map|done].
  - destruct (has_tag "Discrete" t && has_tag "Batch" t);
      [by rewrite length_map|done].
Qed.

Lemma length_window_block (exp : Experiment) (w : timewindow) :
  length (window_block exp w)
  = 1 + length (models exp) * (1 + count is_discrete_absolute (tests exp))
    + count is_discrete_comparative (tests exp) * length (models exp).
Proof.
  unfold window_block, comparative_block. simpl. rewrite length_app.
  rewrite (length_flat_map_const _ _
             (1 + count is_discrete_absolute (tests exp))).
  2:{ intros m _. unfold model_block. simpl.
      by rewrite length_map, length_filter_bool. }
  rewrite (length_flat_map_const _ _ (length (models exp)))
    by (intros; apply length_map).
  by rewrite length_filter_bool.
Qed.

(** X2. With the paths prepared and at least one time window, the task
    list has, per window, one catalog task, per model one forecast task
    and one task per Discrete-Absolute test, and one task per model and
    Discrete-Comparative test; after the windows, one task per model for
    every test that is Sequential (Absolute or Comparative) or, not being
    Sequential, Discrete and Batch. *)
Theorem prepare_tasks_length (exp : Experiment) :
  paths_ready exp = true ->
  timewindows exp <> [] ->
  exists exp',
    prepare_tasks exp = Ok exp'
    /\ length (tasks exp')
       = length (timewindows exp)
         * (1 + length (models exp)
                * (1 + count is_discrete_absolute (tests exp))
            + count is_discrete_comparative (tests exp)
              * length (models exp))
         + length (models exp) * count emits_closing (tests exp).
Proof.
  intros Hready Hne. eexists. split; [by apply prepare_tasks_schedule|].
  simpl. unfold schedule. rewrite length_app. f_equal.
  - apply length_flat_map_const. intros w _. apply length_window_block.
  - apply length_flat_map_filter.
    + intros t _ Ht. by rewrite length_closing_block, Ht.
    + intros t _ Ht. apply length_zero_iff_nil.
      by rewrite length_closing_block, Ht.
Qed.



Lemma for_first_raise {A S} (P : A -> bool) (l : list A)
    (body : A -> S -> result S) (e : exn) (s : S) :
  (forall x s', P x = false -> body x s' = Ok s') ->
  (forall x s', P x = true -> body x s' = Raise e) ->
  existsb P l = true ->
  for_ l body s = Raise e.
Proof.
  intros Hskip Hraise. induction l as [|x l IH]; [done|]. simpl.
  destruct (P x) eqn:HP.
  - intros _. by rewrite Hraise.
  - simpl. intros Hex. rewrite Hskip by done. simpl. by apply IH.
Qed.

(** X4. When the paths of the first time window are missing (as before
    [prepare_paths]), [prepare_tasks] raises a [KeyError] naming that
    window as soon as there is a model and a Discrete-Absolute test: the
    first evaluation task cannot find its catalog path. *)
Theorem prepare_tasks_missing_paths (exp : Experiment) (w : timewindow)
    (ws : list timewindow) (m : Model) (ms : list Model) :
  timewindows exp = w :: ws ->
  models exp = m :: ms ->
  _paths exp !! timewindow2str w = None ->
  existsb is_discrete_absolute (tests exp) = true ->
  prepare_tasks exp = Raise (KeyError (timewindow2str w)).
Proof.
  intros Htw Hms Hpaths Hda. unfold prepare_tasks.
  rewrite Htw, Hms. cbn [for_].
  rewrite (for_first_raise is_discrete_absolute (tests exp) _
             (KeyError (timewindow2str w))); [done| | |done].
  - intros t acc Ht. unfold is_discrete_absolute in Ht. by rewrite Ht.
  - intros t acc Ht. unfold is_discrete_absolute in Ht. rewrite Ht.
    unfold catalog_path, getitem. by rewrite Hpaths.
Qed.

(** X5. [prepare_tasks] builds the task list afresh: what it stores does
    not depend on the tasks the experiment held before, so a second call
    stores the same list again instead of extending it, and it leaves the
    other attributes alone. *)
Theorem prepare_tasks_replaces_tasks (exp exp' : Experiment) :
  prepare_tasks exp = Ok exp' ->
  (forall old, prepare_tasks (set_tasks exp old) = Ok exp')
  /\ prepare_tasks exp' = Ok exp'
  /\ timewindows exp' = timewindows exp
  /\ models exp' = models exp
  /\ tests exp' = tests exp
  /\ _paths exp' = _paths exp
  /\ _exists exp' = _exists exp
  /\ run_folder exp' = run_folder exp.
Proof.
  intros Hprep.
  assert (Hold : forall old, prepare_tasks (set_tasks exp old) = Ok exp').
  { intros old. rewrite <- Hprep. destruct exp. reflexivity. }
  split; [exact Hold|].
  unfold prepare_tasks in Hprep. bind_inv Hprep. injection Hprep as <-.
  split; [apply Hold|done].
Qed.

(** *** The layout [prepare_paths] stores *)

Lemma read_tree_figures (exp : Experiment) (rf : string) (fs : FS)
    (ex : gmap string WindowExists) (tp : gmap string WindowPaths)
    (w : timewindow) :
  read_tree (the_dirtree exp rf) (map timewindow2str (timewindows exp))
    (map model_name (models exp)) (map test_name (tests exp)) fs
  = Ok (ex, tp) ->
  In w (timewindows exp) ->
  exists wp,
    tp !! timewindow2str w = Some wp
    /\ (forall t, In t (tests exp) ->
         figures wp !! test_name t
         = Some (join [window_dir exp rf (timewindow2str w) "figures";
                       test_name t]))
    /\ (forall m, In m (models exp) ->
         models_figures wp !! model_name m
         = Some (join [window_dir exp rf (timewindow2str w) "figures";
                       model_name m])
         /\ models_forecasts wp !! model_name m = Some (model_name m)).
Proof.
  intros Hread Hw. unfold read_tree in Hread. bind_inv Hread.
  injection Hread as _ <-.
  assert (Hwin : In (timewindow2str w) (map timewindow2str (timewindows exp)))
    by by apply in_map.
  unfold dict_comp_r in E1.
  destruct (dict_comp_r_lookup _ _ _ _ E1 Hwin) as (wp & Hval & Hlook).
  exists wp. split; [done|]. cbn beta in Hval.
  match type of Hval with
  | rbind ?c _ = Ok _ => destruct c as [figs_m|] eqn:Hfigs_m; [|discriminate]
  end.
  cbn [rbind] in Hval.
  rewrite dirtree_window in Hval, Hfigs_m by done.
  cbn [rbind] in Hval, Hfigs_m.
  rewrite windir_folder in Hval, Hfigs_m by (cbn; tauto).
  cbn [rbind] in Hval, Hfigs_m.
  bind_inv Hval. injection Hval as <-. simpl. split.
  - intros t Ht.
    assert (Htn : In (test_name t) (map test_name (tests exp)))
      by by apply in_map.
    unfold dict_comp_r in E3.
    destruct (dict_comp_r_lookup _ _ _ _ E3 Htn) as (p & Hp & Hlt).
    cbn beta in Hp. rewrite windir_folder in Hp by (cbn; tauto).
    cbn [rbind] in Hp. by injection Hp as <-.
  - intros m Hm.
    assert (Hmn : In (model_name m) (map model_name (models exp)))
      by by apply in_map.
    split.
    + unfold dict_comp_r in Hfigs_m.
      destruct (dict_comp_r_lookup
                  (fun x =>
                     Ok (join [window_dir exp rf (timewindow2str w) "figures";
                               x]))
                  _ _ _ Hfigs_m Hmn) as (p & Hp & Hlm).
      by injection Hp as <-.
    + exact (lookup_dict_comp (fun x => x) _ (model_name m) Hmn).
Qed.

(** X6. After [prepare_paths] the run folder is the normalized absolute
    path of [results_path or 'results'] and [run_name] (['run'] when not
    given) under the experiment's path, each window's four directories
    exist, and [self._paths] holds, for every window, test and model, the
    catalog file, the result file [<test>_<model>.json], the figure of the
    test and the figure of the model, each in its directory of that
    window. *)
Theorem prepare_paths_layout (rp rn : option string) (exp exp' : Experiment)
    (fs fs' : FS) :
  prepare_paths rp rn (exp, fs) = Ok (exp', fs') ->
  run_folder exp'
  = normpath (abspath (join [path exp; or_default rp "results";
                             default "run" rn]))
  /\ forall w,
       In w (timewindows exp) ->
       (forall folder,
          In folder subfolders ->
          created fs'
            (window_dir exp (run_folder exp') (timewindow2str w) folder))
       /\ exists wp,
            _paths exp' !! timewindow2str w = Some wp
            /\ catalog wp
               = join [window_dir exp (run_folder exp') (timewindow2str w)
                         "catalog"; "catalog.json"]
            /\ (forall t m,
                  In t (tests exp) -> In m (models exp) ->
                  exists by_model,
                    evaluations wp !! test_name t = Some by_model
                    /\ by_model !! model_name m
                       = Some (join [window_dir exp (run_folder exp')
                                       (timewindow2str w) "evaluations";
                                     result_file (test_name t)
                                       (model_name m)]))
            /\ (forall t,
                  In t (tests exp) ->
                  figures wp !! test_name t
                  = Some (join [window_dir exp (run_folder exp')
                                  (timewindow2str w) "figures";
                                test_name t]))
            /\ (forall m,
                  In m (models exp) ->
                  models_figures wp !! model_name m
                  = Some (join [window_dir exp (run_folder exp')
                                  (timewindow2str w) "figures";
                                model_name m])).
Proof.
  intros Hprep.
  destruct (prepare_paths_fields _ _ _ _ _ _ Hprep) as (_ & _ & _ & _ & _ & Hrf).
  split; [rewrite Hrf; by destruct rn|].
  destruct (prepare_paths_inv _ _ _ _ _ _ Hprep) as (ex & tp & Hmk & Hread & Heq).
  intros w Hw.
  assert (Hwin : In (timewindow2str w) (map timewindow2str (timewindows exp)))
    by by apply in_map.
  split.
  - intros folder Hfolder.
    destruct (make_tree_created _ _ _ Hmk) as [Hall _].
    apply (Hall (timewindow2str w)
             (the_windir exp (run_folder exp') (timewindow2str w)) folder).
    + pose proof (dirtree_window exp (run_folder exp') _ Hwin) as Hd.
      clear -Hd. induction (the_dirtree exp (run_folder exp')) as [|[k v] d IH];
        simpl in *; [done|].
      destruct (String.eqb (timewindow2str w) k) eqn:Hk.
      * apply String.eqb_eq in Hk as <-. injection Hd as <-. by left.
      * right. by apply IH.
    + pose proof (windir_folder exp (run_folder exp') (timewindow2str w)
                    folder Hfolder) as Hd.
      clear -Hd.
      induction (the_windir exp (run_folder exp') (timewindow2str w))
        as [|[k v] d IH]; simpl in *; [done|].
      destruct (String.eqb folder k) eqn:Hk.
      * apply String.eqb_eq in Hk as <-. injection Hd as <-. by left.
      * right. by apply IH.
  - destruct (read_tree_paths _ _ _ _ _ w Hread Hw) as (wp & Hwp & Hcat & Hev).
    destruct (read_tree_figures _ _ _ _ _ w Hread Hw) as (wp' & Hwp' & Hfig & Hmf).
    rewrite Hwp in Hwp'. injection Hwp' as <-.
    exists wp. rewrite Heq. simpl. split; [done|]. split; [done|].
    split; [|split; [done|intros m Hm; by apply Hmf]].
    intros t m Ht Hm. destruct (Hev t Ht) as (bm & Hbm & Hp).
    exists bm. split; [done|by apply Hp].
Qed.

Lemma oget_In {V} (d : odict V) (k : string) (v : V) :
  oget d k = Ok v -> In (k, v) d.
Proof.
  induction d as [|[k0 v0] d IH]; simpl; [done|].
  destruct (String.eqb k k0) eqn:Hk.
  - apply String.eqb_eq in Hk as <-. intros [= <-]. by left.
  - intros H. right. by apply IH.
Qed.

(** The names [read_tree] lists for a directory of the tree that did not
    exist before the directories were made. *)
Lemma fresh_files (exp : Experiment) (rf : string) (fs fs' : FS)
    (files : gmap string (gmap string (list string)))
    (win folder : string) (f : gmap string (list string))
    (names : list string) :
  make_tree (the_dirtree exp rf) fs = Ok fs' ->
  for_ (the_dirtree exp rf)
    (fun x d =>
       let* v :=
         (let '(win, windir) := x in
          dict_comp_r fst (fun '(name, path_) => listdir path_ fs') windir) in
       Ok (<[fst x := v]> d)) ∅
  = Ok files ->
  (forall folder',
     In folder' subfolders ->
     listing fs !! window_dir exp rf win folder' = None) ->
  files !! win = Some f -> f !! folder = Some names -> names = [].
Proof.
  intros Hmk Hfiles Hfresh Hf Hnames.
  destruct (for_insert_sound _ _ _ _ _ Hfiles win f Hf)
    as [Hempty|([k windir] & Hin & Hk & Hval)]; [done|].
  simpl in Hk. subst k. unfold dict_comp_r in Hval.
  destruct (for_insert_sound _ _ _ _ _ Hval folder names Hnames)
    as [Hempty|([n p] & Hin' & Hn & Hlist)]; [done|].
  simpl in Hn. subst n.
  pose proof Hin as Hin0. unfold the_dirtree in Hin0.
  apply In_odict_comp in Hin0 as [Hwin ->].
  pose proof Hin' as Hin1. apply In_odict_comp in Hin1 as [Hfolder ->].
  fold (window_dir exp rf win folder) in Hlist, Hin'.
  unfold listdir in Hlist.
  rewrite (make_tree_fresh _ _ _ _ _ _ _ Hmk Hin Hin') in Hlist
    by by apply Hfresh.
  by injection Hlist as <-.
Qed.

(** X7. When none of the directories of the run existed before, the
    existence flags [prepare_paths] stores are all [False]: for every
    window, no forecast, no catalog, and no evaluation result of any test
    and model. *)
Theorem prepare_paths_fresh_run (rp rn : option string)
    (exp exp' : Experiment) (fs fs' : FS) :
  prepare_paths rp rn (exp, fs) = Ok (exp', fs') ->
  (forall w folder,
     In w (timewindows exp) -> In folder subfolders ->
     listing fs !! window_dir exp (run_folder exp') (timewindow2str w) folder
     = None) ->
  forall w,
    In w (timewindows exp) ->
    exists we,
      _exists exp' !! timewindow2str w = Some we
      /\ forecasts_exist we = false
      /\ catalog_exists we = false
      /\ forall t,
           In t (tests exp) ->
           exists by_model,
             evaluations_exist we !! test_name t = Some by_model
             /\ forall m,
                  In m (models exp) ->
                  by_model !! model_name m = Some false.
Proof.
  intros Hprep Hfresh w Hw.
  destruct (prepare_paths_inv _ _ _ _ _ _ Hprep) as (ex & tp & Hmk & Hread & Heq).
  assert (Hwin : In (timewindow2str w) (map timewindow2str (timewindows exp)))
    by by apply in_map.
  unfold read_tree in Hread. bind_inv Hread. injection Hread as <- _.
  rename a into files.
  assert (Hempty : forall folder f names,
            files !! timewindow2str w = Some f ->
            f !! folder = Some names -> names = []).
  { intros folder f names. unfold dict_comp_r in E.
    apply (fresh_files exp (run_folder exp') fs fs' files); try done.
    intros folder' Hfolder'. by apply Hfresh. }
  unfold dict_comp_r in E0.
  destruct (dict_comp_r_lookup _ _ _ _ E0 Hwin) as (we & Hval & Hlook).
  exists we. rewrite Heq. simpl. split; [done|]. cbn beta in Hval.
  unfold getitem in Hval.
  destruct (files !! timewindow2str w) as [f|] eqn:Hf; [|discriminate].
  cbn [rbind] in Hval.
  destruct (f !! "catalog") as [cat_files|] eqn:Hcat; [|discriminate].
  cbn [rbind] in Hval.
  rewrite (Hempty "catalog" f cat_files eq_refl Hcat) in Hval.
  bind_inv Hval. injection Hval as <-. simpl.
  split; [done|]. split; [done|]. intros t Ht.
  assert (Htn : In (test_name t) (map test_name (tests exp)))
    by by apply in_map.
  destruct (dict_comp_r_lookup _ _ _ _ E2 Htn) as (bm & Hbm & Hlt).
  exists bm. split; [done|]. intros m Hm.
  assert (Hmn : In (model_name m) (map model_name (models exp)))
    by by apply in_map.
  cbn beta in Hbm.
  destruct (dict_comp_r_lookup _ _ _ _ Hbm Hmn) as (b & Hb & Hlm).
  cbn beta in Hb.
  destruct (f !! "evaluations") as [eval_files|] eqn:Hev; [|discriminate].
  cbn [rbind] in Hb.
  rewrite (Hempty "evaluations" f eval_files eq_refl Hev) in Hb.
  injection Hb as <-. done.
Qed.

(** *** Reading the results back *)

Section Results.

(** [EvaluationResult.from_dict(json.load(file_))] on the file at a path:
    the stored result, or the exception of [open] or of the parser. *)
Variable EvaluationResult : Type.
Variable load_result : string -> result EvaluationResult.

(** The [window] argument of [_read_results]: a time window or its
    string. *)
Inductive WindowArg : Type :=
| AsWindow (w : timewindow)
| AsString (s : string).

(** [Experiment._read_results(test, window)] *)
Definition _read_results (exp : Experiment) (test : Evaluation)
    (window : WindowArg) : result (list EvaluationResult) :=
  let test_results := [] in
  let wstr_ :=
    match window with
    | AsWindow w => timewindow2str w
    | AsString s => s
    end in
  let models_ :=
    if str_in "T" (test_name test)
    then filter (fun i => Some (model_name i) <> test_ref_model test)
           (models exp)
    else models exp in
  for_ models_
    (fun i test_results =>
       let* eval_path :=
         evaluation_path exp wstr_ (test_name test) (model_name i) in
       let* model_eval := load_result eval_path in
       Ok (test_results ++ [model_eval]))
    test_results.





End Results.

End Scheduler.

(** *** Attribute lookup *)



End Fecsep.

(** ** gefe/models.py *)
Module Gefe.

Definition date : Type := Z.

(** Model objects live in a store and are referred to by location: the
    experiment's model list and the prepared tests share them, and
    [create_forecast] updates them in place. *)
Definition loc : Type := nat.

(** [s.replace(c, '')] for a one-character [c]. *)
Fixpoint remove_char (c : ascii) (s : string) : string :=
  match s with
  | EmptyString => EmptyString
  | String a rest =>
      if Ascii.eqb a c then remove_char c rest
      else String a (remove_char c rest)
  end.

Definition folders : list string := ["catalog"; "evaluations"; "figures"].

Section Engine.

(** The external collaborators: forecasts, catalogs and the objects the
    experiment only passes around. *)
Variables Forecast FuncOut Horizon Region Catalog Magnitudes PyObj : Type.

(** [GriddedForecast(name=, data=.., region=.., magnitudes=.., start_time=,
    end_time=)] on the three outputs of the model function. *)
Variable GriddedForecast : option string -> FuncOut -> date -> date -> Forecast.
Variable scale : Forecast -> Horizon -> Forecast.
Variable forecast_region : Forecast -> Region.
(** [decimal_year(test_date + datetime.timedelta(1)) - decimal_year(start_date)] *)
Variable time_horizon : date -> date -> Horizon.
(** [test_date.isoformat()] *)
Variable isoformat : date -> string.
Variable join : list string -> string.
(** [CSEPCatalog.load_json], [catalog.filter([...])], the assignment
    [catalog.region = ...] on a deep copy, [magnitude_range.min()]. *)
Variable load_json : string -> Catalog.
Variable filter_latitude : Catalog -> Catalog.
Variable with_region : Catalog -> Region -> Catalog.
Variable min_magnitude : Magnitudes -> PyObj.

Record Model : Type := mkModel {
  name : string;
  path : string;
  func : string -> FuncOut;
  forecasts : gmap (option date) Forecast
}.

(** The positional arguments a prepared test is called with. *)
Inductive TestArgs : Type :=
| Configured (args : PyObj)
| Consistency (forecast : Forecast) (catalog : Catalog)
| Comparison (forecast ref_forecast : Forecast) (catalog : Catalog).

Record Test : Type := mkTest {
  test_name : string;
  test_func : PyObj;
  func_args : option TestArgs;
  func_kwargs : PyObj;
  plot_func : PyObj;
  plot_args : PyObj;
  test_model : option loc;
  ref_model : option string;
  test_path : option string
}.

Record Exists : Type := mkExists {
  models_exist : bool;
  catalog_exists : bool;
  evaluations_exist : gmap string (gmap string bool)
}.

Record TargetPaths : Type := mkTargetPaths {
  models_path : option string;
  catalog_path : string;
  evaluations_path : gmap string (gmap string string);
  figures_path : gmap string string
}.

(** [Experiment]: the attributes set by [__init__], and those that exist
    only once a method has assigned them ([None] while unset). *)
Record Experiment : Type := mkExperiment {
  start_date : date;
  end_date : date;
  test_date : option date;
  catalog_reader : option (option date -> date -> option date -> PyObj -> Catalog);
  models : list loc;
  tests : list Test;
  run_folder : option string;
  target_paths : option TargetPaths;
  exists_ : option Exists;
  catalog : option Catalog;
  magnitude_range : option Magnitudes
}.

(** The process: the experiment object, the store of model objects, the
    file system, and the log of the calls made to model functions (the
    path each was called on). *)
Record World : Type := mkWorld {
  experiment : Experiment;
  heap : gmap loc Model;
  fs : FS;
  calls : list string
}.

(** A method: it returns or raises, and leaves a world behind either way. *)
Definition M (A : Type) : Type := World -> result A * World.

Definition ret {A} (a : A) : M A := fun w => (Ok a, w).
Definition raise {A} (e : exn) : M A := fun w => (Raise e, w).
Definition bind {A B} (c : M A) (k : A -> M B) : M B :=
  fun w =>
    match c w with
    | (Ok a, w') => k a w'
    | (Raise e, w') => (Raise e, w')
    end.

Notation "'do' x <- c ; k" := (bind c (fun x => k))
  (at level 10, x name, c at level 100, k at level 200).

Definition self : M Experiment := fun w => (Ok (experiment w), w).

Definition set_experiment (e : Experiment) : M unit :=
  fun w => (Ok tt, mkWorld e (heap w) (fs w) (calls w)).

(** Reading a result off a computation that only looks. *)
Definition lift {A} (r : result A) : M A := fun w => (r, w).

Definition deref (l : loc) : M Model :=
  fun w =>
    match heap w !! l with
    | Some m => (Ok m, w)
    | None => (Raise (AttributeError "model"), w)
    end.

Definition store (l : loc) (m : Model) : M unit :=
  fun w => (Ok tt, mkWorld (experiment w) (<[l := m]> (heap w)) (fs w)
                     (calls w)).

(** [self.func(self.path)]: the call is logged. *)
Definition call_func (m : Model) : M FuncOut :=
  fun w => (Ok (func m (path m)),
            mkWorld (experiment w) (heap w) (fs w) (calls w ++ [path m])).

Definition os_makedirs (p : string) : M unit :=
  fun w =>
    match makedirs p (fs w) with
    | Ok fs' => (Ok tt, mkWorld (experiment w) (heap w) fs' (calls w))
    | Raise e => (Raise e, w)
    end.

Definition os_listdir (p : string) : M (list string) :=
  fun w => (listdir p (fs w), w).

(** [os.path.exists(p)] *)
Definition os_path_exists (p : string) : M bool :=
  fun w => (Ok (bool_decide (p ∈ regular (fs w))
                || bool_decide (is_Some (listing (fs w) !! p))), w).

Fixpoint forM {A} (l : list A) (body : A -> M unit) : M unit :=
  match l with
  | [] => ret tt
  | x :: l' => do _ <- body x; forM l' body
  end.

Fixpoint mapM {A B} (f : A -> M B) (l : list A) : M (list B) :=
  match l with
  | [] => ret []
  | x :: l' => do y <- f x; do ys <- mapM f l'; ret (y :: ys)
  end.

(** [Model.create_forecast(start_date, test_date, name)] on the model
    object at [l]. *)
Definition create_forecast (l : loc) (start_date_ test_date_ : date)
    (name_ : option string) : M Forecast :=
  do m <- deref l;
  let horizon := time_horizon start_date_ test_date_ in
  do out <- call_func m;
  let forecast := GriddedForecast name_ out start_date_ test_date_ in
  let forecast := scale forecast horizon in
  do _ <- store l (mkModel (name m) (path m) (func m)
                     (<[Some test_date_ := forecast]> (forecasts m)));
  ret forecast.

(** [Experiment.get_forecast(model)]; [model] may be [None]. *)
Definition get_forecast (model : option loc) : M Forecast :=
  match model with
  | None => raise (AttributeError "forecasts")
  | Some l =>
      do exp <- self;
      do m <- deref l;
      (* if already bound to model class, simply return *)
      match forecasts m !! test_date exp with
      | Some forecast => ret forecast
      | None =>
          (* this call binds to model class *)
          create_forecast l (start_date exp) (end_date exp) (Some (name m))
      end
  end.

(** [Experiment.get_model(name)]: the first model of that name, [None]
    when the loop ends without one. *)
Fixpoint get_model_in (ls : list loc) (name_ : option string)
  : M (option loc) :=
  match ls with
  | [] => ret None
  | l :: ls' =>
      do m <- deref l;
      if bool_decide (Some (name m) = name_) then ret (Some l)
      else get_model_in ls' name_
  end.

Definition get_model (name_ : option string) : M (option loc) :=
  do exp <- self; get_model_in (models exp) name_.

(** A dictionary comprehension whose value expression is a method call. *)
Fixpoint dictM {A V} (key : A -> string) (val : A -> M V) (l : list A)
    (d : gmap string V) : M (gmap string V) :=
  match l with
  | [] => ret d
  | x :: l' => do v <- val x; dictM key val l' (<[key x := v]> d)
  end.

Definition set_run_struct (e : Experiment) (run_folder_ : string)
    (target_paths_ : TargetPaths) (exists__ : Exists) : Experiment :=
  mkExperiment (start_date e) (end_date e) (test_date e) (catalog_reader e)
    (models e) (tests e) (Some run_folder_) (Some target_paths_)
    (Some exists__) (catalog e) (magnitude_range e).

(** [Experiment.get_run_struct(run_name)] *)
Definition get_run_struct (run_name : option string)
  : M (string * Exists * TargetPaths) :=
  do exp <- self;
  match test_date exp with
  | None =>
      raise (RuntimeError "Test date must be set before running experiment.")
  | Some test_date_ =>
      (* grab names for creating directories *)
      let tests_ := map test_name (tests exp) in
      do models_ <- mapM (fun l => do m <- deref l; ret (name m)) (models exp);
      (* use the test date by default *)
      let run_name :=
        match run_name with
        | None => remove_char ":"%char
                    (remove_char "-"%char (isoformat test_date_))
        | Some n => n
        end in
      (* determine required directory structure for run *)
      let parent_dir := "." in
      let results_dir := "results" in
      let run_folder_ := join [parent_dir; results_dir; run_name] in
      let folder_paths :=
        odict_comp (fun folder => folder)
          (fun folder => join [run_folder_; folder]) folders in
      (* create directories if they don't exist *)
      do _ <- forM folder_paths (fun '(key, val) => os_makedirs val);
      do files <-
        dictM fst (fun '(name_, path_) => os_listdir path_) folder_paths ∅;
      do cat_files <- lift (getitem files "catalog");
      do evals_exist <-
        dictM (fun test => test)
          (fun test =>
             dictM (fun model => model)
               (fun model =>
                  do eval_files <- lift (getitem files "evaluations");
                  ret (existsb (str_in (test +:+ "_" +:+ model)) eval_files))
               models_ ∅)
          tests_ ∅;
      let exists__ := mkExists false (any_truthy cat_files) evals_exist in
      do cat_dir <- lift (oget folder_paths "catalog");
      do evals <-
        dictM (fun test => test)
          (fun test =>
             dictM (fun model => model)
               (fun model =>
                  do eval_dir <- lift (oget folder_paths "evaluations");
                  ret (join [eval_dir; test +:+ "_" +:+ model]))
               models_ ∅)
          tests_ ∅;
      do figs <-
        dictM (fun test => test)
          (fun test =>
             do fig_dir <- lift (oget folder_paths "figures");
             ret (join [fig_dir; test]))
          tests_ ∅;
      let target_paths_ :=
        mkTargetPaths None (join [cat_dir; "catalog.json"]) evals figs in
      (* store in experiment configuration *)
      do exp <- self;
      do _ <- set_experiment
                (set_run_struct exp run_folder_ target_paths_ exists__);
      ret (run_folder_, exists__, target_paths_)
  end.

Definition set_catalog (c : Catalog) : M unit :=
  do e <- self;
  set_experiment
    (mkExperiment (start_date e) (end_date e) (test_date e)
       (catalog_reader e) (models e) (tests e) (run_folder e)
       (target_paths e) (exists_ e) (Some c) (magnitude_range e)).

(** [Experiment.get_catalog()] *)
Definition get_catalog : M Catalog :=
  do exp <- self;
  match catalog exp with
  | Some c => ret c
  | None =>
      match target_paths exp with
      | None => raise (AttributeError "target_paths")
      | Some tp =>
          do found <- os_path_exists (catalog_path tp);
          if found then
            let c := load_json (catalog_path tp) in
            do _ <- set_catalog c; ret c
          else
            match magnitude_range exp with
            | None => raise (AttributeError "magnitude_range")
            | Some mags =>
                let min_mag := min_magnitude mags in
                match catalog_reader exp with
                | None => raise TypeError
                | Some reader =>
                    let c := reader (test_date exp) (start_date exp)
                               (test_date exp) min_mag in
                    let c := filter_latitude c in
                    do _ <- set_catalog c; ret c
                end
            end
      end
  end.

(** [Experiment._prepare_test_func_args(test, model)] *)
Definition _prepare_test_func_args (test : Test) (model : loc)
  : M TestArgs :=
  do forecast <- get_forecast (Some model);
  do c <- get_catalog;
  let c := with_region c (forecast_region forecast) in
  match ref_model test with
  | Some _ =>
      do ref_model_ <- get_model (ref_model test);
      do ref_forecast <- get_forecast ref_model_;
      ret (Comparison forecast ref_forecast c)
  | None => ret (Consistency forecast c)
  end.

(** The loop-carried list of [prepare_all_tests]. *)
Fixpoint forM_acc {A S} (l : list A) (body : A -> S -> M S) (s : S) : M S :=
  match l with
  | [] => ret s
  | x :: l' => do s' <- body x s; forM_acc l' body s'
  end.

(** [Experiment.prepare_all_tests()] *)
Definition prepare_all_tests : M (list Test) :=
  do exp <- self;
  let test_list := [] in
  do test_list <-
    forM_acc (models exp)
      (fun model test_list =>
         forM_acc (tests exp)
           (fun test test_list =>
              do m <- deref model;
              (* skip t-test if model is the same as ref_model *)
              if bool_decide (ref_model test = Some (name m))
              then ret test_list
              else
                (* prepare args so test is callable *)
                do args <- _prepare_test_func_args test model;
                do exp' <- self;
                do path_ <-
                  match target_paths exp' with
                  | None => raise (AttributeError "target_paths")
                  | Some tp =>
                      do m <- deref model;
                      lift (let* by_model :=
                              getitem (evaluations_path tp) (test_name test) in
                            getitem by_model (name m))
                  end;
                let t :=
                  mkTest (test_name test) (test_func test) (Some args)
                    (func_kwargs test) (plot_func test) (plot_args test)
                    (Some model) (ref_model test) (Some path_) in
                ret (test_list ++ [t]))
           test_list)
      test_list;
  ret test_list.

(** *** The run structure needs a test date *)

(** C10. Called while [test_date] is [None], [get_run_struct] raises a
    [RuntimeError] and leaves the world as it found it: no directory is
    created, and [run_folder], [target_paths] and [exists], unset before
    the call, are unset after it. *)
Theorem get_run_struct_requires_test_date (run_name : option string)
    (w : World) :
  test_date (experiment w) = None ->
  exists w',
    get_run_struct run_name w
    = (Raise (RuntimeError "Test date must be set before running experiment."),
       w')
    /\ w' = w
    /\ fs w' = fs w
    /\ (run_folder (experiment w) = None ->
        target_paths (experiment w) = None ->
        exists_ (experiment w) = None ->
        run_folder (experiment w') = None
        /\ target_paths (experiment w') = None
        /\ exists_ (experiment w') = None).
Proof.
  intros Hdate. exists w. split; [|by auto].
  unfold get_run_struct, bind, self. by rewrite Hdate.
Qed.

(** *** The forecast cache *)

(** The specification's rule for a second request for the forecast of the
    same window,
    for both ways of requesting and for any reading [present] of "the file
    registry reports the output file present": with the file present the
    second request returns the forecast of the first and calls no model
    function; with the file absent it regenerates, which calls one. *)
Definition second_request_policy (present : World -> loc -> bool)
    (w : World) (l : loc) : Prop :=
  (forall f1 w1 r2 w2,
     get_forecast (Some l) w = (Ok f1, w1) ->
     get_forecast (Some l) w1 = (r2, w2) ->
     if present w1 l then r2 = Ok f1 /\ calls w2 = calls w1
     else calls w2 <> calls w1)
  /\ (forall s e n f1 w1 r2 w2,
        create_forecast l s e n w = (Ok f1, w1) ->
        create_forecast l s e n w1 = (r2, w2) ->
        if present w1 l then r2 = Ok f1 /\ calls w2 = calls w1
        else calls w2 <> calls w1).

Lemma create_forecast_runs (l : loc) (s e : date) (n : option string)
    (w : World) (m : Model) :
  heap w !! l = Some m ->
  let f := scale (GriddedForecast n (func m (path m)) s e) (time_horizon s e) in
  create_forecast l s e n w
  = (Ok f,
     mkWorld (experiment w)
       (<[l := mkModel (name m) (path m) (func m)
                 (<[Some e := f]> (forecasts m))]> (heap w))
       (fs w) (calls w ++ [path m])).
Proof.
  intros Hl. unfold create_forecast, bind, deref, call_func, store, ret.
  rewrite Hl. simpl. done.
Qed.

Lemma get_forecast_hit (l : loc) (w : World) (m : Model) (f : Forecast) :
  heap w !! l = Some m ->
  forecasts m !! test_date (experiment w) = Some f ->
  get_forecast (Some l) w = (Ok f, w).
Proof.
  intros Hl Hf. unfold get_forecast, bind, self, deref, ret.
  rewrite Hl, Hf. done.
Qed.

Lemma get_forecast_miss (l : loc) (w : World) (m : Model) :
  heap w !! l = Some m ->
  forecasts m !! test_date (experiment w) = None ->
  get_forecast (Some l) w
  = create_forecast l (start_date (experiment w)) (end_date (experiment w))
      (Some (name m)) w.
Proof.
  intros Hl Hf. unfold get_forecast, bind, self, deref.
  rewrite Hl, Hf. done.
Qed.

(** C3, as the code has it.  [get_forecast] returns the entry of the
    model's forecast mapping under the experiment's test date, when there
    is one, without calling the model function and without changing
    anything; so when the test date is the end date, under which
    [create_forecast] stores, a second request returns the forecast of the
    first and calls nothing.  [create_forecast] itself calls the model
    function on every call and stores the result under its [test_date]
    argument. *)
Theorem get_forecast_cached (w : World) (l : loc) (m : Model) :
  heap w !! l = Some m ->
  (forall f,
     forecasts m !! test_date (experiment w) = Some f ->
     get_forecast (Some l) w = (Ok f, w))
  /\ (test_date (experiment w) = Some (end_date (experiment w)) ->
      exists f w1,
        get_forecast (Some l) w = (Ok f, w1)
        /\ get_forecast (Some l) w1 = (Ok f, w1))
  /\ (forall s e n,
        exists f w1 m1,
          create_forecast l s e n w = (Ok f, w1)
          /\ f = scale (GriddedForecast n (func m (path m)) s e)
                   (time_horizon s e)
          /\ calls w1 = calls w ++ [path m]
          /\ heap w1 !! l = Some m1
          /\ forecasts m1 !! Some e = Some f).
Proof.
  intros Hl. split; [intros f; by apply get_forecast_hit|]. split.
  - intros Hdate.
    destruct (forecasts m !! test_date (experiment w)) as [f|] eqn:Hf.
    + exists f, w. by rewrite (get_forecast_hit l w m f).
    + rewrite (get_forecast_miss l w m) by done.
      rewrite (create_forecast_runs _ _ _ _ _ m) by done. cbn zeta.
      do 2 eexists. split; [done|].
      eapply get_forecast_hit; simpl.
      * apply lookup_insert_eq.
      * simpl. rewrite Hdate. apply lookup_insert_eq.
  - intros s e n. rewrite (create_forecast_runs _ _ _ _ _ m) by done.
    cbn zeta. do 3 eexists. split; [done|]. split; [done|]. simpl.
    split; [done|]. split; [apply lookup_insert_eq|].
    simpl. apply lookup_insert_eq.
Qed.

(** *** [prepare_all_tests] leaves the reference model out *)

Lemma bind_ok {A B} (c : M A) (k : A -> M B) (w w' : World) (b : B) :
  bind c k w = (Ok b, w') ->
  exists a w1, c w = (Ok a, w1) /\ k a w1 = (Ok b, w').
Proof.
  unfold bind. destruct (c w) as [[a|e] w1]; [|done]. intros H. by exists a, w1.
Qed.

(** No method renames a model. *)
Definition names_kept (w w' : World) : Prop :=
  forall l, name <$> heap w' !! l = name <$> heap w !! l.

Lemma names_kept_refl (w : World) : names_kept w w.
Proof. done. Qed.

Lemma names_kept_trans (w1 w2 w3 : World) :
  names_kept w1 w2 -> names_kept w2 w3 -> names_kept w1 w3.
Proof. intros H12 H23 l. by rewrite H23, H12. Qed.

Lemma names_kept_heap (w w' : World) : heap w' = heap w -> names_kept w w'.
Proof. intros H l. by rewrite H. Qed.

Lemma deref_ok (l : loc) (w w' : World) (m : Model) :
  deref l w = (Ok m, w') -> w' = w /\ heap w !! l = Some m.
Proof.
  unfold deref. destruct (heap w !! l); [|done]. by intros [= -> ->].
Qed.

Lemma create_forecast_names (l : loc) (s e : date) (n : option string)
    (w w' : World) (f : Forecast) :
  create_forecast l s e n w = (Ok f, w') -> names_kept w w'.
Proof.
  destruct (heap w !! l) as [m|] eqn:Hl.
  - rewrite (create_forecast_runs _ _ _ _ _ m) by done. cbn zeta.
    intros [= _ <-] l'. simpl.
    destruct (decide (l = l')) as [<-|Hne].
    + by rewrite lookup_insert_eq, Hl.
    + by rewrite lookup_insert_ne.
  - unfold create_forecast, bind, deref. by rewrite Hl.
Qed.

Lemma get_forecast_names (model : option loc) (w w' : World) (f : Forecast) :
  get_forecast model w = (Ok f, w') -> names_kept w w'.
Proof.
  destruct model as [l|]; [|done]. simpl. intros H.
  apply bind_ok in H as (exp & w1 & [= <- <-] & H).
  apply bind_ok in H as (m & w1 & Hd & H).
  apply deref_ok in Hd as [-> Hl].
  destruct (forecasts m !! test_date (experiment w)).
  - injection H as _ <-. apply names_kept_refl.
  - by eapply create_forecast_names.
Qed.

Lemma get_model_in_state (ls : list loc) (n : option string) (w w' : World)
    (o : option loc) :
  get_model_in ls n w = (Ok o, w') -> w' = w.
Proof.
  induction ls as [|l ls IH]; simpl.
  - by intros [= _ <-].
  - intros H. apply bind_ok in H as (m & w1 & Hd & H).
    apply deref_ok in Hd as [-> _].
    destruct (bool_decide _); [by injection H as _ <-|by apply IH].
Qed.

Lemma set_catalog_heap (c : Catalog) (w w' : World) (u : unit) :
  set_catalog c w = (Ok u, w') -> heap w' = heap w.
Proof. unfold set_catalog, bind, self, set_experiment. by intros [= _ <-]. Qed.

Lemma get_catalog_heap (w w' : World) (c : Catalog) :
  get_catalog w = (Ok c, w') -> heap w' = heap w.
Proof.
  unfold get_catalog. intros H.
  apply bind_ok in H as (exp & w1 & [= <- <-] & H).
  destruct (catalog (experiment w)); [by injection H as _ <-|].
  destruct (target_paths (experiment w)) as [tp|]; [|done].
  apply bind_ok in H as (found & w1 & [= <- <-] & H).
  destruct (bool_decide _ || bool_decide _).
  - apply bind_ok in H as (u & w1 & Hs & [= _ <-]).
    by eapply set_catalog_heap.
  - destruct (magnitude_range (experiment w)); [|done].
    destruct (catalog_reader (experiment w)); [|done].
    apply bind_ok in H as (u & w1 & Hs & [= _ <-]).
    by eapply set_catalog_heap.
Qed.

Lemma _prepare_test_func_args_names (test : Test) (model : loc)
    (w w' : World) (args : TestArgs) :
  _prepare_test_func_args test model w = (Ok args, w') -> names_kept w w'.
Proof.
  unfold _prepare_test_func_args. intros H.
  apply bind_ok in H as (f & w1 & Hf & H).
  apply get_forecast_names in Hf.
  apply bind_ok in H as (c & w2 & Hc & H).
  apply get_catalog_heap, names_kept_heap in Hc.
  pose proof (names_kept_trans _ _ _ Hf Hc) as H12.
  destruct (ref_model test).
  - apply bind_ok in H as (r & w3 & Hr & H).
    unfold get_model in Hr.
    apply bind_ok in Hr as (exp & w2' & [= <- <-] & Hr).
    apply get_model_in_state in Hr as ->.
    apply bind_ok in H as (rf & w4 & Hrf & [= _ <-]).
    apply get_forecast_names in Hrf. by eapply names_kept_trans.
  - by injection H as _ <-.
Qed.

Lemma forM_acc_inv {A S} (I : S -> World -> Prop) (l : list A)
    (body : A -> S -> M S) :
  (forall x s w s' w', In x l -> I s w -> body x s w = (Ok s', w') -> I s' w') ->
  forall s w s' w',
    I s w -> forM_acc l body s w = (Ok s', w') -> I s' w'.
Proof.
  induction l as [|x l IH]; intros Hbody s w s' w' HI H; simpl in H.
  - by injection H as <- <-.
  - apply bind_ok in H as (s1 & w1 & Hx & H).
    eapply IH; [|eapply Hbody; [by left|done|done]|done].
    intros; eapply Hbody; [by right|done|done].
Qed.

(** No prepared test pairs a model with itself as the reference. *)
Definition no_self_comparison (ts : list Test) (w : World) : Prop :=
  forall t, In t ts ->
    exists l,
      test_model t = Some l
      /\ forall m, heap w !! l = Some m -> ref_model t <> Some (name m).

Lemma no_self_comparison_kept (ts : list Test) (w w' : World) :
  names_kept w w' -> no_self_comparison ts w -> no_self_comparison ts w'.
Proof.
  intros Hk Hn t Ht. destruct (Hn t Ht) as (l & Hl & Hne).
  exists l. split; [done|]. intros m' Hm'.
  specialize (Hk l). rewrite Hm' in Hk.
  destruct (heap w !! l) as [m|] eqn:Hm; [|done].
  injection Hk as ->. by apply Hne.
Qed.

(** The tests [prepare_all_tests] returns skip every (model, test) pair in
    which the model is the test's own reference model. *)
Lemma prepare_all_tests_skips_reference (w w' : World) (ts : list Test) :
  prepare_all_tests w = (Ok ts, w') -> no_self_comparison ts w'.
Proof.
  unfold prepare_all_tests. intros H.
  apply bind_ok in H as (exp & w1 & [= <- <-] & H).
  apply bind_ok in H as (ts' & w1 & H & [= <- <-]).
  revert H. apply (forM_acc_inv no_self_comparison); [|by intros t []].
  intros model acc wa acc' wa' _ Hacc.
  apply (forM_acc_inv no_self_comparison); [|done].
  intros test tl u tl' u' _ Htl Hb.
  apply bind_ok in Hb as (m & u1 & Hd & Hb).
  apply deref_ok in Hd as [-> Hm].
  destruct (bool_decide (ref_model test = Some (name m))) eqn:Hskip.
  - by injection Hb as <- <-.
  - apply bool_decide_eq_false in Hskip.
    apply bind_ok in Hb as (args & u1 & Hargs & Hb).
    apply _prepare_test_func_args_names in Hargs.
    apply bind_ok in Hb as (exp' & u2 & [= <- <-] & Hb).
    apply bind_ok in Hb as (p & u2 & Hp & [= <- <-]).
    assert (u2 = u1) as ->.
    { destruct (target_paths (experiment u1)); [|done].
      apply bind_ok in Hp as (m' & u3 & Hd & Hp).
      apply deref_ok in Hd as [-> _]. by injection Hp as _ <-. }
    intros t Ht. apply in_app_or in Ht as [Ht|[<-|[]]].
    + by apply (no_self_comparison_kept tl u u1).
    + exists model. split; [done|]. simpl. intros m' Hm'.
      specialize (Hargs model). rewrite Hm, Hm' in Hargs.
      injection Hargs as ->. done.
Qed.

(** *** The forecast cache is keyed by two different dates *)

(** X10. [get_forecast] looks a forecast up under the experiment's test
    date, and [create_forecast] stores it under the end date.  So while
    the test date is not the end date and nothing is stored under the test
    date, the lookup never succeeds: two requests in a row both call the
    model function, and both return the same forecast. *)
Theorem get_forecast_never_cached (w : World) (l : loc) (m : Model) :
  heap w !! l = Some m ->
  forecasts m !! test_date (experiment w) = None ->
  test_date (experiment w) <> Some (end_date (experiment w)) ->
  exists f w1 w2,
    get_forecast (Some l) w = (Ok f, w1)
    /\ get_forecast (Some l) w1 = (Ok f, w2)
    /\ calls w1 = calls w ++ [path m]
    /\ calls w2 = calls w ++ [path m; path m].
Proof.
  intros Hl Hf Hne.
  rewrite (get_forecast_miss l w m) by done.
  rewrite (create_forecast_runs _ _ _ _ _ m) by done. cbn zeta.
  do 3 eexists. split; [done|].
  erewrite get_forecast_miss;
    [|simpl; apply lookup_insert_eq
     |simpl; rewrite lookup_insert_ne; [done|congruence]].
  erewrite create_forecast_runs by (simpl; apply lookup_insert_eq).
  cbn zeta. simpl. split; [done|]. split; [done|].
  by rewrite <- app_assoc.
Qed.

(** *** The catalog is fetched once *)

(** X11. Once [get_catalog] has returned a catalog, the experiment holds
    it: a second call returns the same catalog and changes nothing, and
    neither call touches the models, the files or the model functions. *)
Theorem get_catalog_cached (w w1 : World) (c : Catalog) :
  get_catalog w = (Ok c, w1) ->
  get_catalog w1 = (Ok c, w1)
  /\ catalog (experiment w1) = Some c
  /\ heap w1 = heap w /\ fs w1 = fs w /\ calls w1 = calls w.
Proof.
  unfold get_catalog at 1. intros H.
  apply bind_ok in H as (exp & w0 & [= <- <-] & H).
  assert (Hhit : forall u, catalog (experiment u) = Some c ->
                           get_catalog u = (Ok c, u)).
  { intros u Hu. unfold get_catalog, bind, self, ret. by rewrite Hu. }
  destruct (catalog (experiment w)) as [c0|] eqn:Hc.
  - injection H as <- <-. by rewrite Hhit.
  - destruct (target_paths (experiment w)) as [tp|]; [|done].
    apply bind_ok in H as (found & w0 & [= <- <-] & H).
    destruct (bool_decide _ || bool_decide _).
    + apply bind_ok in H as (u & w0 & [= _ <-] & [= <- <-]).
      by rewrite Hhit.
    + destruct (magnitude_range (experiment w)); [|done].
      destruct (catalog_reader (experiment w)); [|done].
      apply bind_ok in H as (u & w0 & [= _ <-] & [= <- <-]).
      by rewrite Hhit.
Qed.

(** *** A reference model that is not in the experiment *)

Lemma get_forecast_experiment (model : option loc) (w w' : World)
    (r : result Forecast) :
  get_forecast model w = (r, w') -> experiment w' = experiment w.
Proof.
  destruct model as [l|]; simpl; [|by intros [= _ <-]].
  unfold bind, self, deref. destruct (heap w !! l) as [m|] eqn:Hl.
  - destruct (forecasts m !! test_date (experiment w)).
    + by intros [= _ <-].
    + unfold create_forecast, bind, deref, call_func, store, ret.
      rewrite Hl. simpl. by intros [= _ <-].
  - by intros [= _ <-].
Qed.

Lemma get_catalog_models (w w' : World) (c : Catalog) :
  get_catalog w = (Ok c, w') ->
  models (experiment w') = models (experiment w)
  /\ tests (experiment w') = tests (experiment w)
  /\ target_paths (experiment w') = target_paths (experiment w).
Proof.
  unfold get_catalog. intros H.
  apply bind_ok in H as (exp & w1 & [= <- <-] & H).
  destruct (catalog (experiment w)); [by injection H as _ <-|].
  destruct (target_paths (experiment w)) as [tp|] eqn:Htp; [|done].
  apply bind_ok in H as (found & w1 & [= <- <-] & H).
  destruct (bool_decide _ || bool_decide _).
  - by apply bind_ok in H as (u & w1 & [= _ <-] & [= _ <-]).
  - destruct (magnitude_range (experiment w)); [|done].
    destruct (catalog_reader (experiment w)); [|done].
    by apply bind_ok in H as (u & w1 & [= _ <-] & [= _ <-]).
Qed.

Lemma get_model_in_absent (ls : list loc) (r : string) (w : World) :
  (forall l, In l ls -> exists m, heap w !! l = Some m /\ name m <> r) ->
  get_model_in ls (Some r) w = (Ok None, w).
Proof.
  induction ls as [|l ls IH]; intros H; simpl; [done|].
  destruct (H l) as (m & Hl & Hne); [by left|].
  unfold bind, deref. rewrite Hl.
  rewrite bool_decide_eq_false_2 by congruence.
  apply IH. intros; apply H; by right.
Qed.

Lemma names_kept_lookup (w w' : World) (l : loc) (m : Model) :
  names_kept w w' -> heap w !! l = Some m ->
  exists m', heap w' !! l = Some m' /\ name m' = name m.
Proof.
  intros Hk Hl. specialize (Hk l). rewrite Hl in Hk.
  destruct (heap w' !! l) as [m'|]; [|done].
  injection Hk as Hn. by exists m'.
Qed.

(** X12. A comparative test whose [ref_model] names no model of the
    experiment cannot be prepared: once the forecast of the tested model
    and the catalog have been obtained, [get_model] returns [None] and
    the request for its forecast raises [AttributeError].  The work done
    before stays done. *)
Theorem _prepare_test_func_args_unresolved_ref_model (test : Test)
    (model : loc) (r : string) (w w1 w2 : World) (f : Forecast)
    (c : Catalog) :
  ref_model test = Some r ->
  (forall l, In l (models (experiment w)) ->
     exists m, heap w !! l = Some m /\ name m <> r) ->
  get_forecast (Some model) w = (Ok f, w1) ->
  get_catalog w1 = (Ok c, w2) ->
  _prepare_test_func_args test model w
  = (Raise (AttributeError "forecasts"), w2).
Proof.
  intros Href Hnone Hf Hc.
  pose proof (get_forecast_experiment _ _ _ _ Hf) as He1.
  pose proof (get_forecast_names _ _ _ _ Hf) as Hk1.
  pose proof (get_catalog_models _ _ _ Hc) as (Hm2 & _ & _).
  pose proof (names_kept_heap _ _ (get_catalog_heap _ _ _ Hc)) as Hk2.
  unfold _prepare_test_func_args.
  unfold bind at 1. rewrite Hf. unfold bind at 1. rewrite Hc.
  rewrite Href. unfold bind at 1. unfold get_model, bind at 1, self.
  rewrite (get_model_in_absent _ r w2); [done|].
  intros l Hl. rewrite Hm2, He1 in Hl.
  destruct (Hnone l Hl) as (m & Hhl & Hne).
  destruct (names_kept_lookup w w2 l m) as (m' & Hl' & Hn');
    [by eapply names_kept_trans|done|].
  exists m'. split; [done|congruence].
Qed.

(** *** Which tests [prepare_all_tests] prepares, and in which order *)

Lemma forM_acc_emits {A B K} (I : World -> Prop) (key : B -> K)
    (emit : A -> list K) (l : list A) (body : A -> list B -> M (list B)) :
  (forall x acc u acc' u',
     In x l -> I u -> body x acc u = (Ok acc', u') ->
     I u' /\ map key acc' = map key acc ++ emit x) ->
  forall acc w acc' w',
    I w -> forM_acc l body acc w = (Ok acc', w') ->
    I w' /\ map key acc' = map key acc ++ flat_map emit l.
Proof.
  induction l as [|x l IH]; intros Hbody acc w acc' w' HI H; simpl in H.
  - injection H as <- <-. simpl. by rewrite app_nil_r.
  - apply bind_ok in H as (acc1 & w1 & Hx & H).
    destruct (Hbody x acc w acc1 w1) as [HI1 Hacc1]; [by left|done|done|].
    destruct (IH (fun y a u a' u' Hy => Hbody y a u a' u' (or_intror Hy))
                acc1 w1 acc' w' HI1 H) as [HI' Hacc'].
    split; [done|]. simpl. by rewrite Hacc', Hacc1, <- app_assoc.
Qed.

(** What identifies a prepared test: the model it is bound to, its name
    and its reference model. *)
Definition pairing : Type := option loc * string * option string.

Definition pairing_of (t : Test) : pairing :=
  (test_model t, test_name t, ref_model t).

(** The tests prepared for the model at [l]: those whose [ref_model] is
    not the name of that model. *)
Definition tests_for (w : World) (l : loc) (ts : list Test) : list Test :=
  filter (fun t => ref_model t <> (name <$> heap w !! l)) ts.

Lemma flat_map_tests_for (w : World) (l : loc) (ts : list Test) :
  flat_map
    (fun t =>
       if bool_decide (ref_model t = (name <$> heap w !! l)) then []
       else [(Some l, test_name t, ref_model t)])
    ts
  = map (fun t => (Some l, test_name t, ref_model t)) (tests_for w l ts).
Proof.
  unfold tests_for. induction ts as [|t ts IH]; simpl; [done|].
  rewrite filter_cons.
  destruct (decide (ref_model t <> (name <$> heap w !! l))) as [Hne|He].
  - rewrite bool_decide_eq_false_2 by done. simpl. by rewrite IH.
  - apply dec_stable in He. rewrite bool_decide_eq_true_2 by done.
    simpl. by rewrite IH.
Qed.

(** X13. The list [prepare_all_tests] returns holds, model by model in the
    order of the experiment's models and, within a model, in the order of
    the experiment's tests, one prepared test for every test whose
    [ref_model] is not that model's name, bound to that model and with
    the name and reference model of the configured test; no model is
    renamed on the way. *)
Theorem prepare_all_tests_pairs (w w' : World) (ts : list Test) :
  prepare_all_tests w = (Ok ts, w') ->
  map pairing_of ts
  = flat_map
      (fun l =>
         map (fun t => (Some l, test_name t, ref_model t))
           (tests_for w l (tests (experiment w))))
      (models (experiment w))
  /\ names_kept w w'.
Proof.
  unfold prepare_all_tests. intros H.
  apply bind_ok in H as (exp & w1 & [= <- <-] & H).
  apply bind_ok in H as (ts' & w1 & H & [= <- <-]).
  apply (forM_acc_emits (names_kept w) pairing_of
           (fun l =>
              map (fun t => (Some l, test_name t, ref_model t))
                (tests_for w l (tests (experiment w)))))
    in H as [Hk Hts]; [done| |apply names_kept_refl].
  clear. intros model acc u acc' u' _ Hu Hin.
  rewrite <- flat_map_tests_for.
  revert Hu Hin. generalize (tests (experiment w)). intros tests_ Hu Hin.
  revert acc u acc' u' Hu Hin.
  apply (forM_acc_emits (names_kept w) pairing_of).
  intros test tl v tl' v' _ Hv Hb.
  apply bind_ok in Hb as (m & v1 & Hd & Hb).
  apply deref_ok in Hd as [-> Hm].
  assert (Hname : name <$> heap w !! model = Some (name m)).
  { rewrite <- (Hv model), Hm. done. }
  rewrite Hname.
  destruct (bool_decide (ref_model test = Some (name m))).
  - injection Hb as <- <-. by rewrite app_nil_r.
  - apply bind_ok in Hb as (args & v1 & Hargs & Hb).
    apply _prepare_test_func_args_names in Hargs.
    apply bind_ok in Hb as (exp' & v2 & [= <- <-] & Hb).
    apply bind_ok in Hb as (p & v2 & Hp & [= <- <-]).
    assert (v2 = v1) as ->.
    { destruct (target_paths (experiment v1)); [|done].
      apply bind_ok in Hp as (m' & v3 & Hd & Hp).
      apply deref_ok in Hd as [-> _]. by injection Hp as _ <-. }
    split; [by eapply names_kept_trans|].
    by rewrite map_app.
Qed.

(** *** The run structure *)





(** The name of the run directory: the [run_name] argument or, by default,
    the ISO form of the test date without its dashes and colons. *)
Definition run_name_of (run_name : option string) (test_date_ : date)
  : string :=
  match run_name with
  | None => remove_char ":"%char (remove_char "-"%char (isoformat test_date_))
  | Some n => n
  end.

Definition run_dir (run_name : option string) (test_date_ : date) : string :=
  join ["."; "results"; run_name_of run_name test_date_].



End Engine.

End Gefe.

(** ** floatcsep/registry.py *)
Module Floatcsep.

Definition datetime : Type := Z.
Definition timewindow : Type := (datetime * datetime)%type.

(** What a registry dictionary can hold at a key: a path, a nested
    dictionary, or an object that is neither (a model's own registry). *)
#[warnings="-register-all"]
Inductive tree : Type :=
| Leaf (s : string)
| Node (d : gmap string tree)
| Object.

(** The arguments the getters are called with: a time window (a list or
    tuple of two datetimes), a list of time windows, a string, or any other
    object, given by its [name] and [__name__] attributes where it has
    them. *)
Inductive Arg : Type :=
| Window (tw : timewindow)
| Windows (tws : list timewindow)
| Str (s : string)
| Obj (name __name__ : option string).

(** What [_parse_arg] returns: [Union[str, list[str]]]. *)
Inductive Parsed : Type :=
| PStr (s : string)
| PStrs (l : list string).

(** Modelled from the spec: [floatcsep.model.Model] and
    [floatcsep.evaluation.Evaluation] are not among the sources;
    [build_tree] reads their [name] only. *)
Record Model : Type := mkModel { model_name : string }.
Record Evaluation : Type := mkEvaluation { test_name : string }.

(** [ExperimentRegistry] *)
Record ExperimentRegistry : Type := mkRegistry {
  workdir : string;
  run_dir : string;
  results : gmap string tree;
  test_catalogs : gmap string tree;
  figures : gmap string tree;
  repr_config : string;
  forecast_registries : gset string
}.

(** [self.__dict__] *)
Definition __dict__ (self : ExperimentRegistry) : gmap string tree :=
  <["forecast_registries" :=
      Node (gset_to_gmap Object (forecast_registries self))]>
  (<["repr_config" := Leaf (repr_config self)]>
  (<["figures" := Node (figures self)]>
  (<["test_catalogs" := Node (test_catalogs self)]>
  (<["results" := Node (results self)]>
  (<["run_dir" := Leaf (run_dir self)]>
  (<["workdir" := Leaf (workdir self)]> ∅)))))).

(** [val[parsed_arg]] *)
Definition subscript (val : tree) (parsed_arg : Parsed) : result tree :=
  match val, parsed_arg with
  | Node d, PStr k => getitem d k
  | Node d, PStrs _ => Raise TypeError
  | Leaf _, _ => Raise TypeError
  | Object, _ => Raise TypeError
  end.

Definition subfolders : list string := ["catalog"; "evaluations"; "figures"].

Section Registry.

(** [floatcsep.utils.timewindow2str] is not among the sources: the
    canonical string of one window is a parameter, and the call on a list
    of windows is its pointwise image. *)
Variable timewindow2str : timewindow -> string.

(** [os.path.join], [os.path.abspath], [os.path.normpath]. *)
Variable join : list string -> string.
Variable abspath normpath : string -> string.

(** [BaseFileRegistry._parse_arg] *)
Definition _parse_arg (arg : Arg) : result Parsed :=
  match arg with
  | Window tw => Ok (PStr (timewindow2str tw))
  | Windows tws => Ok (PStrs (map timewindow2str tws))
  | Str s => Ok (PStr s)
  | Obj (Some name) _ => Ok (PStr name)
  | Obj None (Some __name__) => Ok (PStr __name__)
  | Obj None None => Raise (Exception "Arg is not found")
  end.

(** [BaseFileRegistry.abs], called with the path components *)
Definition abs (self : ExperimentRegistry) (paths : list string) : string :=
  normpath (abspath (join (workdir self :: paths))).

(** [self.abs(self.run_dir, val)]: [os.path.join] takes strings only. *)
Definition abs_run (self : ExperimentRegistry) (val : tree) : result string :=
  match val with
  | Leaf s => Ok (abs self [run_dir self; s])
  | Node _ => Raise TypeError
  | Object => Raise TypeError
  end.

(** The loop shared by the four getters:
    [for i in args: parsed_arg = self._parse_arg(i); val = val[parsed_arg]] *)
Definition descend (val : tree) (args : list Arg) : result tree :=
  for_ args
    (fun i val =>
       let* parsed_arg := _parse_arg i in
       subscript val parsed_arg)
    val.

(** [ExperimentRegistry.get], called with the key sequence *)
Definition get (self : ExperimentRegistry) (args : list Arg) : result string :=
  let val := Node (__dict__ self) in
  let* val := descend val args in
  abs_run self val.

(** [ExperimentRegistry.get_result], called with the key sequence *)
Definition get_result (self : ExperimentRegistry) (args : list Arg)
  : result string :=
  let val := Node (results self) in
  let* val := descend val args in
  abs_run self val.

(** [ExperimentRegistry.get_test_catalog], called with the key sequence *)
Definition get_test_catalog (self : ExperimentRegistry) (args : list Arg)
  : result string :=
  let val := Node (test_catalogs self) in
  let* val := descend val args in
  abs_run self val.

(** [ExperimentRegistry.get_figure], called with the key sequence *)
Definition get_figure (self : ExperimentRegistry) (args : list Arg)
  : result string :=
  let val := Node (figures self) in
  let* val := descend val args in
  abs_run self val.

(** [ExperimentRegistry.build_tree(timewindows, models, tests)], on the
    registry and the file system. *)
Definition build_tree (timewindows : list timewindow) (models : list Model)
    (tests : list Evaluation) (w : ExperimentRegistry * FS)
  : result (ExperimentRegistry * FS) :=
  let '(self, fs) := w in
  let windows := map timewindow2str timewindows in
  let models := map model_name models in
  let tests := map test_name tests in
  let run_folder := run_dir self in
  let dirtree :=
    odict_comp (fun win => win)
      (fun win =>
         odict_comp (fun folder => folder)
           (fun folder => abs self [run_folder; win; folder]) subfolders)
      windows in
  (* create directories if they don't exist *)
  let* fs := make_tree dirtree fs in
  let results_ :=
    dict_comp (fun win => win)
      (fun win =>
         Node (dict_comp (fun test => test)
                 (fun test =>
                    Node (dict_comp (fun model => model)
                            (fun model =>
                               Leaf (join [win; "evaluations";
                                           test +:+ "_" +:+ model
                                           +:+ ".json"]))
                            models))
                 tests))
      windows in
  let test_catalogs_ :=
    dict_comp (fun win => win)
      (fun win => Leaf (join [win; "catalog"; "test_catalog.json"]))
      windows in
  let figures_ :=
    dict_extend
      (<["main_catalog_time" := Leaf "events"]>
         (<["main_catalog_map" := Leaf "catalog"]> ∅))
      (fun win => win)
      (fun win =>
         Node (<["forecasts" :=
                   Node (dict_comp (fun model => model)
                           (fun model =>
                              Leaf (join [win; "figures";
                                          "forecast_" +:+ model]))
                           models)]>
               (<["magnitude_time" :=
                    Leaf (join [win; "figures"; "catalog_time"])]>
               (<["catalog" := Leaf (join [win; "figures"; "catalog_map"])]>
               (dict_comp (fun test => test)
                  (fun test => Leaf (join [win; "figures"; test]))
                  tests)))))
      windows in
  Ok (mkRegistry (workdir self) (run_dir self) results_ test_catalogs_
        figures_ (repr_config self) (forecast_registries self),
      fs).

(** The four getters, each with the dictionary it starts from. *)
Definition getters
  : list ((ExperimentRegistry -> list Arg -> result string)
          * (ExperimentRegistry -> tree)) :=
  [(get, fun self => Node (__dict__ self));
   (get_result, fun self => Node (results self));
   (get_test_catalog, fun self => Node (test_catalogs self));
   (get_figure, fun self => Node (figures self))].

(** [os.path.isabs] *)
Definition isabs (p : string) : bool := String.prefix "/" p.

(** *** Key resolution *)

Lemma for_app {A S} (l1 l2 : list A) (body : A -> S -> result S) (s : S) :
  for_ (l1 ++ l2) body s = let* s' := for_ l1 body s in for_ l2 body s'.
Proof.
  revert s. induction l1 as [|x l1 IH]; intros s; simpl; [done|].
  destruct (body x s); simpl; [apply IH|done].
Qed.

Lemma descend_app (val : tree) (pre post : list Arg) :
  descend val (pre ++ post)
  = let* v := descend val pre in descend v post.
Proof. apply for_app. Qed.

Lemma descend_missing (d : gmap string tree) (k : Arg) (post : list Arg)
    (s : string) :
  _parse_arg k = Ok (PStr s) -> d !! s = None ->
  descend (Node d) (k :: post) = Raise (KeyError s).
Proof.
  intros Hk Hd. unfold descend. simpl. rewrite Hk. simpl.
  unfold getitem. by rewrite Hd.
Qed.

Lemma getters_resolve
    (getter : ExperimentRegistry -> list Arg -> result string)
    (root : ExperimentRegistry -> tree) :
  In (getter, root) getters ->
  forall self args,
    getter self args
    = let* val := descend (root self) args in abs_run self val.
Proof.
  intros Hin self args.
  repeat (destruct Hin as [[= <- <-]|Hin]; [reflexivity|]). destruct Hin.
Qed.

(** After [build_tree], the key sequence (window, test, model) leads to
    the path of the result file. *)
Lemma build_tree_results (timewindows : list timewindow)
    (models : list Model) (tests : list Evaluation)
    (self self' : ExperimentRegistry) (fs fs' : FS) (w : timewindow)
    (t : Evaluation) (m : Model) (kw kt km : Arg) :
  build_tree timewindows models tests (self, fs) = Ok (self', fs') ->
  In w timewindows -> In t tests -> In m models ->
  _parse_arg kw = Ok (PStr (timewindow2str w)) ->
  _parse_arg kt = Ok (PStr (test_name t)) ->
  _parse_arg km = Ok (PStr (model_name m)) ->
  descend (Node (results self')) [kw; kt; km]
  = Ok (Leaf (join [timewindow2str w; "evaluations";
                    test_name t +:+ "_" +:+ model_name m +:+ ".json"])).
Proof.
  intros Hbuild Hw Ht Hm Hkw Hkt Hkm.
  unfold build_tree in Hbuild. bind_inv Hbuild.
  injection Hbuild as <- _. simpl.
  unfold descend. simpl. rewrite Hkw. simpl. unfold getitem.
  rewrite (lookup_dict_comp _ _ (timewindow2str w)) by by apply in_map.
  simpl. rewrite Hkt. simpl. unfold getitem.
  rewrite (lookup_dict_comp _ _ (test_name t)) by by apply in_map.
  simpl. rewrite Hkm. simpl. unfold getitem.
  rewrite (lookup_dict_comp _ _ (model_name m)) by by apply in_map.
  done.
Qed.

Section AbsolutePaths.

(** What [os.path] guarantees: [abspath] returns an absolute path and
    [normpath] keeps a path absolute. *)
Hypothesis abspath_isabs : forall p, isabs (abspath p) = true.
Hypothesis normpath_isabs :
  forall p, isabs p = true -> isabs (normpath p) = true.

(** C8. [_parse_arg] normalizes a key segment by one dispatch rule: a
    time-window pair becomes its canonical string, a string is returned
    unchanged, an object with a [name] (and, failing that, a [__name__])
    resolves to it, and anything else raises.  Each of [get], [get_result],
    [get_test_catalog] and [get_figure] returns exactly when the key
    sequence leads to a stored path, and then returns that path taken
    under the run directory, an absolute path; after [build_tree] this is
    so for every (window, test, model) of the tree.  Each getter fails
    with a [KeyError] as soon as a normalized key segment is absent from
    the dictionary reached so far. *)
Theorem registry_key_resolution :
  (forall tw, _parse_arg (Window tw) = Ok (PStr (timewindow2str tw)))
  /\ (forall s, _parse_arg (Str s) = Ok (PStr s))
  /\ (forall name __name__,
        _parse_arg (Obj (Some name) __name__) = Ok (PStr name))
  /\ (forall __name__,
        _parse_arg (Obj None (Some __name__)) = Ok (PStr __name__))
  /\ _parse_arg (Obj None None) = Raise (Exception "Arg is not found")
  /\ (forall getter root,
        In (getter, root) getters ->
        (forall self args p,
           getter self args = Ok p <->
           exists leaf,
             descend (root self) args = Ok (Leaf leaf)
             /\ p = abs self [run_dir self; leaf])
        /\ (forall self args p, getter self args = Ok p -> isabs p = true)
        /\ (forall self pre k post d s,
              descend (root self) pre = Ok (Node d) ->
              _parse_arg k = Ok (PStr s) ->
              d !! s = None ->
              getter self (pre ++ k :: post) = Raise (KeyError s)))
  /\ (forall timewindows models tests self fs self' fs' w t m,
        build_tree timewindows models tests (self, fs) = Ok (self', fs') ->
        In w timewindows -> In t tests -> In m models ->
        get_result self'
          [Window w; Obj (Some (test_name t)) None; Str (model_name m)]
        = Ok (abs self'
                [run_dir self';
                 join [timewindow2str w; "evaluations";
                       test_name t +:+ "_" +:+ model_name m +:+ ".json"]])).
Proof.
  do 5 (split; [done|]). split.
  - intros getter root Hin.
    assert (Hres : forall self args p,
              getter self args = Ok p <->
              exists leaf,
                descend (root self) args = Ok (Leaf leaf)
                /\ p = abs self [run_dir self; leaf]).
    { intros self args p. rewrite (getters_resolve _ _ Hin). split.
      - destruct (descend (root self) args) as [[leaf|d|]|e]; try done.
        simpl. intros [= <-]. by exists leaf.
      - intros (leaf & -> & ->). done. }
    split; [exact Hres|]. split.
    + intros self args p Hp. apply Hres in Hp as (leaf & _ & ->).
      unfold abs. apply normpath_isabs, abspath_isabs.
    + intros self pre k post d s Hpre Hk Hd.
      rewrite (getters_resolve _ _ Hin), descend_app, Hpre. simpl.
      change (rbind (Ok (Node d)) ?f) with (f (Node d)). cbv beta.
      by rewrite (descend_missing d k post s).
  - intros timewindows models tests self fs self' fs' w t m Hbuild Hw Ht Hm.
    unfold get_result.
    by rewrite (build_tree_results _ _ _ _ _ _ _ w t m _ _ _ Hbuild Hw Ht Hm).
Qed.

End AbsolutePaths.

(** *** Building the tree twice *)

Lemma build_tree_inv (timewindows : list timewindow) (models : list Model)
    (tests : list Evaluation) (self self' : ExperimentRegistry)
    (fs fs' : FS) :
  build_tree timewindows models tests (self, fs) = Ok (self', fs') ->
  workdir self' = workdir self /\ run_dir self' = run_dir self
  /\ repr_config self' = repr_config self
  /\ forecast_registries self' = forecast_registries self
  /\ make_tree
       (odict_comp (fun win => win)
          (fun win =>
             odict_comp (fun folder => folder)
               (fun folder => abs self [run_dir self; win; folder])
               subfolders)
          (map timewindow2str timewindows)) fs
     = Ok fs'.
Proof.
  unfold build_tree. intros H. bind_inv H. by injection H as <- <-.
Qed.

(** The dictionaries [build_tree] stores do not depend on the ones it
    replaces. *)
Lemma build_tree_mapping (timewindows : list timewindow)
    (models : list Model) (tests : list Evaluation)
    (self1 self2 self1' self2' : ExperimentRegistry) (fs1 fs2 fs1' fs2' : FS) :
  build_tree timewindows models tests (self1, fs1) = Ok (self1', fs1') ->
  build_tree timewindows models tests (self2, fs2) = Ok (self2', fs2') ->
  results self1' = results self2'
  /\ test_catalogs self1' = test_catalogs self2'
  /\ figures self1' = figures self2'.
Proof.
  unfold build_tree. intros H1 H2. bind_inv H1. bind_inv H2.
  injection H1 as <- _. injection H2 as <- _. done.
Qed.

(** Calling [build_tree] again with the same arguments leaves the registry
    and the file system as the first call left them. *)
Lemma build_tree_idempotent (timewindows : list timewindow)
    (models : list Model) (tests : list Evaluation)
    (self self' : ExperimentRegistry) (fs fs' : FS) :
  build_tree timewindows models tests (self, fs) = Ok (self', fs') ->
  build_tree timewindows models tests (self', fs') = Ok (self', fs').
Proof.
  intros H.
  destruct (build_tree_inv _ _ _ _ _ _ _ H) as (Hw & Hr & Hc & Hf & Hmk).
  assert (Habs : abs self' = abs self) by (unfold abs; by rewrite Hw).
  unfold build_tree in *. rewrite Habs, Hr.
  rewrite (make_tree_idempotent _ _ _ Hmk). cbn [rbind].
  rewrite Hmk in H. cbn [rbind] in H. injection H as H.
  rewrite Hw, Hc, Hf. by rewrite H.
Qed.

(** *** The getters and the dictionaries they start from *)

Lemma descend_step (d : gmap string tree) (k : Arg) (rest : list Arg)
    (s : string) (v : tree) :
  _parse_arg k = Ok (PStr s) -> d !! s = Some v ->
  descend (Node d) (k :: rest) = descend v rest.
Proof.
  intros Hk Hd. unfold descend. simpl. rewrite Hk. simpl.
  unfold getitem. by rewrite Hd.
Qed.

Lemma descend_attribute (self : ExperimentRegistry) (args : list Arg) :
  descend (Node (__dict__ self)) (Str "results" :: args)
  = descend (Node (results self)) args
  /\ descend (Node (__dict__ self)) (Str "test_catalogs" :: args)
     = descend (Node (test_catalogs self)) args
  /\ descend (Node (__dict__ self)) (Str "figures" :: args)
     = descend (Node (figures self)) args.
Proof.
  unfold __dict__.
  split; [|split]; (erewrite descend_step; [done|done|]);
    repeat (rewrite lookup_insert_ne by done); by rewrite lookup_insert_eq.
Qed.

(** X15. [get] walks the registry's own attributes: led by the key
    ["results"], ["test_catalogs"] or ["figures"] it is [get_result],
    [get_test_catalog] or [get_figure] on the remaining keys.  Without
    keys it raises [TypeError] (the attribute dictionary is not a path),
    and a key that is no attribute of the registry raises [KeyError]. *)
Theorem get_by_attribute (self : ExperimentRegistry) (args : list Arg) :
  get self (Str "results" :: args) = get_result self args
  /\ get self (Str "test_catalogs" :: args) = get_test_catalog self args
  /\ get self (Str "figures" :: args) = get_figure self args
  /\ get self [] = Raise TypeError
  /\ forall k,
       ~ In k ["workdir"; "run_dir"; "results"; "test_catalogs"; "figures";
               "repr_config"; "forecast_registries"] ->
       get self (Str k :: args) = Raise (KeyError k).
Proof.
  destruct (descend_attribute self args) as (Hr & Hc & Hf).
  unfold get, get_result, get_test_catalog, get_figure.
  rewrite Hr, Hc, Hf. do 4 (split; [done|]).
  intros k Hk. rewrite (descend_missing _ _ _ k); [done|done|].
  unfold __dict__. simpl in Hk.
  repeat (rewrite lookup_insert_ne by (intros <-; tauto)). done.
Qed.

(** *** The figures of a window *)

Lemma lookup_dict_extend_notin {V} (d : gmap string V) (val : string -> V)
    (l : list string) (k : string) :
  ~ In k l -> dict_extend d (fun x => x) val l !! k = d !! k.
Proof.
  induction l as [|x l IH] using rev_ind; [done|].
  intros Hin. rewrite dict_extend_snoc.
  rewrite lookup_insert_ne.
  - apply IH. intros H. apply Hin, in_or_app. by left.
  - intros <-. apply Hin, in_or_app. right. by left.
Qed.

(** The dictionary [build_tree] stores for one window under [figures]. *)
Definition window_figures (win : string) (models tests : list string)
  : gmap string tree :=
  <["forecasts" :=
      Node (dict_comp (fun model => model)
              (fun model => Leaf (join [win; "figures"; "forecast_" +:+ model]))
              models)]>
  (<["magnitude_time" := Leaf (join [win; "figures"; "catalog_time"])]>
  (<["catalog" := Leaf (join [win; "figures"; "catalog_map"])]>
  (dict_comp (fun test => test)
     (fun test => Leaf (join [win; "figures"; test])) tests))).

Lemma build_tree_window_figures (timewindows : list timewindow)
    (models : list Model) (tests : list Evaluation)
    (self self' : ExperimentRegistry) (fs fs' : FS) (w : timewindow) :
  build_tree timewindows models tests (self, fs) = Ok (self', fs') ->
  In w timewindows ->
  figures self' !! timewindow2str w
  = Some (Node (window_figures (timewindow2str w) (map model_name models)
                  (map test_name tests))).
Proof.
  unfold build_tree. intros H Hw. bind_inv H. injection H as <- _. simpl.
  apply (lookup_dict_extend _
           (fun win =>
              Node (window_figures win (map model_name models)
                      (map test_name tests)))).
  by apply in_map.
Qed.

(** The names [build_tree] gives a meaning of its own in a window's
    figures. *)
Definition reserved : list string := ["forecasts"; "magnitude_time"; "catalog"].

Lemma window_figures_test (win : string) (models tests : list string)
    (k : string) :
  ~ In k reserved ->
  window_figures win models tests !! k
  = if bool_decide (k ∈ tests) then Some (Leaf (join [win; "figures"; k]))
    else None.
Proof.
  intros Hk. unfold window_figures. simpl in Hk.
  repeat (rewrite lookup_insert_ne by (intros <-; tauto)).
  destruct (bool_decide (k ∈ tests)) eqn:Hin.
  - apply bool_decide_eq_true in Hin. rewrite list_elem_of_In in Hin.
    exact (lookup_dict_comp
             (fun test => Leaf (join [win; "figures"; test])) _ k Hin).
  - apply bool_decide_eq_false in Hin. rewrite list_elem_of_In in Hin.
    exact (lookup_dict_extend_notin ∅
             (fun test => Leaf (join [win; "figures"; test])) _ k Hin).
Qed.

(** X16. After [build_tree], the figures of a window of the tree resolve
    as follows: [(window, "forecasts", model)] to
    [<window>/figures/forecast_<model>] for every model,
    [(window, "catalog")] to [<window>/figures/catalog_map] and
    [(window, "magnitude_time")] to [<window>/figures/catalog_time], and
    [(window, test)] to [<window>/figures/<test>] for every test whose
    name is none of ["forecasts"], ["magnitude_time"], ["catalog"]; a test
    called ["catalog"] gets the path of the catalog map instead of its
    own.  Any other second key raises [KeyError]: so do ["catalog_map"]
    and ["catalog_time"], the names of the files, unless tests are called
    so. *)
Theorem build_tree_figures (timewindows : list timewindow)
    (models : list Model) (tests : list Evaluation)
    (self self' : ExperimentRegistry) (fs fs' : FS) (w : timewindow) :
  build_tree timewindows models tests (self, fs) = Ok (self', fs') ->
  In w timewindows ->
  let under p := Ok (abs self' [run_dir self'; join (timewindow2str w :: p)]) in
  (forall m, In m models ->
     get_figure self'
       [Window w; Str "forecasts"; Obj (Some (model_name m)) None]
     = under ["figures"; "forecast_" +:+ model_name m])
  /\ get_figure self' [Window w; Str "catalog"]
     = under ["figures"; "catalog_map"]
  /\ get_figure self' [Window w; Str "magnitude_time"]
     = under ["figures"; "catalog_time"]
  /\ (forall t, In t tests -> ~ In (test_name t) reserved ->
        get_figure self' [Window w; Obj (Some (test_name t)) None]
        = under ["figures"; test_name t])
  /\ (forall t, In t tests -> test_name t = "catalog" ->
        get_figure self' [Window w; Obj (Some (test_name t)) None]
        = under ["figures"; "catalog_map"])
  /\ (forall k, ~ In k reserved -> ~ In k (map test_name tests) ->
        get_figure self' [Window w; Str k] = Raise (KeyError k))
  /\ (~ In "catalog_map" (map test_name tests) ->
      get_figure self' [Window w; Str "catalog_map"]
      = Raise (KeyError "catalog_map"))
  /\ (~ In "catalog_time" (map test_name tests) ->
      get_figure self' [Window w; Str "catalog_time"]
      = Raise (KeyError "catalog_time")).
Proof.
  intros Hbuild Hw under.
  pose proof (build_tree_window_figures _ _ _ _ _ _ _ w Hbuild Hw) as Hfig.
  assert (Hwin : forall rest,
            descend (Node (figures self')) (Window w :: rest)
            = descend
                (Node (window_figures (timewindow2str w)
                         (map model_name models) (map test_name tests)))
                rest).
  { intros rest. by apply (descend_step _ _ _ (timewindow2str w)). }
  assert (Hmiss : forall k, ~ In k reserved -> ~ In k (map test_name tests) ->
            get_figure self' [Window w; Str k] = Raise (KeyError k)).
  { intros k Hk Hnot. unfold get_figure. rewrite Hwin.
    rewrite (descend_missing _ _ _ k); [done|done|].
    rewrite window_figures_test by done.
    by rewrite bool_decide_eq_false_2 by (by rewrite list_elem_of_In). }
  assert (Hhit : forall k rest leaf,
            window_figures (timewindow2str w) (map model_name models)
              (map test_name tests) !! k = Some (Leaf leaf) ->
            _parse_arg rest = Ok (PStr k) ->
            get_figure self' [Window w; rest]
            = Ok (abs self' [run_dir self'; leaf])).
  { intros k rest leaf Hk Hrest. unfold get_figure. rewrite Hwin.
    by rewrite (descend_step _ _ _ k (Leaf leaf)). }
  repeat split.
  - intros m Hm. unfold get_figure. rewrite Hwin.
    rewrite (descend_step _ _ _ "forecasts"
               (Node (dict_comp (fun model => model)
                        (fun model =>
                           Leaf (join [timewindow2str w; "figures";
                                       "forecast_" +:+ model]))
                        (map model_name models))));
      [|done|unfold window_figures; apply lookup_insert_eq].
    rewrite (descend_step _ _ _ (model_name m)
               (Leaf (join [timewindow2str w; "figures";
                            "forecast_" +:+ model_name m]))); [done|done|].
    exact (lookup_dict_comp
             (fun model =>
                Leaf (join [timewindow2str w; "figures";
                            "forecast_" +:+ model])) _
             (model_name m) (in_map model_name _ _ Hm)).
  - apply (Hhit "catalog"); [|done]. unfold window_figures.
    do 2 (rewrite lookup_insert_ne by done). apply lookup_insert_eq.
  - apply (Hhit "magnitude_time"); [|done]. unfold window_figures.
    rewrite lookup_insert_ne by done. apply lookup_insert_eq.
  - intros t Ht Hres. apply (Hhit (test_name t)); [|done].
    rewrite window_figures_test by done.
    rewrite bool_decide_eq_true_2; [done|].
    rewrite list_elem_of_In. by apply in_map.
  - intros t Ht Hname. apply (Hhit (test_name t)); [|done].
    rewrite Hname. unfold window_figures.
    do 2 (rewrite lookup_insert_ne by done). apply lookup_insert_eq.
  - exact Hmiss.
  - intros Hnot. apply Hmiss; [|done]. simpl. intros [H|[H|[H|[]]]]; done.
  - intros Hnot. apply Hmiss; [|done]. simpl. intros [H|[H|[H|[]]]]; done.
Qed.

(** *** Asking whether a result is there *)

(** [os.path.exists] *)
Definition exists_ (fs : FS) (p : string) : bool :=
  bool_decide (p ∈ regular fs) || bool_decide (is_Some (listing fs !! p)).

(** [BaseFileRegistry.file_exists], on an experiment registry and called
    with the key sequence *)
Definition file_exists (self : ExperimentRegistry) (fs : FS)
    (args : list Arg) : result bool :=
  let* file_abspath := get self args in
  Ok (exists_ fs file_abspath).

(** [ExperimentRegistry.result_exist] *)
Definition result_exist (self : ExperimentRegistry) (fs : FS)
    (timewindow_str test_name model_name : string) : result bool :=
  file_exists self fs
    [Str "results"; Str timewindow_str; Str test_name; Str model_name].

(** The dictionary [build_tree] stores for one window and one test under
    [results]. *)
Definition test_results (win test : string) (models : list string)
  : gmap string tree :=
  dict_comp (fun model => model)
    (fun model =>
       Leaf (join [win; "evaluations"; test +:+ "_" +:+ model +:+ ".json"]))
    models.

Definition window_results (win : string) (models tests : list string)
  : gmap string tree :=
  dict_comp (fun test => test)
    (fun test => Node (test_results win test models)) tests.

Lemma build_tree_window_results (timewindows : list timewindow)
    (models : list Model) (tests : list Evaluation)
    (self self' : ExperimentRegistry) (fs fs' : FS) :
  build_tree timewindows models tests (self, fs) = Ok (self', fs') ->
  results self'
  = dict_comp (fun win => win)
      (fun win =>
         Node (window_results win (map model_name models)
                 (map test_name tests)))
      (map timewindow2str timewindows).
Proof.
  unfold build_tree. intros H. bind_inv H. by injection H as <- _.
Qed.

Lemma lookup_dict_comp_notin {V} (val : string -> V) (l : list string)
    (k : string) :
  ~ In k l -> dict_comp (fun x => x) val l !! k = None.
Proof.
  intros H. etransitivity; [exact (lookup_dict_extend_notin ∅ val l k H)|done].
Qed.

(** X17. For a window, a test and a model of the tree [build_tree] built,
    [result_exist] says whether the result file
    [<window>/evaluations/<test>_<model>.json] under the run directory
    exists.  For a window, a test or a model that is not in the tree it
    does not answer [False] but raises [KeyError] with the missing key. *)
Theorem result_exist_after_build_tree (timewindows : list timewindow)
    (models : list Model) (tests : list Evaluation)
    (self self' : ExperimentRegistry) (fs fs' now : FS) :
  build_tree timewindows models tests (self, fs) = Ok (self', fs') ->
  (forall w t m,
     In w timewindows -> In t tests -> In m models ->
     result_exist self' now (timewindow2str w) (test_name t) (model_name m)
     = Ok (exists_ now
             (abs self'
                [run_dir self';
                 join [timewindow2str w; "evaluations";
                       test_name t +:+ "_" +:+ model_name m +:+ ".json"]])))
  /\ (forall win t m,
        ~ In win (map timewindow2str timewindows) ->
        result_exist self' now win t m = Raise (KeyError win))
  /\ (forall w t m,
        In w timewindows -> ~ In t (map test_name tests) ->
        result_exist self' now (timewindow2str w) t m = Raise (KeyError t))
  /\ (forall w t m,
        In w timewindows -> In t tests -> ~ In m (map model_name models) ->
        result_exist self' now (timewindow2str w) (test_name t) m
        = Raise (KeyError m)).
Proof.
  intros Hbuild.
  pose proof (build_tree_window_results _ _ _ _ _ _ _ Hbuild) as Hres.
  assert (Hget : forall a b c,
            result_exist self' now a b c
            = let* p :=
                (let* val :=
                   descend (Node (results self')) [Str a; Str b; Str c] in
                 abs_run self' val) in
              Ok (exists_ now p)).
  { intros a b c. unfold result_exist, file_exists, get.
    by destruct (descend_attribute self' [Str a; Str b; Str c]) as (-> & _). }
  assert (Hwin : forall w rest,
            In w timewindows ->
            descend (Node (results self')) (Str (timewindow2str w) :: rest)
            = descend
                (Node (window_results (timewindow2str w)
                         (map model_name models) (map test_name tests)))
                rest).
  { intros w rest Hw. apply (descend_step _ _ _ (timewindow2str w)); [done|].
    rewrite Hres.
    exact (lookup_dict_comp
             (fun win =>
                Node (window_results win (map model_name models)
                        (map test_name tests))) _
             (timewindow2str w) (in_map timewindow2str _ _ Hw)). }
  assert (Htest : forall w t rest,
            In t tests ->
            descend
              (Node (window_results (timewindow2str w)
                       (map model_name models) (map test_name tests)))
              (Str (test_name t) :: rest)
            = descend
                (Node (test_results (timewindow2str w) (test_name t)
                         (map model_name models)))
                rest).
  { intros w t rest Ht. apply (descend_step _ _ _ (test_name t)); [done|].
    exact (lookup_dict_comp
             (fun test =>
                Node (test_results (timewindow2str w) test
                        (map model_name models))) _
             (test_name t) (in_map test_name _ _ Ht)). }
  repeat split.
  - intros w t m Hw Ht Hm.
    rewrite Hget.
    rewrite Hwin, Htest by done.
    rewrite (descend_step _ _ _ (model_name m)
               (Leaf (join [timewindow2str w; "evaluations";
                            test_name t +:+ "_" +:+ model_name m
                            +:+ ".json"]))); [done|done|].
    exact (lookup_dict_comp
             (fun model =>
                Leaf (join [timewindow2str w; "evaluations";
                            test_name t +:+ "_" +:+ model +:+ ".json"])) _
             (model_name m) (in_map model_name _ _ Hm)).
  - intros win t m Hwin'. rewrite Hget.
    rewrite (descend_missing _ _ _ win); [done|done|].
    rewrite Hres. by apply lookup_dict_comp_notin.
  - intros w t m Hw Ht. rewrite Hget.
    rewrite Hwin by done.
    rewrite (descend_missing _ _ _ t); [done|done|].
    by apply lookup_dict_comp_notin.
  - intros w t m Hw Ht Hm.
    rewrite Hget.
    rewrite Hwin, Htest by done.
    rewrite (descend_missing _ _ _ m); [done|done|].
    by apply lookup_dict_comp_notin.
Qed.

End Registry.

(** *** [ForecastRegistry] *)
Module ForecastRegistry.

Record t : Type := mk {
  workdir : string;
  path : string;
  database : option string;
  args_file : option string;
  input_cat : option string;
  forecasts : gmap string string
}.

(** An attribute that holds a string or [None]. *)
Definition attribute (o : option string) : tree :=
  match o with
  | Some s => Leaf s
  | None => Object
  end.

(** [self.__dict__] *)
Definition __dict__ (self : t) : gmap string tree :=
  <["forecasts" := Node (Leaf <$> forecasts self)]>
  (<["input_cat" := attribute (input_cat self)]>
  (<["args_file" := attribute (args_file self)]>
  (<["database" := attribute (database self)]>
  (<["path" := Leaf (path self)]>
  (<["workdir" := Leaf (workdir self)]> ∅))))).

(** [a if a else b] on an optional string: [None] and the empty string
    are false. *)
Definition or_else (a : option string) (b : string) : string :=
  match a with
  | Some s => if String.eqb s "" then b else s
  | None => b
  end.

(** [f"{prefix}"] *)
Definition format (prefix : option string) : string :=
  match prefix with
  | Some s => s
  | None => "None"
  end.

(** What [forecast_exists] is asked about, a string or a sequence, and what
    it answers, a flag or a list of flags. *)
Inductive Asked : Type :=
| OneWindow (timewindow : string)
| ManyWindows (timewindows : list Arg).

Inductive Answer : Type :=
| Flag (b : bool)
| Flags (l : list bool).

Section Methods.

Variable timewindow2str : timewindow -> string.
Variable join : list string -> string.
Variable abspath normpath : string -> string.

(** [BaseFileRegistry.abs], called with the path components *)
Definition abs (self : t) (paths : list string) : string :=
  normpath (abspath (join (workdir self :: paths))).

(** [ForecastRegistry.get], called with the key sequence *)
Definition get (self : t) (args : list Arg) : result string :=
  let val := Node (__dict__ self) in
  let* val := descend timewindow2str val args in
  match val with
  | Leaf s => Ok (abs self [s])
  | Node _ => Raise TypeError
  | Object => Raise TypeError
  end.

(** [ForecastRegistry.get_forecast] *)
Definition get_forecast (self : t) (args : list Arg) : result string :=
  get self (Str "forecasts" :: args).

(** [BaseFileRegistry.file_exists], on a forecast registry *)
Definition file_exists (self : t) (fs : FS) (args : list Arg) : result bool :=
  let* file_abspath := get self args in
  Ok (exists_ fs file_abspath).

(** [ForecastRegistry.forecast_exists] *)
Definition forecast_exists (self : t) (fs : FS) (timewindow : Asked)
  : result Answer :=
  match timewindow with
  | OneWindow s =>
      let* b := file_exists self fs [Str "forecasts"; Str s] in Ok (Flag b)
  | ManyWindows l =>
      let* bs :=
        list_comp (fun i => file_exists self fs [Str "forecasts"; i]) l in
      Ok (Flags bs)
  end.

(** [ForecastRegistry.build_tree(timewindows, model_class, prefix,
    args_file, input_cat)], on the registry and the file system. *)
Definition build_tree (timewindows : list timewindow) (model_class : string)
    (prefix args_file_ input_cat_ : option string) (w : t * FS)
  : result (t * FS) :=
  let '(self, fs) := w in
  let windows := map timewindow2str timewindows in
  if String.eqb model_class "TimeIndependentModel" then
    let fname := or_else (database self) (path self) in
    let forecasts_ := dict_comp (fun win => win) (fun win => fname) windows in
    Ok (mk (workdir self) (path self) (database self) (args_file self)
          (input_cat self) forecasts_,
        fs)
  else if String.eqb model_class "TimeDependentModel" then
    let args := or_else args_file_ (join ["input"; "args.txt"]) in
    let self_args_file := join [path self; args] in
    let input_cat_ := or_else input_cat_ (join ["input"; "catalog.csv"]) in
    let self_input_cat := join [path self; input_cat_] in
    (* grab names for creating directories *)
    let subfolders := ["input"; "forecasts"] in
    let dirtree :=
      odict_comp (fun folder => folder)
        (fun folder => abs self [path self; folder]) subfolders in
    (* create directories if they don't exist *)
    let* fs := for_ dirtree (fun '(_, folder_) fs => makedirs folder_ fs) fs in
    (* set forecast names *)
    let* forecasts_ :=
      dict_comp_r (fun win => win)
        (fun win =>
           let* dir := oget dirtree "forecasts" in
           Ok (join [dir; format prefix +:+ "_" +:+ win +:+ ".csv"]))
        windows in
    Ok (mk (workdir self) (path self) (database self) (Some self_args_file)
          (Some self_input_cat) forecasts_,
        fs)
  else Ok (self, fs).

Lemma get_forecast_stored (self : t) (k : Arg) (win file : string) :
  _parse_arg timewindow2str k = Ok (PStr win) ->
  forecasts self !! win = Some file ->
  get_forecast self [k] = Ok (abs self [file]).
Proof.
  intros Hk Hwin. unfold get_forecast, get.
  rewrite (descend_step _ _ _ _ "forecasts" (Node (Leaf <$> forecasts self)));
    [|done|unfold __dict__; apply lookup_insert_eq].
  rewrite (descend_step _ _ _ _ win (Leaf file)); [done|done|].
  by rewrite lookup_fmap, Hwin.
Qed.

(** X18. A time-independent model has one forecast file for all windows:
    [build_tree] leaves the file system alone and maps every window to the
    model's database or, without one, to its path, so that
    [get_forecast] returns the same absolute path, and [forecast_exists]
    the same answer, for every window of the tree. *)
Theorem build_tree_time_independent (timewindows : list timewindow)
    (prefix args_file_ input_cat_ : option string) (self : t) (fs : FS) :
  exists self',
    build_tree timewindows "TimeIndependentModel" prefix args_file_ input_cat_
      (self, fs)
    = Ok (self', fs)
    /\ workdir self' = workdir self /\ path self' = path self
    /\ forall w, In w timewindows ->
         let file := abs self [or_else (database self) (path self)] in
         get_forecast self' [Window w] = Ok file
         /\ get_forecast self' [Str (timewindow2str w)] = Ok file
         /\ forall now,
              forecast_exists self' now (OneWindow (timewindow2str w))
              = Ok (Flag (exists_ now file)).
Proof.
  set (self' := mk (workdir self) (path self) (database self)
                  (args_file self) (input_cat self)
                  (dict_comp (fun win => win)
                     (fun win => or_else (database self) (path self))
                     (map timewindow2str timewindows))).
  exists self'. split; [done|]. split; [done|]. split; [done|].
  intros w Hw file.
  assert (Hstored : forall k,
            _parse_arg timewindow2str k = Ok (PStr (timewindow2str w)) ->
            get_forecast self' [k] = Ok file).
  { intros k Hk.
    rewrite (get_forecast_stored self' k (timewindow2str w)
               (or_else (database self) (path self))); [done|done|].
    exact (lookup_dict_comp
             (fun _ => or_else (database self) (path self)) _
             (timewindow2str w) (in_map timewindow2str _ _ Hw)). }
  split; [by apply Hstored|]. split; [by apply Hstored|].
  intros now. unfold forecast_exists, file_exists.
  fold (get_forecast self' [Str (timewindow2str w)]).
  by rewrite Hstored.
Qed.

(** X19. For a time-dependent model, a [build_tree] that returned has
    created the directories [input] and [forecasts] under the model's
    path, has set the arguments file and the input catalog to the given
    names, or to [input/args.txt] and [input/catalog.csv] by default, under
    the model's path, and gives every window a forecast file of its own,
    [<prefix>_<window>.csv] in the [forecasts] directory.  A model of
    any other class leaves the registry and the file system as they
    are. *)
Theorem build_tree_time_dependent (timewindows : list timewindow)
    (prefix args_file_ input_cat_ : option string) (self self' : t)
    (fs fs' : FS) :
  build_tree timewindows "TimeDependentModel" prefix args_file_ input_cat_
    (self, fs)
  = Ok (self', fs') ->
  args_file self'
  = Some (join [path self; or_else args_file_ (join ["input"; "args.txt"])])
  /\ input_cat self'
     = Some (join [path self;
                   or_else input_cat_ (join ["input"; "catalog.csv"])])
  /\ created fs' (abs self [path self; "input"])
  /\ created fs' (abs self [path self; "forecasts"])
  /\ grown fs fs'
  /\ (forall w, In w timewindows ->
        get_forecast self' [Window w]
        = Ok (abs self
                [join [abs self [path self; "forecasts"];
                       format prefix +:+ "_" +:+ timewindow2str w
                       +:+ ".csv"]]))
  /\ forall model_class,
       model_class <> "TimeIndependentModel" ->
       model_class <> "TimeDependentModel" ->
       build_tree timewindows model_class prefix args_file_ input_cat_
         (self, fs)
       = Ok (self, fs).
Proof.
  unfold build_tree. simpl String.eqb. cbv iota.
  intros H. bind_inv H. injection H as <- <-. simpl.
  rename a into fs1, E into Hmk, a0 into stored, E0 into Hstored.
  pose proof (make_folders_created _ _ _ Hmk) as [Hcreated _].
  do 2 (split; [done|]).
  split; [apply (Hcreated "input"); simpl; tauto|].
  split; [apply (Hcreated "forecasts"); simpl; tauto|].
  split.
  { simpl in Hmk. bind_inv Hmk. injection Hmk as <-.
    eapply grown_trans; by eapply makedirs_grown. }
  split.
  - intros w Hw.
    destruct (dict_comp_r_lookup _ _ _ (timewindow2str w) Hstored)
      as (file & Hfile & Hlook); [by apply in_map|].
    simpl in Hfile. injection Hfile as <-.
    erewrite (get_forecast_stored _ (Window w) (timewindow2str w));
      [done|done|exact Hlook].
  - intros model_class Hti Htd.
    apply String.eqb_neq in Hti, Htd. by rewrite Hti, Htd.
Qed.

End Methods.

End ForecastRegistry.

End Floatcsep.

(** ** Building the run directory twice *)

(** C9. Tree building is idempotent.  After a call of
    [ExperimentRegistry.build_tree] that returned, a second call with the
    same time windows, models and tests returns too, stores the same
    [results], [test_catalogs] and [figures] dictionaries, and finds every
    directory in place (the file system is left as it was); the same holds
    for [Experiment.prepare_paths] and the paths and existence flags it
    stores. *)
Theorem tree_building_idempotent
    (timewindow2str : Floatcsep.timewindow -> string)
    (join : list string -> string) (abspath normpath dirname : string -> string)
    (timewindows : list Floatcsep.timewindow)
    (models : list Floatcsep.Model) (tests : list Floatcsep.Evaluation)
    (self self1 : Floatcsep.ExperimentRegistry) (fs fs1 : FS)
    (results_path run_name : option string)
    (exp exp1 : Fecsep.Experiment) (fs' fs1' : FS) :
  Floatcsep.build_tree timewindow2str join abspath normpath
    timewindows models tests (self, fs) = Ok (self1, fs1) ->
  Fecsep.prepare_paths timewindow2str join abspath normpath dirname
    results_path run_name (exp, fs') = Ok (exp1, fs1') ->
  (exists self2 fs2,
     Floatcsep.build_tree timewindow2str join abspath normpath
       timewindows models tests (self1, fs1) = Ok (self2, fs2)
     /\ Floatcsep.results self2 = Floatcsep.results self1
     /\ Floatcsep.test_catalogs self2 = Floatcsep.test_catalogs self1
     /\ Floatcsep.figures self2 = Floatcsep.figures self1
     /\ fs2 = fs1)
  /\ (exists exp2 fs2',
        Fecsep.prepare_paths timewindow2str join abspath normpath dirname
          results_path run_name (exp1, fs1') = Ok (exp2, fs2')
        /\ Fecsep._paths exp2 = Fecsep._paths exp1
        /\ Fecsep._exists exp2 = Fecsep._exists exp1
        /\ Fecsep.run_folder exp2 = Fecsep.run_folder exp1
        /\ fs2' = fs1').
Proof.
  intros Hbuild Hprep. split.
  - exists self1, fs1. split; [|done].
    by eapply Floatcsep.build_tree_idempotent.
  - exists exp1, fs1'. split; [|done].
    by eapply Fecsep.prepare_paths_idempotent.
Qed.

(** ** Worked scenarios

    The theorems above hold for any canonical window string and any
    [os.path]; the scenarios run the embedded code with the instances
    below. *)
Module Scenarios.

(** A window string: the two timestamps joined by an underscore. *)
Definition window_string (w : Z * Z) : string :=
  pretty (fst w) +:+ "_" +:+ pretty (snd w).

Fixpoint ends_with_slash (s : string) : bool :=
  match s with
  | EmptyString => false
  | String c EmptyString => Ascii.eqb c "/"
  | String _ rest => ends_with_slash rest
  end.

(** POSIX [os.path.join]: an absolute component discards what precedes
    it, otherwise components are joined by one separator. *)
Definition join2 (a b : string) : string :=
  if String.prefix "/" b then b
  else if String.eqb a "" || ends_with_slash a then a +:+ b
  else a +:+ "/" +:+ b.

Definition join (parts : list string) : string :=
  match parts with
  | [] => ""
  | a :: rest => fold_left join2 rest a
  end.

(** [abspath] with the root as working directory; the paths of the
    scenarios are normalized as they stand. *)
Definition abspath (p : string) : string :=
  if String.prefix "/" p then p else "/" +:+ p.

Definition normpath (p : string) : string := p.

Fixpoint dirname_go (s acc : string) : string :=
  match s with
  | EmptyString => ""
  | String c rest =>
      if Ascii.eqb c "/" then
        match dirname_go rest "" with
        | EmptyString => acc
        | d => acc +:+ "/" +:+ d
        end
      else dirname_go rest (acc +:+ String c EmptyString)
  end.

Definition dirname (p : string) : string := dirname_go p "".

Definition no_files : FS := mkFS ∅ ∅.

Definition prepare_paths := Fecsep.prepare_paths window_string join abspath normpath dirname.
Definition prepare_tasks := Fecsep.prepare_tasks window_string.

(** The experiment after [prepare_paths()] on an empty file system. *)
Definition after_prepare_paths (exp : Fecsep.Experiment) : Fecsep.Experiment * FS :=
  match prepare_paths None None (exp, no_files) with
  | Ok w => w
  | Raise _ => (exp, no_files)
  end.

Definition model_A : Fecsep.Model := Fecsep.mkModel "A" "models/a.csv".
Definition model_B : Fecsep.Model := Fecsep.mkModel "B" "models/b.csv".

Definition number_test : Fecsep.Evaluation :=
  Fecsep.mkEvaluation "N-test" "Discrete-Absolute" None.
Definition t_test_vs_A : Fecsep.Evaluation :=
  Fecsep.mkEvaluation "T-test" "Discrete-Comparative" (Some "A").
Definition t_test_vs_C : Fecsep.Evaluation :=
  Fecsep.mkEvaluation "T-test" "Discrete-Comparative" (Some "C").
Definition sequential_test : Fecsep.Evaluation :=
  Fecsep.mkEvaluation "S-test" "Sequential-Absolute" None.
Definition batch_test : Fecsep.Evaluation :=
  Fecsep.mkEvaluation "B-test" "Discrete-Batch" None.

Definition experiment (tw : list Fecsep.timewindow) (ms : list Fecsep.Model)
    (ts : list Fecsep.Evaluation) : Fecsep.Experiment :=
  Fecsep.mkExperiment "/exp" tw ms ts [] "" ∅ ∅.

Definition two_windows : list Fecsep.timewindow := [(0, 10); (10, 20)]%Z.
Definition three_windows : list Fecsep.timewindow :=
  [(0, 10); (10, 20); (20, 30)]%Z.

(** Two windows, two models, a Discrete-Absolute and a Discrete-Comparative
    test. *)
Definition mixed : Fecsep.Experiment * FS :=
  Eval vm_compute in
    after_prepare_paths
      (experiment two_windows [model_A; model_B] [number_test; t_test_vs_A]).

Lemma prepare_tasks_discrete_absolute_count_witness :
  exists exp',
    prepare_tasks (fst mixed) = Ok exp'
    /\ count (Fecsep.discrete_absolute_compute) (Fecsep.tasks exp') = 2 * 2 * 1.
Proof.
  apply (Fecsep.prepare_tasks_discrete_absolute_count window_string (fst mixed)).
  - vm_compute. reflexivity.
  - vm_compute. discriminate.
  - vm_compute. reflexivity.
Defined.

(** Scenario 1: two windows, one model, one Discrete-Absolute test. *)
Definition scenario1 : Fecsep.Experiment * FS :=
  Eval vm_compute in
    after_prepare_paths (experiment two_windows [model_A] [number_test]).

Lemma prepare_tasks_order_witness :
  exists exp',
    prepare_tasks (fst scenario1) = Ok exp'
    /\ Fecsep.tasks exp'
       = [Fecsep.subcatalog_task "0_10";
          Fecsep.forecast_task "0_10" model_A;
          Fecsep.absolute_task (fst scenario1) "0_10" model_A number_test;
          Fecsep.subcatalog_task "10_20";
          Fecsep.forecast_task "10_20" model_A;
          Fecsep.absolute_task (fst scenario1) "10_20" model_A number_test]
    /\ length (Fecsep.tasks exp') = 6.
Proof.
  destruct (Fecsep.prepare_tasks_order window_string (fst scenario1))
    as (exp' & Hok & _ & _ & _ & Hscenario).
  - vm_compute. reflexivity.
  - vm_compute. discriminate.
  - exists exp'. split; [exact Hok|].
    apply (Hscenario (0, 10)%Z (10, 20)%Z model_A number_test);
      vm_compute; reflexivity.
Defined.

(** Scenario 3: three windows, one model, one Sequential-Absolute test. *)
Definition scenario3_input : Fecsep.Experiment :=
  experiment three_windows [model_A] [sequential_test].

Definition scenario3 : Fecsep.Experiment * FS :=
  Eval vm_compute in after_prepare_paths scenario3_input.

Lemma prepare_tasks_sequential_witness :
  exists task,
    flat_map (Fecsep.closing_block window_string (fst scenario3))
      (Fecsep.tests (fst scenario3)) = [task]
    /\ Fecsep.instance task = Fecsep.OnEvaluation sequential_test
    /\ Fecsep.kwarg "model" (Fecsep.kwargs task) = Some (Fecsep.VModel model_A)
    /\ Fecsep.kwarg "catalog" (Fecsep.kwargs task)
       = Some (Fecsep.VStrs ["/exp/results/run/0_10/catalog/catalog.json";
                        "/exp/results/run/10_20/catalog/catalog.json";
                        "/exp/results/run/20_30/catalog/catalog.json"])
    /\ Fecsep.kwarg "path" (Fecsep.kwargs task)
       = Some (Fecsep.VStr "/exp/results/run/20_30/evaluations/S-test_A.json").
Proof.
  destruct (Fecsep.prepare_tasks_sequential window_string join abspath normpath
              dirname None None scenario3_input (fst scenario3) no_files
              (snd scenario3))
    as (exp' & wl & _ & _ & _ & _ & _ & Hscenario).
  - vm_compute. reflexivity.
  - vm_compute. discriminate.
  - apply (Hscenario (0, 10)%Z (10, 20)%Z (20, 30)%Z model_A sequential_test);
      vm_compute; reflexivity.
Defined.

(** Two windows, two models, one Discrete-Batch test. *)
Definition batch_input : Fecsep.Experiment :=
  experiment two_windows [model_A; model_B] [batch_test].

Definition batch : Fecsep.Experiment * FS :=
  Eval vm_compute in after_prepare_paths batch_input.

Lemma prepare_tasks_batch_witness :
  exists mk : Fecsep.Model -> Fecsep.Task,
    Fecsep.closing_block window_string (fst batch) batch_test
    = [mk model_A; mk model_B]
    /\ Fecsep.kwarg "ref_model" (Fecsep.kwargs (mk model_B))
       = Some (Fecsep.VModels [model_A; model_B])
    /\ Fecsep.kwarg "catalog" (Fecsep.kwargs (mk model_B))
       = Some (Fecsep.VStr "/exp/results/run/10_20/catalog/catalog.json")
    /\ Fecsep.kwarg "path" (Fecsep.kwargs (mk model_B))
       = Some (Fecsep.VStr "/exp/results/run/10_20/evaluations/B-test_B.json").
Proof.
  destruct (Fecsep.prepare_tasks_batch window_string join abspath normpath
              dirname None None batch_input (fst batch) no_files (snd batch))
    as (exp' & wl & _ & Hlast & _ & Hbatch).
  - vm_compute. reflexivity.
  - vm_compute. discriminate.
  - injection Hlast as <-.
    destruct (Hbatch batch_test) as (mk & Hblock & Hmk);
      [vm_compute; tauto|reflexivity|reflexivity|reflexivity|].
    exists mk. split; [exact Hblock|].
    destruct (Hmk model_B) as (_ & _ & _ & Href & _ & Hcat & Hpath);
      [vm_compute; tauto|].
    split; [exact Href|]. split; [exact Hcat|exact Hpath].
Defined.

(** Scenario 2: two windows, two models, one Discrete-Comparative test
    whose reference is model A. *)
Definition scenario2 : Fecsep.Experiment * FS :=
  Eval vm_compute in
    after_prepare_paths
      (experiment two_windows [model_A; model_B] [t_test_vs_A]).

(** A task that computes a Comparative evaluation. *)
Definition comparative_compute (task : Fecsep.Task) : bool :=
  String.eqb (Fecsep.method task) "compute"
  && match Fecsep.instance task with
     | Fecsep.OnEvaluation t => Fecsep.has_tag "Comparative" t
     | _ => false
     end.

(** A task whose subject model is its own reference model. *)
Definition self_comparison (task : Fecsep.Task) : bool :=
  match Fecsep.kwarg "model" (Fecsep.kwargs task), Fecsep.kwarg "ref_model" (Fecsep.kwargs task)
  with
  | Some (Fecsep.VModel m), Some (Fecsep.VModel r) => bool_decide (m = r)
  | _, _ => false
  end.

(** C1, on [fecsep]'s [prepare_tasks]: in scenario 2 the task list holds
    four comparative tasks, two per window, and in two of them, one per
    window, model A is compared with itself. *)
Theorem prepare_tasks_compares_reference_with_itself :
  exists exp',
    prepare_tasks (fst scenario2) = Ok exp'
    /\ count comparative_compute (Fecsep.tasks exp') = 4
    /\ count self_comparison (Fecsep.tasks exp') = 2
    /\ In (Fecsep.comparative_task (fst scenario2) "0_10" t_test_vs_A model_A)
         (Fecsep.tasks exp')
    /\ Fecsep.kwarg "model"
         (Fecsep.kwargs
            (Fecsep.comparative_task (fst scenario2) "0_10" t_test_vs_A model_A))
       = Some (Fecsep.VModel model_A)
    /\ Fecsep.kwarg "ref_model"
         (Fecsep.kwargs
            (Fecsep.comparative_task (fst scenario2) "0_10" t_test_vs_A model_A))
       = Some (Fecsep.VModel model_A).
Proof.
  eexists. split; [vm_compute; reflexivity|].
  split; [vm_compute; reflexivity|].
  split; [vm_compute; reflexivity|].
  split; [|split; vm_compute; reflexivity].
  vm_compute. tauto.
Qed.

(** The reference model "C" of the test is not among the models. *)
Definition unresolved : Fecsep.Experiment * FS :=
  Eval vm_compute in
    after_prepare_paths
      (experiment two_windows [model_A; model_B] [t_test_vs_C]).

(** C2, as stated, fails: with the reference model missing from the model
    list, task preparation returns a task list. *)
Lemma unresolved_ref_model_does_not_fail_fast :
  ~ Fecsep.fails_fast_on_unresolved_ref_model window_string (fst unresolved).
Proof.
  intros Hfast.
  assert (Hprep : is_ok (prepare_tasks (fst unresolved)) = true)
    by (vm_compute; reflexivity).
  unfold prepare_tasks in Hprep. rewrite Hfast in Hprep; [discriminate|].
  exists t_test_vs_C. split; [vm_compute; tauto|].
  split; vm_compute; reflexivity.
Qed.

Lemma prepare_tasks_unresolved_ref_model_witness :
  Fecsep.get_model (fst unresolved) (Some "C") = None
  /\ exists exp',
       prepare_tasks (fst unresolved) = Ok exp'
       /\ exists task,
            In task (Fecsep.tasks exp')
            /\ Fecsep.instance task = Fecsep.OnEvaluation t_test_vs_C
            /\ Fecsep.kwarg "model" (Fecsep.kwargs task) = Some (Fecsep.VModel model_B)
            /\ Fecsep.kwarg "ref_model" (Fecsep.kwargs task) = Some Fecsep.VNone.
Proof.
  destruct (Fecsep.prepare_tasks_unresolved_ref_model window_string
              (fst unresolved) t_test_vs_C)
    as (Hget & exp' & Hok & _ & Hbound).
  - vm_compute. reflexivity.
  - vm_compute. discriminate.
  - vm_compute. tauto.
  - intros m Hm. vm_compute in Hm.
    destruct Hm as [<-|[<-|[]]]; discriminate.
  - split; [exact Hget|]. exists exp'. split; [exact Hok|].
    destruct (Hbound eq_refl (10, 20)%Z model_B)
      as (task & Hin & Hinst & _ & Hmodel & Href);
      [vm_compute; tauto|vm_compute; tauto|].
    exists task. tauto.
Defined.

(** *** The registry *)

Definition build_tree := Floatcsep.build_tree window_string join abspath normpath.
Definition get_result := Floatcsep.get_result window_string join abspath normpath.

Definition empty_registry : Floatcsep.ExperimentRegistry :=
  Floatcsep.mkRegistry "/exp" "results" ∅ ∅ ∅ "repr_config.yml" ∅.

Definition registry_models : list Floatcsep.Model := [Floatcsep.mkModel "A"; Floatcsep.mkModel "B"].
Definition registry_tests : list Floatcsep.Evaluation := [Floatcsep.mkEvaluation "N-test"].

(** The registry after [build_tree] on an empty file system. *)
Definition built : Floatcsep.ExperimentRegistry * FS :=
  Eval vm_compute in
    match build_tree two_windows registry_models registry_tests
            (empty_registry, no_files) with
    | Ok w => w
    | Raise _ => (empty_registry, no_files)
    end.

Lemma abspath_isabs (p : string) : Floatcsep.isabs (abspath p) = true.
Proof.
  unfold Floatcsep.isabs, abspath.
  destruct (String.prefix "/" p) eqn:Hp; [exact Hp|].
  simpl. destruct (ascii_dec "/" "/"); [by destruct p|done].
Qed.

Lemma normpath_isabs (p : string) :
  Floatcsep.isabs p = true -> Floatcsep.isabs (normpath p) = true.
Proof. intros H. exact H. Qed.

Lemma registry_key_resolution_witness :
  get_result (fst built) [Floatcsep.Window (0, 10)%Z;
                          Floatcsep.Obj (Some "N-test") None;
                          Floatcsep.Str "A"]
  = Ok "/exp/results/0_10/evaluations/N-test_A.json"
  /\ Floatcsep.isabs "/exp/results/0_10/evaluations/N-test_A.json" = true
  /\ get_result (fst built) [Floatcsep.Window (0, 10)%Z;
                             Floatcsep.Str "M-test"; Floatcsep.Str "A"]
     = Raise (KeyError "M-test").
Proof.
  destruct (Floatcsep.registry_key_resolution window_string join abspath
              normpath abspath_isabs normpath_isabs)
    as (_ & _ & _ & _ & _ & Hgetters & Hbuilt).
  destruct (Hgetters (Floatcsep.get_result window_string join abspath
                        normpath)
              (fun self => Floatcsep.Node (Floatcsep.results self)))
    as (_ & Habs & Hmissing); [vm_compute; tauto|].
  assert (Hok : get_result (fst built)
                  [Floatcsep.Window (0, 10)%Z;
                   Floatcsep.Obj (Some "N-test") None; Floatcsep.Str "A"]
                = Ok "/exp/results/0_10/evaluations/N-test_A.json").
  { etransitivity;
      [apply (Hbuilt two_windows registry_models registry_tests
                empty_registry no_files (fst built) (snd built) (0, 10)%Z
                (Floatcsep.mkEvaluation "N-test") (Floatcsep.mkModel "A"));
       vm_compute; tauto
      |vm_compute; reflexivity]. }
  split; [exact Hok|]. split; [exact (Habs _ _ _ Hok)|].
  apply (Hmissing (fst built) [Floatcsep.Window (0, 10)%Z]
           (Floatcsep.Str "M-test") [Floatcsep.Str "A"]
           (match Floatcsep.results (fst built) !! "0_10" with
            | Some (Floatcsep.Node d) => d
            | _ => ∅
            end)
           "M-test");
    vm_compute; reflexivity.
Defined.

Lemma tree_building_idempotent_witness :
  build_tree two_windows registry_models registry_tests built = Ok built
  /\ prepare_paths None None mixed = Ok mixed.
Proof.
  destruct (tree_building_idempotent window_string join abspath normpath
              dirname two_windows registry_models registry_tests
              empty_registry (fst built) no_files (snd built) None None
              (experiment two_windows [model_A; model_B]
                 [number_test; t_test_vs_A])
              (fst mixed) no_files (snd mixed))
    as ((self2 & fs2 & Hbuild & _ & _ & _ & Hfs)
        & (exp2 & fs2' & Hprep & Hpaths & Hexists & Hrun & Hfs')).
  - vm_compute. reflexivity.
  - vm_compute. reflexivity.
  - split; [vm_compute; reflexivity|vm_compute; reflexivity].
Defined.

(** *** The forecast cache and the run structure *)

(** Forecasts as the text of their construction; the other collaborators
    carry no information. *)
Definition gridded_forecast (name_ : option string) (out : string)
    (start_time end_time : Z) : string :=
  default "None" name_ +:+ ":" +:+ out +:+ ":" +:+ pretty start_time
  +:+ ":" +:+ pretty end_time.

Definition scaled (forecast : string) (horizon : Z) : string :=
  forecast +:+ "*" +:+ pretty horizon.

Definition days (start_date test_date : Z) : Z :=
  (test_date + 1 - start_date)%Z.

Definition World : Type := Gefe.World string string unit unit unit.
Definition Model : Type := Gefe.Model string string.

Definition get_forecast
  : option Gefe.loc -> Gefe.M string string unit unit unit string :=
  Gefe.get_forecast string string Z unit unit unit gridded_forecast scaled days.
Definition create_forecast
  : Gefe.loc -> Z -> Z -> option string
    -> Gefe.M string string unit unit unit string :=
  Gefe.create_forecast string string Z unit unit unit gridded_forecast scaled
    days.
Definition get_run_struct
  : option string
    -> Gefe.M string string unit unit unit
         (string * Gefe.Exists * Gefe.TargetPaths) :=
  Gefe.get_run_struct string string unit unit unit pretty join.

Definition model_file : Model :=
  Gefe.mkModel string string "A" "models/a.csv"
    (fun path_ => "rates of " +:+ path_) ∅.

(** An experiment from day 0 to day 365 whose test date is not set. *)
Definition fresh_world : World :=
  Gefe.mkWorld string string unit unit unit
    (Gefe.mkExperiment string unit unit unit 0%Z 365%Z None None [0%nat] []
       None None None None None)
    {[0%nat := model_file]} no_files [].

(** The same with the test date set to the end date. *)
Definition dated_world : World :=
  Gefe.mkWorld string string unit unit unit
    (Gefe.mkExperiment string unit unit unit 0%Z 365%Z (Some 365%Z) None
       [0%nat] [] None None None None None)
    {[0%nat := model_file]} no_files [].

(** The forecast and the world that the first request for model A leaves
    behind. *)
Definition served_forecast : string :=
  Eval vm_compute in
    match fst (get_forecast (Some 0%nat) dated_world) with
    | Ok f => f
    | Raise _ => ""
    end.

Definition served_world : World :=
  Eval vm_compute in snd (get_forecast (Some 0%nat) dated_world).

(** C3, as stated, fails, however the report of the file registry is read.
    After a first request has stored the forecast under the test date,
    a second [create_forecast] calls the model function again (so the file
    cannot count as present), while a second [get_forecast] returns the
    stored forecast and calls nothing (so it cannot count as absent). *)
Lemma second_request_ignores_registry :
  ~ exists present,
      Gefe.second_request_policy string string Z unit unit unit
        gridded_forecast scaled days present dated_world 0%nat.
Proof.
  intros (present & Hget & Hcreate).
  assert (Hfirst : get_forecast (Some 0%nat) dated_world
                   = (Ok served_forecast, served_world))
    by (vm_compute; reflexivity).
  assert (Hagain : get_forecast (Some 0%nat) served_world
                   = (Ok served_forecast, served_world))
    by (vm_compute; reflexivity).
  assert (Hcreated : create_forecast 0%nat 0%Z 365%Z (Some "A") dated_world
                     = (Ok served_forecast, served_world))
    by (vm_compute; reflexivity).
  destruct (create_forecast 0%nat 0%Z 365%Z (Some "A") served_world)
    as [r2 w2] eqn:Hrecreated.
  specialize (Hget _ _ _ _ Hfirst Hagain).
  specialize (Hcreate _ _ _ _ _ _ _ Hcreated Hrecreated).
  destruct (present served_world 0%nat).
  - destruct Hcreate as [_ Hcalls].
    vm_compute in Hrecreated. injection Hrecreated as _ <-.
    vm_compute in Hcalls. discriminate.
  - by apply Hget.
Qed.

Lemma get_forecast_cached_witness :
  exists f w1,
    get_forecast (Some 0%nat) dated_world = (Ok f, w1)
    /\ get_forecast (Some 0%nat) w1 = (Ok f, w1)
    /\ Gefe.calls _ _ _ _ _ w1 = ["models/a.csv"].
Proof.
  destruct (Gefe.get_forecast_cached string string Z unit unit unit
              gridded_forecast scaled days dated_world 0%nat model_file)
    as (_ & Hsecond & _); [vm_compute; reflexivity|].
  destruct (Hsecond eq_refl) as (f & w1 & Hfirst & Hagain).
  exists f, w1. split; [exact Hfirst|]. split; [exact Hagain|].
  vm_compute in Hfirst. injection Hfirst as _ <-. vm_compute. reflexivity.
Defined.

Lemma get_run_struct_requires_test_date_witness :
  get_run_struct None fresh_world
  = (Raise (RuntimeError "Test date must be set before running experiment."),
     fresh_world).
Proof.
  destruct (Gefe.get_run_struct_requires_test_date string string unit unit unit
              pretty join None fresh_world)
    as (w' & Hraise & -> & _); [reflexivity|exact Hraise].
Defined.

(** *** More of the scheduler *)

Lemma prepare_tasks_length_witness :
  exists exp',
    prepare_tasks (fst mixed) = Ok exp'
    /\ length (Fecsep.tasks exp') = 14.
Proof.
  destruct (Fecsep.prepare_tasks_length window_string (fst mixed))
    as (exp' & Hok & Hlen).
  - vm_compute. reflexivity.
  - vm_compute. discriminate.
  - exists exp'. split; [exact Hok|]. rewrite Hlen. vm_compute. reflexivity.
Defined.



(** An experiment whose paths have not been prepared. *)
Definition unprepared : Fecsep.Experiment :=
  experiment two_windows [model_A] [number_test].

Lemma prepare_tasks_missing_paths_witness :
  prepare_tasks unprepared = Raise (KeyError "0_10").
Proof.
  etransitivity;
    [apply (Fecsep.prepare_tasks_missing_paths window_string unprepared
              (0, 10)%Z [(10, 20)%Z] model_A []);
     vm_compute; reflexivity
    |vm_compute; reflexivity].
Defined.

(** The experiment [mixed] after [prepare_tasks()]. *)
Definition mixed_with_tasks : Fecsep.Experiment :=
  Eval vm_compute in
    match prepare_tasks (fst mixed) with
    | Ok exp' => exp'
    | Raise _ => fst mixed
    end.

Lemma prepare_tasks_replaces_tasks_witness :
  prepare_tasks mixed_with_tasks = Ok mixed_with_tasks
  /\ Fecsep._paths mixed_with_tasks = Fecsep._paths (fst mixed).
Proof.
  destruct (Fecsep.prepare_tasks_replaces_tasks window_string (fst mixed)
              mixed_with_tasks)
    as (_ & Hagain & _ & _ & _ & Hpaths & _).
  - vm_compute. reflexivity.
  - split; [exact Hagain|exact Hpaths].
Defined.

Definition mixed_input : Fecsep.Experiment :=
  experiment two_windows [model_A; model_B] [number_test; t_test_vs_A].

Lemma prepare_paths_layout_witness :
  Fecsep.run_folder (fst mixed) = "/exp/results/run"
  /\ created (snd mixed) "/exp/results/run/0_10/evaluations"
  /\ exists wp,
       Fecsep._paths (fst mixed) !! "0_10" = Some wp
       /\ Fecsep.catalog wp = "/exp/results/run/0_10/catalog/catalog.json".
Proof.
  destruct (Fecsep.prepare_paths_layout window_string join abspath normpath
              dirname None None mixed_input (fst mixed) no_files (snd mixed))
    as [Hrun Hwindow]; [vm_compute; reflexivity|].
  destruct (Hwindow (0, 10)%Z) as (Hdirs & wp & Hwp & Hcat & _);
    [vm_compute; tauto|].
  split; [rewrite Hrun; vm_compute; reflexivity|].
  split; [apply (Hdirs "evaluations"); vm_compute; tauto|].
  exists wp. split; [exact Hwp|]. rewrite Hcat. vm_compute. reflexivity.
Defined.

Lemma prepare_paths_fresh_run_witness :
  exists we,
    Fecsep._exists (fst mixed) !! "0_10" = Some we
    /\ Fecsep.forecasts_exist we = false
    /\ Fecsep.catalog_exists we = false.
Proof.
  destruct (Fecsep.prepare_paths_fresh_run window_string join abspath normpath
              dirname None None mixed_input (fst mixed) no_files (snd mixed))
    with (w := (0, 10)%Z)
    as (we & Hwe & Hforecasts & Hcatalog & _).
  - vm_compute. reflexivity.
  - intros w folder _ _. apply lookup_empty.
  - vm_compute. tauto.
  - exists we. split; [exact Hwe|]. split; [exact Hforecasts|exact Hcatalog].
Defined.

(** Reading a result file gives the path it was read from. *)
Definition load_result (eval_path : string) : result string := Ok eval_path.

Definition _read_results :=
  Fecsep._read_results window_string string load_result.


(** *** More of the engine *)

Lemma get_forecast_never_cached_witness :
  exists f w1 w2,
    get_forecast (Some 0%nat) fresh_world = (Ok f, w1)
    /\ get_forecast (Some 0%nat) w1 = (Ok f, w2)
    /\ Gefe.calls _ _ _ _ _ w2 = ["models/a.csv"; "models/a.csv"].
Proof.
  destruct (Gefe.get_forecast_never_cached string string Z unit unit unit
              gridded_forecast scaled days fresh_world 0%nat model_file)
    as (f & w1 & w2 & Hfirst & Hsecond & _ & Hcalls).
  - vm_compute. reflexivity.
  - reflexivity.
  - discriminate.
  - exists f, w1, w2. split; [exact Hfirst|]. split; [exact Hsecond|].
    exact Hcalls.
Defined.

(** The catalog, the region and the magnitudes carry no information. *)
Definition load_json (path_ : string) : unit := tt.
Definition filter_latitude (c : unit) : unit := c.
Definition with_region (c : unit) (region : unit) : unit := c.
Definition forecast_region (forecast : string) : unit := tt.
Definition min_magnitude (mags : unit) : unit := tt.
Definition catalog_reader (cat_id : option Z) (start_datetime : Z)
    (end_datetime : option Z) (min_mw : unit) : unit := tt.

Definition Test : Type := Gefe.Test string unit unit.

Definition get_catalog : Gefe.M string string unit unit unit unit :=
  Gefe.get_catalog string string unit unit unit load_json filter_latitude
    min_magnitude.
Definition _prepare_test_func_args
  : Test -> Gefe.loc
    -> Gefe.M string string unit unit unit (Gefe.TestArgs string unit unit) :=
  Gefe._prepare_test_func_args string string Z unit unit unit unit
    gridded_forecast scaled forecast_region days load_json filter_latitude
    with_region min_magnitude.
Definition prepare_all_tests
  : Gefe.M string string unit unit unit (list Test) :=
  Gefe.prepare_all_tests string string Z unit unit unit unit
    gridded_forecast scaled forecast_region days load_json filter_latitude
    with_region min_magnitude.

Definition model_file_B : Model :=
  Gefe.mkModel string string "B" "models/b.csv"
    (fun path_ => "rates of " +:+ path_) ∅.

Definition poisson_N : Test :=
  Gefe.mkTest string unit unit "N-test" tt None tt tt tt None None None.
Definition paired_T_vs_A : Test :=
  Gefe.mkTest string unit unit "T-test" tt None tt tt tt None (Some "A") None.
Definition paired_T_vs_C : Test :=
  Gefe.mkTest string unit unit "T-test" tt None tt tt tt None (Some "C") None.

(** Two models and two tests, the test date set to the end date, a
    catalog reader and a magnitude range. *)
Definition configured_world : World :=
  Gefe.mkWorld string string unit unit unit
    (Gefe.mkExperiment string unit unit unit 0%Z 365%Z (Some 365%Z)
       (Some catalog_reader) [0%nat; 1%nat] [poisson_N; paired_T_vs_A]
       None None None None (Some tt))
    {[0%nat := model_file; 1%nat := model_file_B]} no_files [].


(** The world that [get_run_struct()] leaves behind. *)
Definition run_world : World :=
  Eval vm_compute in snd (get_run_struct None configured_world).

(** The same after a first call of [get_catalog()]. *)
Definition catalog_world : World :=
  Eval vm_compute in snd (get_catalog run_world).

Lemma get_catalog_cached_witness :
  get_catalog catalog_world = (Ok tt, catalog_world)
  /\ Gefe.calls _ _ _ _ _ catalog_world = [].
Proof.
  destruct (Gefe.get_catalog_cached string string unit unit unit load_json
              filter_latitude min_magnitude run_world catalog_world tt)
    as (Hagain & _ & _ & _ & Hcalls).
  - vm_compute. reflexivity.
  - split; [exact Hagain|exact Hcalls].
Defined.

(** The world after the forecast of model A and the catalog have been
    obtained. *)
Definition forecast_world : World :=
  Eval vm_compute in snd (get_forecast (Some 0%nat) run_world).

Definition forecast_catalog_world : World :=
  Eval vm_compute in snd (get_catalog forecast_world).

Lemma _prepare_test_func_args_unresolved_ref_model_witness :
  _prepare_test_func_args paired_T_vs_C 0%nat run_world
  = (Raise (AttributeError "forecasts"), forecast_catalog_world).
Proof.
  apply (Gefe._prepare_test_func_args_unresolved_ref_model string string Z
           unit unit unit unit gridded_forecast scaled forecast_region days
           load_json filter_latitude with_region min_magnitude paired_T_vs_C
           0%nat "C" run_world forecast_world forecast_catalog_world
           served_forecast tt).
  - reflexivity.
  - intros l Hl. vm_compute in Hl.
    destruct Hl as [<-|[<-|[]]];
      [exists model_file|exists model_file_B];
      (split; [vm_compute; reflexivity|discriminate]).
  - vm_compute. reflexivity.
  - vm_compute. reflexivity.
Defined.

(** What [prepare_all_tests()] returns and leaves behind. *)
Definition prepared_tests : list Test :=
  Eval vm_compute in
    match fst (prepare_all_tests run_world) with
    | Ok ts => ts
    | Raise _ => []
    end.

Definition prepared_world : World :=
  Eval vm_compute in snd (prepare_all_tests run_world).

Lemma prepare_all_tests_pairs_witness :
  prepare_all_tests run_world = (Ok prepared_tests, prepared_world)
  /\ map (Gefe.pairing_of string unit unit) prepared_tests
     = [(Some 0%nat, "N-test", None);
        (Some 1%nat, "N-test", None);
        (Some 1%nat, "T-test", Some "A")].
Proof.
  assert (Hrun : prepare_all_tests run_world
                 = (Ok prepared_tests, prepared_world))
    by (vm_compute; reflexivity).
  split; [exact Hrun|].
  destruct (Gefe.prepare_all_tests_pairs string string Z unit unit unit unit
              gridded_forecast scaled forecast_region days load_json
              filter_latitude with_region min_magnitude run_world
              prepared_world prepared_tests Hrun)
    as [Hpairs _].
  rewrite Hpairs. vm_compute. reflexivity.
Defined.

(** *** More of the registry *)

Definition get_figure := Floatcsep.get_figure window_string join abspath normpath.
Definition result_exist := Floatcsep.result_exist window_string join abspath normpath.

Lemma build_tree_figures_witness :
  get_figure (fst built)
    [Floatcsep.Window (0, 10)%Z; Floatcsep.Str "forecasts";
     Floatcsep.Obj (Some "A") None]
  = Ok "/exp/results/0_10/figures/forecast_A"
  /\ get_figure (fst built) [Floatcsep.Window (0, 10)%Z; Floatcsep.Str "catalog"]
     = Ok "/exp/results/0_10/figures/catalog_map"
  /\ get_figure (fst built)
       [Floatcsep.Window (0, 10)%Z; Floatcsep.Str "catalog_map"]
     = Raise (KeyError "catalog_map").
Proof.
  destruct (Floatcsep.build_tree_figures window_string join abspath normpath
              two_windows registry_models registry_tests empty_registry
              (fst built) no_files (snd built) (0, 10)%Z)
    as (Hforecast & Hcatalog & _ & _ & _ & _ & Hmap & _).
  - vm_compute. reflexivity.
  - vm_compute. tauto.
  - split.
    + etransitivity;
        [apply (Hforecast (Floatcsep.mkModel "A")); vm_compute; tauto
        |vm_compute; reflexivity].
    + split.
      * etransitivity; [exact Hcatalog|vm_compute; reflexivity].
      * apply Hmap. vm_compute. intros [H|[]]. discriminate H.
Defined.

Lemma result_exist_after_build_tree_witness :
  result_exist (fst built) (snd built) "0_10" "N-test" "A" = Ok false
  /\ result_exist (fst built) (snd built) "0_10" "N-test" "C"
     = Raise (KeyError "C").
Proof.
  destruct (Floatcsep.result_exist_after_build_tree window_string join
              abspath normpath two_windows registry_models registry_tests
              empty_registry (fst built) no_files (snd built) (snd built))
    as (Hthere & _ & _ & Hmodel); [vm_compute; reflexivity|].
  split.
  - etransitivity;
      [apply (Hthere (0, 10)%Z (Floatcsep.mkEvaluation "N-test")
                (Floatcsep.mkModel "A"));
       vm_compute; tauto
      |vm_compute; reflexivity].
  - apply (Hmodel (0, 10)%Z (Floatcsep.mkEvaluation "N-test") "C").
    + vm_compute. tauto.
    + vm_compute. tauto.
    + vm_compute. intros [H|[H|[]]]; discriminate H.
Defined.

(** The registry of a time-dependent model, before and after
    [build_tree]. *)
Definition td_registry : Floatcsep.ForecastRegistry.t :=
  Floatcsep.ForecastRegistry.mk "/exp" "models/td" None None None ∅.

Definition td_built : Floatcsep.ForecastRegistry.t * FS :=
  Eval vm_compute in
    match Floatcsep.ForecastRegistry.build_tree window_string join abspath
            normpath two_windows "TimeDependentModel" (Some "td") None None
            (td_registry, no_files) with
    | Ok w => w
    | Raise _ => (td_registry, no_files)
    end.

Lemma build_tree_time_dependent_witness :
  Floatcsep.ForecastRegistry.get_forecast window_string join abspath normpath
    (fst td_built) [Floatcsep.Window (10, 20)%Z]
  = Ok "/exp/models/td/forecasts/td_10_20.csv"
  /\ Floatcsep.ForecastRegistry.args_file (fst td_built)
     = Some "models/td/input/args.txt"
  /\ created (snd td_built) "/exp/models/td/input".
Proof.
  destruct (Floatcsep.ForecastRegistry.build_tree_time_dependent
              window_string join abspath normpath two_windows (Some "td")
              None None td_registry (fst td_built) no_files (snd td_built))
    as (Hargs & _ & Hinput & _ & _ & Hforecast & _).
  - vm_compute. reflexivity.
  - split.
    + etransitivity;
        [apply (Hforecast (10, 20)%Z); vm_compute; tauto
        |vm_compute; reflexivity].
    + split; [rewrite Hargs; vm_compute; reflexivity|exact Hinput].
Defined.

End Scenarios.
